(** * Hello Universe: client-side state synchronisation

    A shallow embedding of the three state containers of the frontend,

      - [UserStore]  : src/frontend/src/store/useUserStore.ts
      - [ChainStore] : src/frontend/src/store/useChainStore.ts
      - [AIHook]     : src/frontend/src/hooks/useAI.ts (the [useAI] hook)

    Every zustand [set] call is a record update; an [async] action is
    cut at its [await]s into the synchronous pieces that run between
    two suspensions, and the outcome of the awaited operation is an
    input of the piece that follows it.

    Around them, the helpers the containers are used with:

      - [AIPage]    : [handleSend] of src/frontend/src/app/layout.tsx
      - [Crypto]    : src/frontend/src/lib/crypto.ts
      - [Explorer]  : src/frontend/src/services/blockchain-provider.tsx
      - [ApiClient] : src/frontend/src/services/api-client.ts
      - [Pg]        : src/frontend/src/lib/pg.ts

    Of the persistence middleware of the two stores, the write that
    follows every [set] of the chain store is modelled, with the
    [TypeError] of [JSON.stringify] on the bigint of a transaction
    (what the user store writes holds no bigint); reading the stores
    back from storage is not.  Also left out: the body of the chat
    request, and the console. *)

From Stdlib Require Import String List ZArith Bool Ascii Lia.
From Stdlib Require Import DecimalString DecimalN.
Import ListNotations.
Open Scope string_scope.

(** ** Values shared by the three modules *)

(** A value that reaches a [catch] clause.  The handlers of the source
    all test [error instanceof Error] and then read [error.message]. *)
Inductive Thrown : Type :=
| ErrorWith (message : string)   (* an instance of Error *)
| NotAnError.                    (* any other thrown value *)

(** The completion of an action: it returns, or it (re-)throws. *)
Inductive Completion : Type :=
| Returned
| Threw (e : Thrown).

(** JavaScript [Date] values, as milliseconds since the epoch. *)
Definition Date : Type := Z.

(** Truthiness of a string that may be absent: [undefined] and the
    empty string are falsy. *)
Definition truthy (o : option string) : bool :=
  match o with
  | Some s => negb (s =? "")
  | None => false
  end.

(** [a || b] on such strings. *)
Definition or_else (o : option string) (d : string) : string :=
  match o with
  | Some s => if s =? "" then d else s
  | None => d
  end.


(** One key of [{ ...a, ...b }]: the right operand wins when it has the
    key. *)
Definition over {A : Type} (a : A) (b : option A) : A :=
  match b with Some x => x | None => a end.

Definition over_opt {A : Type} (a b : option A) : option A :=
  match b with Some x => Some x | None => a end.

(** ** JavaScript strings

    A string is the sequence of its code units; the development works
    with code units below 256, one [ascii] each. *)

Definition newline : ascii := ascii_of_nat 10.
Definition dquote : ascii := ascii_of_nat 34.
Definition backslash : ascii := ascii_of_nat 92.

(** White space and line terminators, as [String.prototype.trim] sees
    them: TAB, LF, VT, FF, CR, SP and NBSP. *)
Definition isSpace (c : ascii) : bool :=
  let n := nat_of_ascii c in
  (((9 <=? n) && (n <=? 13)) || (n =? 32) || (n =? 160))%nat.

Fixpoint trimStart (s : string) : string :=
  match s with
  | String c r => if isSpace c then trimStart r else s
  | EmptyString => EmptyString
  end.

Fixpoint trimEnd (s : string) : string :=
  match s with
  | String c r =>
      let r' := trimEnd r in
      if isSpace c && (r' =? "")%string then EmptyString else String c r'
  | EmptyString => EmptyString
  end.

Definition trim (s : string) : string := trimEnd (trimStart s).

(** [s.split(sep)] for a one-character separator: the pieces between
    the separators, the empty ones included. *)
Fixpoint split (sep : ascii) (s : string) : list string :=
  match s with
  | EmptyString => [EmptyString]
  | String c r =>
      if Ascii.eqb c sep then EmptyString :: split sep r
      else match split sep r with
           | piece :: pieces => String c piece :: pieces
           | [] => [String c EmptyString]
           end
  end.

(** [s.startsWith(p)] *)
Definition startsWith (p s : string) : bool := String.prefix p s.

(** [s.slice(n)] for [n >= 0] *)
Fixpoint slice (n : nat) (s : string) : string :=
  match n, s with
  | O, _ => s
  | S n, String _ r => slice n r
  | S _, EmptyString => EmptyString
  end.

(** The text of a string value, [undefined] giving none. *)
Definition text (o : option string) : string :=
  match o with Some s => s | None => EmptyString end.

(* ================================================================== *)
(** ** useUserStore.ts *)
(* ================================================================== *)

Module UserStore.

Inductive Theme : Type := light | dark | system.

Record UserPreferences : Type := mkPreferences {
  theme : Theme;
  notifications : bool;
  language : string;
  newsletter : bool
}.

(** A user object as the store holds it.  The declaration promises
    [id], [email], [username] and the two dates, but the object of a
    backend answer is stored as it comes ([{ ...user, preferences }]),
    so that any of them may be missing; [preferences] is written by
    the store itself. *)
Record User : Type := mkUser {
  id : option string;
  email : option string;
  username : option string;
  walletAddress : option string;
  avatar : option string;
  createdAt : option Date;
  updatedAt : option Date;
  preferences : UserPreferences
}.

(** [Partial<User>] and [Partial<UserPreferences>]: every key may be
    missing. *)
Record PartialUser : Type := mkPartialUser {
  id' : option string;
  email' : option string;
  username' : option string;
  walletAddress' : option string;
  avatar' : option string;
  createdAt' : option Date;
  updatedAt' : option Date;
  preferences' : option UserPreferences
}.

Record PartialPreferences : Type := mkPartialPreferences {
  theme' : option Theme;
  notifications' : option bool;
  language' : option string;
  newsletter' : option bool
}.

(** The [user] object of a backend answer, before the store has
    completed it: the answer is not checked, and any key may be
    missing. *)
Record UserPayload : Type := mkPayload {
  payload_id : option string;
  payload_email : option string;
  payload_username : option string;
  payload_walletAddress : option string;
  payload_avatar : option string;
  payload_createdAt : option Date;
  payload_updatedAt : option Date;
  payload_preferences : option UserPreferences
}.

Record UserState : Type := mkState {
  user : option User;
  isAuthenticated : bool;
  isLoading : bool;
  error : option string
}.

Definition defaultPreferences : UserPreferences :=
  {| theme := system; notifications := true; language := "en";
     newsletter := false |}.

Definition initial : UserState :=
  {| user := None; isAuthenticated := false; isLoading := false;
     error := None |}.

(** [{ ...user, ...updates, updatedAt: now }] *)
Definition spreadUser (u : User) (updates : PartialUser) (now : Date) : User :=
  {| id := over_opt (id u) (id' updates);
     email := over_opt (email u) (email' updates);
     username := over_opt (username u) (username' updates);
     walletAddress := over_opt (walletAddress u) (walletAddress' updates);
     avatar := over_opt (avatar u) (avatar' updates);
     createdAt := over_opt (createdAt u) (createdAt' updates);
     updatedAt := Some now;
     preferences := over (preferences u) (preferences' updates) |}.

(** [{ ...user.preferences, ...preferences }] *)
Definition spreadPreferences (p : UserPreferences) (q : PartialPreferences)
  : UserPreferences :=
  {| theme := over (theme p) (theme' q);
     notifications := over (notifications p) (notifications' q);
     language := over (language p) (language' q);
     newsletter := over (newsletter p) (newsletter' q) |}.

(** [{ ...user, preferences: p }] for a backend [user]. *)
Definition complete (u : UserPayload) (p : UserPreferences) : User :=
  {| id := payload_id u;
     email := payload_email u;
     username := payload_username u;
     walletAddress := payload_walletAddress u;
     avatar := payload_avatar u;
     createdAt := payload_createdAt u;
     updatedAt := payload_updatedAt u;
     preferences := p |}.

(** [{ ...user }] for a [user] that is undefined or null: no key. *)
Definition noMembers : UserPayload :=
  {| payload_id := None; payload_email := None; payload_username := None;
     payload_walletAddress := None; payload_avatar := None;
     payload_createdAt := None; payload_updatedAt := None;
     payload_preferences := None |}.

(** *** Synchronous actions *)

Definition setUser (u : option User) (s : UserState) : UserState :=
  {| user := u;
     isAuthenticated := match u with Some _ => true | None => false end;
     isLoading := isLoading s;
     error := None |}.

Definition updateUser (updates : PartialUser) (now : Date) (s : UserState)
  : UserState :=
  {| user := match user s with
             | Some u => Some (spreadUser u updates now)
             | None => None
             end;
     isAuthenticated := isAuthenticated s;
     isLoading := isLoading s;
     error := error s |}.

Definition updatePreferences (prefs : PartialPreferences) (now : Date)
  (s : UserState) : UserState :=
  {| user := match user s with
             | Some u =>
                 Some {| id := id u; email := email u; username := username u;
                         walletAddress := walletAddress u; avatar := avatar u;
                         createdAt := createdAt u;
                         updatedAt := Some now;
                         preferences :=
                           spreadPreferences (preferences u) prefs |}
             | None => None
             end;
     isAuthenticated := isAuthenticated s;
     isLoading := isLoading s;
     error := error s |}.

Definition setLoading (b : bool) (s : UserState) : UserState :=
  {| user := user s; isAuthenticated := isAuthenticated s;
     isLoading := b; error := error s |}.

Definition setError (e : option string) (s : UserState) : UserState :=
  {| user := user s; isAuthenticated := isAuthenticated s;
     isLoading := isLoading s; error := e |}.

Definition logout (s : UserState) : UserState :=
  {| user := None; isAuthenticated := false;
     isLoading := isLoading s; error := None |}.

(** *** The session backend *)

Record Request : Type := mkRequest {
  url : string;
  method : string;
  body : list (string * string)       (* the object given to JSON.stringify *)
}.

(** What [await response.json()] gives for an answer whose status is
    not a success, as [data.message || fallback] and [new Error(...)]
    read it.  Something is thrown before a message is found (the
    promise rejects, the body being no JSON; or the body is [null]);
    or the [message] of the body is a string or a falsy value
    ([BodyJson], falsy values and the missing key as [None]); or it is
    a truthy value other than a string (an array, an object, a number
    or [true]), of which [new Error] keeps the text [String(message)]:
    the empty text for the empty array, [s] for the array of the one
    string [s]. *)
Inductive ErrorBody : Type :=
| BodyRejects (e : Thrown)
| BodyJson (message : option string)
| BodyTruthy (text : string).

(** A settled [fetch]: it rejects (or the reading of the body of a
    successful answer throws, the body being no JSON or [null], which
    the handlers do not tell apart), it answers with a status that is
    not a success, or it answers with a success whose body is read
    [{ user: u }]: [u] is [None] when the body has no [user], or a
    null one. *)
Inductive FetchResult (A : Type) : Type :=
| Rejected (e : Thrown)
| NotOk (b : ErrorBody)
| Ok (u : A).

Arguments Rejected {A} e.
Arguments NotOk {A} b.
Arguments Ok {A} u.

(** [set({ isLoading: true, error: null })] *)
Definition begin (s : UserState) : UserState :=
  {| user := user s; isAuthenticated := isAuthenticated s;
     isLoading := true; error := None |}.

(** The [catch] clause of [login] and [signup]:
    [set({ error: error instanceof Error ? error.message : fallback,
           isLoading: false }); throw error]. *)
Definition failed (fallback : string) (e : Thrown) (s : UserState)
  : UserState * Completion :=
  ({| user := user s; isAuthenticated := isAuthenticated s;
      isLoading := false;
      error := Some match e with
                    | ErrorWith m => m
                    | NotAnError => fallback
                    end |},
   Threw e).

(** [set({ user: u, isAuthenticated: true, isLoading: false })] *)
Definition succeeded (u : User) (s : UserState) : UserState * Completion :=
  ({| user := Some u; isAuthenticated := true; isLoading := false;
      error := error s |},
   Returned).

(** The value thrown inside the [if (!response.ok)] block:
    [await response.json()] rejects, or
    [new Error(data.message || fallback)] is thrown. *)
Definition notOkThrows (fallback : string) (b : ErrorBody) : Thrown :=
  match b with
  | BodyRejects e => e
  | BodyJson m => ErrorWith (or_else m fallback)
  | BodyTruthy t => ErrorWith t
  end.

(** The [TypeError] of [user.preferences] for a [user] that is
    undefined, as Chrome and Node word it (they name [null] instead
    when the [user] is null). *)
Definition preferencesOfUndefined : Thrown :=
  ErrorWith "Cannot read properties of undefined (reading 'preferences')".

(** The part of [login] that runs once [fetch] has settled.  Without
    a [user], reading [user.preferences] throws inside the [try]. *)
Definition loginSettled (r : FetchResult (option UserPayload))
  (s : UserState) : UserState * Completion :=
  match r with
  | Rejected e => failed "Login failed" e s
  | NotOk b => failed "Login failed" (notOkThrows "Login failed" b) s
  | Ok (Some u) =>
      succeeded (complete u (over defaultPreferences (payload_preferences u))) s
  | Ok None => failed "Login failed" preferencesOfUndefined s
  end.

(** The part of [signup] that runs once [fetch] has settled.  It
    reads no key of [user]: without one, [{ ...user, preferences }]
    is the object of the preferences alone. *)
Definition signupSettled (r : FetchResult (option UserPayload))
  (s : UserState) : UserState * Completion :=
  match r with
  | Rejected e => failed "Signup failed" e s
  | NotOk b => failed "Signup failed" (notOkThrows "Signup failed" b) s
  | Ok (Some u) => succeeded (complete u defaultPreferences) s
  | Ok None => succeeded (complete noMembers defaultPreferences) s
  end.

Definition refreshSettled (r : FetchResult (option UserPayload))
  (s : UserState) : UserState :=
  match r with
  | Rejected _ => logout s
  | NotOk _ => logout s
  | Ok (Some u) =>
      {| user := Some (complete u (over defaultPreferences
                                     (payload_preferences u)));
         isAuthenticated := true;
         isLoading := isLoading s;
         error := error s |}
  | Ok None => logout s
  end.

Section Backend.

(** The remote session API, reached through [fetch]: the login and
    signup endpoints, and the session endpoint. *)
Variable fetch : Request -> FetchResult (option UserPayload).
Variable fetchSession : Request -> FetchResult (option UserPayload).

(** The whole action, when nothing else touches the store while the
    request is under way. *)
Definition login (email_ password_ : string) (s : UserState)
  : UserState * Completion :=
  loginSettled
    (fetch {| url := "/api/auth/login"; method := "POST";
              body := [("email", email_); ("password", password_)] |})
    (begin s).

Definition signup (email_ password_ username_ : string) (s : UserState)
  : UserState * Completion :=
  signupSettled
    (fetch {| url := "/api/auth/signup"; method := "POST";
              body := [("email", email_); ("password", password_);
                       ("username", username_)] |})
    (begin s).

Definition refreshSession (s : UserState) : UserState :=
  refreshSettled
    (fetchSession {| url := "/api/auth/session"; method := "GET";
                     body := [] |})
    s.

End Backend.

(** *** Vocabulary of the properties, and sample answers *)

(** The text [login] stores for an answer that is not a success. *)
Definition loginFailureText (b : ErrorBody) : string :=
  match b with
  | BodyJson m => or_else m "Login failed"
  | BodyTruthy t => t
  | BodyRejects (ErrorWith m) => m
  | BodyRejects NotAnError => "Login failed"
  end.

(** A backend that knows no account. *)
Definition rejecting (_ : Request) : FetchResult (option UserPayload) :=
  NotOk (BodyJson (Some "Invalid email or password")).

(** A backend whose failures carry the body [{"message": []}]. *)
Definition rejectingWithArray (_ : Request)
  : FetchResult (option UserPayload) :=
  NotOk (BodyTruthy "").

(** An account whose owner had chosen the dark theme in French. *)
Definition bobPreferences : UserPreferences :=
  {| theme := dark; notifications := false; language := "fr";
     newsletter := true |}.

Definition bob : UserPayload :=
  {| payload_id := Some "42"; payload_email := Some "u@x.com";
     payload_username := Some "bob";
     payload_walletAddress := None; payload_avatar := None;
     payload_createdAt := Some 1700000000000%Z;
     payload_updatedAt := Some 1700000000000%Z;
     payload_preferences := Some bobPreferences |}.

Definition answeringBob (_ : Request) : FetchResult (option UserPayload) :=
  Ok (Some bob).


End UserStore.

(* ================================================================== *)
(** ** useChainStore.ts *)
(* ================================================================== *)

Module ChainStore.

(** [Address] and [Hash] are viem's template-literal string types. *)
Definition Address : Type := string.
Definition Hash : Type := string.

(** [SupportedChainId = 1 | 137 | 42161 | 10 | 8453] *)
Inductive SupportedChainId : Type :=
| chain1 | chain137 | chain42161 | chain10 | chain8453.

Definition chainNumber (c : SupportedChainId) : Z :=
  match c with
  | chain1 => 1 | chain137 => 137 | chain42161 => 42161
  | chain10 => 10 | chain8453 => 8453
  end%Z.

Record Currency : Type := mkCurrency {
  currency_name : string;
  symbol : string;
  decimals : Z
}.

Record ChainInfo : Type := mkChainInfo {
  id : SupportedChainId;
  name : string;
  network : string;
  nativeCurrency : Currency;
  rpcUrls : list string;
  blockExplorerUrls : list string;
  iconUrl : option string
}.

Inductive WalletStatus : Type :=
| disconnected | connecting | connected | error.

Record WalletState : Type := mkWallet {
  status : WalletStatus;
  address : option Address;
  chainId : option SupportedChainId;
  balance : Z;                                   (* bigint *)
  ensName : option string;
  ensAvatar : option string
}.

Inductive TransactionStatus : Type :=
| pending | confirmed | failed | cancelled.

Record Transaction : Type := mkTransaction {
  tx_hash : Hash;
  tx_from : Address;
  tx_to : Address;
  tx_value : Z;                                  (* bigint *)
  tx_chainId : SupportedChainId;
  tx_status : TransactionStatus;
  tx_timestamp : Z;
  tx_blockNumber : option Z;
  tx_gasUsed : option Z;
  tx_gasPrice : option Z;
  tx_data : option string;
  tx_description : option string
}.

(** [Partial<Transaction>] *)
Record PartialTransaction : Type := mkPartialTransaction {
  hash' : option Hash;
  from' : option Address;
  to' : option Address;
  value' : option Z;
  chainId' : option SupportedChainId;
  status' : option TransactionStatus;
  timestamp' : option Z;
  blockNumber' : option Z;
  gasUsed' : option Z;
  gasPrice' : option Z;
  data' : option string;
  description' : option string
}.

Record ChainState : Type := mkState {
  wallet : WalletState;
  currentChain : option ChainInfo;
  supportedChains : list ChainInfo;
  transactions : list Transaction;
  pendingTransactions : list Transaction;
  isWalletModalOpen : bool;
  isChainSwitching : bool
}.

Definition ether : Currency :=
  {| currency_name := "Ether"; symbol := "ETH"; decimals := 18 |}.

Definition SUPPORTED_CHAINS (c : SupportedChainId) : ChainInfo :=
  match c with
  | chain1 =>
      {| id := chain1; name := "Ethereum"; network := "mainnet";
         nativeCurrency := ether;
         rpcUrls := ["https://eth.llamarpc.com"];
         blockExplorerUrls := ["https://etherscan.io"];
         iconUrl := Some "/assets/logos/ethereum.svg" |}
  | chain137 =>
      {| id := chain137; name := "Polygon"; network := "polygon";
         nativeCurrency :=
           {| currency_name := "MATIC"; symbol := "MATIC"; decimals := 18 |};
         rpcUrls := ["https://polygon-rpc.com"];
         blockExplorerUrls := ["https://polygonscan.com"];
         iconUrl := Some "/assets/logos/polygon.svg" |}
  | chain42161 =>
      {| id := chain42161; name := "Arbitrum One"; network := "arbitrum";
         nativeCurrency := ether;
         rpcUrls := ["https://arb1.arbitrum.io/rpc"];
         blockExplorerUrls := ["https://arbiscan.io"];
         iconUrl := Some "/assets/logos/arbitrum.svg" |}
  | chain10 =>
      {| id := chain10; name := "Optimism"; network := "optimism";
         nativeCurrency := ether;
         rpcUrls := ["https://mainnet.optimism.io"];
         blockExplorerUrls := ["https://optimistic.etherscan.io"];
         iconUrl := Some "/assets/logos/optimism.svg" |}
  | chain8453 =>
      {| id := chain8453; name := "Base"; network := "base";
         nativeCurrency := ether;
         rpcUrls := ["https://mainnet.base.org"];
         blockExplorerUrls := ["https://basescan.org"];
         iconUrl := Some "/assets/logos/base.svg" |}
  end.

Definition initialWalletState : WalletState :=
  {| status := disconnected; address := None; chainId := None;
     balance := 0; ensName := None; ensAvatar := None |}.

(** [Object.values] lists integer keys in ascending order. *)
Definition initial : ChainState :=
  {| wallet := initialWalletState;
     currentChain := None;
     supportedChains :=
       map SUPPORTED_CHAINS [chain1; chain10; chain137; chain8453; chain42161];
     transactions := [];
     pendingTransactions := [];
     isWalletModalOpen := false;
     isChainSwitching := false |}.

(** *** [set] on one key of the store or of the wallet *)

Definition withWallet (w : WalletState) (s : ChainState) : ChainState :=
  {| wallet := w; currentChain := currentChain s;
     supportedChains := supportedChains s;
     transactions := transactions s;
     pendingTransactions := pendingTransactions s;
     isWalletModalOpen := isWalletModalOpen s;
     isChainSwitching := isChainSwitching s |}.

Definition withCurrentChain (c : option ChainInfo) (s : ChainState)
  : ChainState :=
  {| wallet := wallet s; currentChain := c;
     supportedChains := supportedChains s;
     transactions := transactions s;
     pendingTransactions := pendingTransactions s;
     isWalletModalOpen := isWalletModalOpen s;
     isChainSwitching := isChainSwitching s |}.

Definition withChainSwitching (b : bool) (s : ChainState) : ChainState :=
  {| wallet := wallet s; currentChain := currentChain s;
     supportedChains := supportedChains s;
     transactions := transactions s;
     pendingTransactions := pendingTransactions s;
     isWalletModalOpen := isWalletModalOpen s;
     isChainSwitching := b |}.

Definition withTransactions (txs pend : list Transaction) (s : ChainState)
  : ChainState :=
  {| wallet := wallet s; currentChain := currentChain s;
     supportedChains := supportedChains s;
     transactions := txs;
     pendingTransactions := pend;
     isWalletModalOpen := isWalletModalOpen s;
     isChainSwitching := isChainSwitching s |}.

Definition withStatus (st : WalletStatus) (w : WalletState) : WalletState :=
  {| status := st; address := address w; chainId := chainId w;
     balance := balance w; ensName := ensName w; ensAvatar := ensAvatar w |}.

Definition withAddress (a : option Address) (w : WalletState) : WalletState :=
  {| status := status w; address := a; chainId := chainId w;
     balance := balance w; ensName := ensName w; ensAvatar := ensAvatar w |}.

Definition withChainId (c : option SupportedChainId) (w : WalletState)
  : WalletState :=
  {| status := status w; address := address w; chainId := c;
     balance := balance w; ensName := ensName w; ensAvatar := ensAvatar w |}.

Definition withBalance (b : Z) (w : WalletState) : WalletState :=
  {| status := status w; address := address w; chainId := chainId w;
     balance := b; ensName := ensName w; ensAvatar := ensAvatar w |}.

Definition withEnsName (n : option string) (w : WalletState) : WalletState :=
  {| status := status w; address := address w; chainId := chainId w;
     balance := balance w; ensName := n; ensAvatar := ensAvatar w |}.

Definition withEnsAvatar (a : option string) (w : WalletState) : WalletState :=
  {| status := status w; address := address w; chainId := chainId w;
     balance := balance w; ensName := ensName w; ensAvatar := a |}.

(** *** Wallet state setters *)

Definition setWalletStatus (st : WalletStatus) (s : ChainState) : ChainState :=
  withWallet (withStatus st (wallet s)) s.

Definition setWalletAddress (a : option Address) (s : ChainState)
  : ChainState :=
  withWallet (withAddress a (wallet s)) s.

(** [currentChain: chainId ? SUPPORTED_CHAINS[chainId] || null : null] *)
Definition setChainId (c : option SupportedChainId) (s : ChainState)
  : ChainState :=
  withCurrentChain (option_map SUPPORTED_CHAINS c)
    (withWallet (withChainId c (wallet s)) s).

Definition setBalance (b : Z) (s : ChainState) : ChainState :=
  withWallet (withBalance b (wallet s)) s.

Definition setEnsName (n : option string) (s : ChainState) : ChainState :=
  withWallet (withEnsName n (wallet s)) s.

Definition setEnsAvatar (a : option string) (s : ChainState) : ChainState :=
  withWallet (withEnsAvatar a (wallet s)) s.

(** *** Wallet actions *)

(** How an awaited operation settles. *)
Inductive Settled : Type :=
| Fulfilled
| RejectedWith (e : Thrown).

Definition mockAddress : Address :=
  "0x1234567890123456789012345678901234567890".

(** [connectWallet] up to its [await]: the state its first [set]
    leaves. *)
Definition connectWalletBegin (connectorId : string) (s : ChainState)
  : ChainState :=
  withWallet (withStatus connecting (wallet s)) s.

(** [connectWallet] after its [await]: the state the [set] of the
    [try] block leaves, or the one the [set] of the [catch] clause
    leaves, and how the clause ends when that [set] returns.  What the
    persistence middleware adds to a [set] is in [connectWallet]
    below. *)
Definition connectWalletSettled (o : Settled) (s : ChainState)
  : ChainState * Completion :=
  match o with
  | Fulfilled =>
      (withCurrentChain (Some (SUPPORTED_CHAINS chain1))
         (withWallet
            {| status := connected;
               address := Some mockAddress;
               chainId := Some chain1;
               balance := 0;
               ensName := ensName (wallet s);
               ensAvatar := ensAvatar (wallet s) |} s),
       Returned)
  | RejectedWith e =>
      (withWallet (withStatus error (wallet s)) s, Threw e)
  end.

Definition disconnectWallet (s : ChainState) : ChainState :=
  withCurrentChain None (withWallet initialWalletState s).

(** [switchChain] up to its [await]: the state its first [set]
    leaves. *)
Definition switchChainBegin (c : SupportedChainId) (s : ChainState)
  : ChainState :=
  withChainSwitching true s.

(** [switchChain] after its [await]: the state the [set] of either
    clause leaves, and how the clause ends when that [set] returns. *)
Definition switchChainSettled (c : SupportedChainId) (o : Settled)
  (s : ChainState) : ChainState * Completion :=
  match o with
  | Fulfilled =>
      (withChainSwitching false
         (withCurrentChain (Some (SUPPORTED_CHAINS c))
            (withWallet (withChainId (Some c) (wallet s)) s)),
       Returned)
  | RejectedWith e => (withChainSwitching false s, Threw e)
  end.

(** *** Transaction actions *)

Definition isPending (tx : Transaction) : bool :=
  match tx_status tx with pending => true | _ => false end.

(** [{ ...tx, ...updates }] *)
Definition spreadTransaction (tx : Transaction) (u : PartialTransaction)
  : Transaction :=
  {| tx_hash := over (tx_hash tx) (hash' u);
     tx_from := over (tx_from tx) (from' u);
     tx_to := over (tx_to tx) (to' u);
     tx_value := over (tx_value tx) (value' u);
     tx_chainId := over (tx_chainId tx) (chainId' u);
     tx_status := over (tx_status tx) (status' u);
     tx_timestamp := over (tx_timestamp tx) (timestamp' u);
     tx_blockNumber := over_opt (tx_blockNumber tx) (blockNumber' u);
     tx_gasUsed := over_opt (tx_gasUsed tx) (gasUsed' u);
     tx_gasPrice := over_opt (tx_gasPrice tx) (gasPrice' u);
     tx_data := over_opt (tx_data tx) (data' u);
     tx_description := over_opt (tx_description tx) (description' u) |}.

Definition addTransaction (tx : Transaction) (s : ChainState) : ChainState :=
  withTransactions
    (tx :: transactions s)
    (if isPending tx then tx :: pendingTransactions s
     else pendingTransactions s)
    s.

(** [updates.status && updates.status !== 'pending'] *)
Definition terminal (u : PartialTransaction) : bool :=
  match status' u with
  | Some pending => false
  | Some _ => true
  | None => false
  end.

Definition updateTransaction (hash : Hash) (updates : PartialTransaction)
  (s : ChainState) : ChainState :=
  withTransactions
    (map (fun tx => if tx_hash tx =? hash then spreadTransaction tx updates
                    else tx)
       (transactions s))
    (if terminal updates
     then filter (fun tx => negb (tx_hash tx =? hash)) (pendingTransactions s)
     else pendingTransactions s)
    s.

Definition clearTransactions (s : ChainState) : ChainState :=
  withTransactions [] [] s.

Definition setWalletModalOpen (isOpen : bool) (s : ChainState) : ChainState :=
  {| wallet := wallet s; currentChain := currentChain s;
     supportedChains := supportedChains s;
     transactions := transactions s;
     pendingTransactions := pendingTransactions s;
     isWalletModalOpen := isOpen;
     isChainSwitching := isChainSwitching s |}.

(** [partialize]: what the persistence middleware selects of a
    state. *)
Definition partialize (s : ChainState) : list Transaction :=
  firstn 50 (transactions s).

(** *** The persistence middleware

    The store is created under [persist], with
    [createJSONStorage(() => localStorage)].  After every [set], the
    state having been replaced, the middleware hands
    [{ state: partialize(state), version: 0 }] to [JSON.stringify] and
    the text to [localStorage.setItem].  [JSON.stringify] throws a
    [TypeError] on a bigint, and every transaction holds one, its
    [value]: with a transaction in what [partialize] selects no text
    is made, and the throw goes through [set] to the action that
    called it.  Where there is no [localStorage] (a render on the
    server) the middleware leaves [set] as it is. *)
Inductive Storage : Type :=
| NoStorage
| LocalStorage (setItem : Completion).
  (* how [localStorage.setItem] ends for the only text that reaches
     it, the one of the empty log *)

(** The [TypeError] of [JSON.stringify], as Chrome and Node word
    it. *)
Definition bigIntError : Thrown :=
  ErrorWith "Do not know how to serialize a BigInt".

(** How a [set] that has left [s] ends. *)
Definition persisted (st : Storage) (s : ChainState) : Completion :=
  match st with
  | NoStorage => Returned
  | LocalStorage setItem =>
      match partialize s with
      | [] => setItem
      | _ :: _ => Threw bigIntError
      end
  end.


(** A [catch] clause [set(...); throw e], once its [set] has left
    [s]: when the [set] throws, its error is the one that leaves. *)
Definition thrownAfterSet (st : Storage) (e : Thrown) (s : ChainState)
  : Completion :=
  match persisted st s with
  | Returned => Threw e
  | Threw e' => Threw e'
  end.

(** [connectWallet] from its [await] on.  A [set] that throws inside
    the [try] block is caught like a failed connection. *)
Definition connectWalletResumed (st : Storage) (o : Settled) (s : ChainState)
  : ChainState * Completion :=
  match o with
  | Fulfilled =>
      let s1 := fst (connectWalletSettled Fulfilled s) in
      match persisted st s1 with
      | Returned => (s1, Returned)
      | Threw e =>
          let s2 := fst (connectWalletSettled (RejectedWith e) s1) in
          (s2, thrownAfterSet st e s2)
      end
  | RejectedWith e =>
      let s2 := fst (connectWalletSettled (RejectedWith e) s) in
      (s2, thrownAfterSet st e s2)
  end.

(** The whole action, when nothing else touches the store during the
    wait.  Its first [set] is outside the [try] block: when it throws,
    the action ends there. *)
Definition connectWallet (st : Storage) (connectorId : string) (o : Settled)
  (s : ChainState) : ChainState * Completion :=
  let s0 := connectWalletBegin connectorId s in
  match persisted st s0 with
  | Threw e => (s0, Threw e)
  | Returned => connectWalletResumed st o s0
  end.

(** [switchChain] from its [await] on. *)
Definition switchChainResumed (st : Storage) (c : SupportedChainId)
  (o : Settled) (s : ChainState) : ChainState * Completion :=
  match o with
  | Fulfilled =>
      let s1 := fst (switchChainSettled c Fulfilled s) in
      match persisted st s1 with
      | Returned => (s1, Returned)
      | Threw e =>
          let s2 := fst (switchChainSettled c (RejectedWith e) s1) in
          (s2, thrownAfterSet st e s2)
      end
  | RejectedWith e =>
      let s2 := fst (switchChainSettled c (RejectedWith e) s) in
      (s2, thrownAfterSet st e s2)
  end.

(** The whole action, when nothing else touches the store during the
    wait.  Its first [set] is outside the [try] block. *)
Definition switchChain (st : Storage) (c : SupportedChainId) (o : Settled)
  (s : ChainState) : ChainState * Completion :=
  let s0 := switchChainBegin c s in
  match persisted st s0 with
  | Threw e => (s0, Threw e)
  | Returned => switchChainResumed st c o s0
  end.

(** *** Runs of the store *)

(** One synchronous piece of the store's public surface: one [set].
    The two [...Settled] pieces are run by the event loop when the
    awaited operation of the matching [...Begin] settles.  A run lists
    the [set]s in the order they replace the state; a [set] that then
    throws in the middleware has replaced it all the same. *)
Inductive Action : Type :=
| SetWalletStatus (st : WalletStatus)
| SetWalletAddress (a : option Address)
| SetChainId (c : option SupportedChainId)
| SetBalance (b : Z)
| SetEnsName (n : option string)
| SetEnsAvatar (a : option string)
| ConnectWalletBegin (connectorId : string)
| ConnectWalletSettled (o : Settled)
| DisconnectWallet
| SwitchChainBegin (c : SupportedChainId)
| SwitchChainSettled (c : SupportedChainId) (o : Settled)
| AddTransaction (tx : Transaction)
| UpdateTransaction (hash : Hash) (updates : PartialTransaction)
| ClearTransactions
| SetWalletModalOpen (isOpen : bool).

Definition act (a : Action) (s : ChainState) : ChainState :=
  match a with
  | SetWalletStatus st => setWalletStatus st s
  | SetWalletAddress a => setWalletAddress a s
  | SetChainId c => setChainId c s
  | SetBalance b => setBalance b s
  | SetEnsName n => setEnsName n s
  | SetEnsAvatar a => setEnsAvatar a s
  | ConnectWalletBegin k => connectWalletBegin k s
  | ConnectWalletSettled o => fst (connectWalletSettled o s)
  | DisconnectWallet => disconnectWallet s
  | SwitchChainBegin c => switchChainBegin c s
  | SwitchChainSettled c o => fst (switchChainSettled c o s)
  | AddTransaction tx => addTransaction tx s
  | UpdateTransaction h u => updateTransaction h u s
  | ClearTransactions => clearTransactions s
  | SetWalletModalOpen b => setWalletModalOpen b s
  end.

(** The state after a run, oldest action first. *)
Definition run (l : list Action) (s : ChainState) : ChainState :=
  fold_left (fun s a => act a s) l s.

(** The states a subscriber sees along a run: one per action. *)
Fixpoint observed (l : list Action) (s : ChainState) : list ChainState :=
  match l with
  | [] => []
  | a :: l => act a s :: observed l (act a s)
  end.

(** *** Vocabulary of the properties, and sample transactions *)



(** No address is held unless the wallet is connected. *)
Definition addressOnlyConnected (s : ChainState) : Prop :=
  status (wallet s) <> connected -> address (wallet s) = None.

Definition isConnected (st : WalletStatus) : bool :=
  match st with connected => true | _ => false end.

Definition isNone {A : Type} (o : option A) : bool :=
  match o with None => true | Some _ => false end.

(** The calls that cannot separate address and status: the status
    setter when it is given [connected] or no address is held; the
    address setter when it is given null or the wallet is connected;
    [connectWallet] when it starts, and when it fails, with no address
    held; every other piece of the store. *)
Definition careful (a : Action) (s : ChainState) : bool :=
  match a with
  | SetWalletStatus st => isConnected st || isNone (address (wallet s))
  | SetWalletAddress a => isNone a || isConnected (status (wallet s))
  | ConnectWalletBegin _ => isNone (address (wallet s))
  | ConnectWalletSettled (RejectedWith _) => isNone (address (wallet s))
  | _ => true
  end.

Fixpoint carefulRun (l : list Action) (s : ChainState) : bool :=
  match l with
  | [] => true
  | a :: l => careful a s && carefulRun l (act a s)
  end.

Definition tx1 : Transaction :=
  {| tx_hash := "0x1";
     tx_from := mockAddress;
     tx_to := "0x00000000000000000000000000000000000000aa";
     tx_value := 5; tx_chainId := chain1; tx_status := confirmed;
     tx_timestamp := 1700000000000;
     tx_blockNumber := None; tx_gasUsed := None; tx_gasPrice := None;
     tx_data := None; tx_description := None |}.

(** The same transfer under another hash, not yet mined. *)
Definition tx2 : Transaction :=
  {| tx_hash := "0x2";
     tx_from := mockAddress;
     tx_to := "0x00000000000000000000000000000000000000aa";
     tx_value := 5; tx_chainId := chain1; tx_status := pending;
     tx_timestamp := 1700000000000;
     tx_blockNumber := None; tx_gasUsed := None; tx_gasPrice := None;
     tx_data := None; tx_description := None |}.

Definition gasPriceUpdate (g : Z) : PartialTransaction :=
  mkPartialTransaction None None None None None None None None None (Some g)
    None None.

Definition statusUpdate (st : TransactionStatus) : PartialTransaction :=
  mkPartialTransaction None None None None None (Some st) None None None
    None None None.

End ChainStore.

(* ================================================================== *)
(** ** JSON texts

    [JSON.parse] belongs to the platform, not to the repository.  The
    hook below takes it as a parameter; this module gives the reading
    of ECMA-404 texts that the worked examples run on.  Numbers are
    kept as their lexemes, and a [\u] escape is read when it names a
    code unit below 256. *)
(* ================================================================== *)

Module Json.

#[local] Set Warnings "-register-all".

Inductive JSON : Type :=
| JNull
| JBool (b : bool)
| JNumber (lexeme : string)
| JString (s : string)
| JArray (elements : list JSON)
| JObject (members : list (string * JSON)).

Definition isWs (c : ascii) : bool :=
  let n := nat_of_ascii c in
  ((n =? 32) || (n =? 9) || (n =? 10) || (n =? 13))%nat.

Fixpoint skipWs (s : string) : string :=
  match s with
  | String c r => if isWs c then skipWs r else s
  | EmptyString => EmptyString
  end.

Definition isDigit (c : ascii) : bool :=
  let n := nat_of_ascii c in ((48 <=? n) && (n <=? 57))%nat.

Definition hexValue (c : ascii) : option nat :=
  let n := nat_of_ascii c in
  if ((48 <=? n) && (n <=? 57))%nat then Some (n - 48)
  else if ((65 <=? n) && (n <=? 70))%nat then Some (n - 55)
  else if ((97 <=? n) && (n <=? 102))%nat then Some (n - 87)
  else None.

(** The character an escape letter stands for. *)
Definition unescape (c : ascii) : option ascii :=
  if Ascii.eqb c dquote then Some dquote
  else if Ascii.eqb c backslash then Some backslash
  else if Ascii.eqb c "/" then Some "/"%char
  else if Ascii.eqb c "b" then Some (ascii_of_nat 8)
  else if Ascii.eqb c "f" then Some (ascii_of_nat 12)
  else if Ascii.eqb c "n" then Some (ascii_of_nat 10)
  else if Ascii.eqb c "r" then Some (ascii_of_nat 13)
  else if Ascii.eqb c "t" then Some (ascii_of_nat 9)
  else None.

Definition consTo {A : Type} (c : ascii) (r : option (string * A))
  : option (string * A) :=
  match r with
  | Some (s, x) => Some (String c s, x)
  | None => None
  end.

(** The characters of a string literal, after its opening quote, and
    what follows its closing quote. *)
Fixpoint parseChars (s : string) : option (string * string) :=
  match s with
  | EmptyString => None
  | String c r =>
      if Ascii.eqb c dquote then Some (EmptyString, r)
      else if Ascii.eqb c backslash then
        match r with
        | String "u" (String h1 (String h2 (String h3 (String h4 r')))) =>
            match hexValue h1, hexValue h2, hexValue h3, hexValue h4 with
            | Some a, Some b, Some c3, Some d =>
                let n := ((a * 16 + b) * 16 + c3) * 16 + d in
                if (n <? 256)%nat then consTo (ascii_of_nat n) (parseChars r')
                else None
            | _, _, _, _ => None
            end
        | String e r' =>
            match unescape e with
            | Some ch => consTo ch (parseChars r')
            | None => None
            end
        | EmptyString => None
        end
      else if (nat_of_ascii c <? 32)%nat then None
      else consTo c (parseChars r)
  end.

(** The longest run of digits at the head of a text. *)
Fixpoint digits (s : string) : string * string :=
  match s with
  | String c r =>
      if isDigit c then let (d, rest) := digits r in (String c d, rest)
      else (EmptyString, s)
  | EmptyString => (EmptyString, EmptyString)
  end.

(** A number: an optional minus sign; a zero, or digits that do not
    start with one; an optional fraction, a point and digits; an
    optional exponent, [e] or [E], an optional sign and digits. *)
Definition parseNumber (s : string) : option (string * string) :=
  let (sign, s1) :=
    match s with
    | String "-" r => ("-", r)
    | _ => (EmptyString, s)
    end in
  let int :=
    match s1 with
    | String "0" r => Some ("0", r)
    | _ => let (d, r) := digits s1 in
           if d =? "" then None else Some (d, r)
    end in
  match int with
  | None => None
  | Some (i, s2) =>
      let frac :=
        match s2 with
        | String "." r =>
            let (d, r') := digits r in
            if d =? "" then None else Some ("." ++ d, r')
        | _ => Some (EmptyString, s2)
        end in
      match frac with
      | None => None
      | Some (f, s3) =>
          let exp :=
            match s3 with
            | String e r =>
                if Ascii.eqb e "e" || Ascii.eqb e "E" then
                  let (sg, r1) :=
                    match r with
                    | String "+" r1 => ("+", r1)
                    | String "-" r1 => ("-", r1)
                    | _ => (EmptyString, r)
                    end in
                  let (d, r2) := digits r1 in
                  if d =? "" then None
                  else Some (String e sg ++ d, r2)
                else Some (EmptyString, s3)
            | EmptyString => Some (EmptyString, s3)
            end in
          match exp with
          | None => None
          | Some (x, s4) => Some (sign ++ i ++ f ++ x, s4)
          end
      end
  end.

(** A value, the members of an object after its first brace and the
    elements of an array after its first bracket; [fuel] bounds the
    number of values, members and elements read. *)
Fixpoint parseValue (fuel : nat) (s : string) {struct fuel}
  : option (JSON * string) :=
  match fuel with
  | O => None
  | S fuel =>
      match skipWs s with
      | EmptyString => None
      | String c r =>
          if Ascii.eqb c "{" then
            match skipWs r with
            | String "}" r' => Some (JObject [], r')
            | _ => match parseMembers fuel r with
                   | Some (m, r') => Some (JObject m, r')
                   | None => None
                   end
            end
          else if Ascii.eqb c "[" then
            match skipWs r with
            | String "]" r' => Some (JArray [], r')
            | _ => match parseElements fuel r with
                   | Some (l, r') => Some (JArray l, r')
                   | None => None
                   end
            end
          else if Ascii.eqb c dquote then
            match parseChars r with
            | Some (str, r') => Some (JString str, r')
            | None => None
            end
          else if startsWith "true" (String c r) then
            Some (JBool true, slice 4 (String c r))
          else if startsWith "false" (String c r) then
            Some (JBool false, slice 5 (String c r))
          else if startsWith "null" (String c r) then
            Some (JNull, slice 4 (String c r))
          else
            match parseNumber (String c r) with
            | Some (n, r') => Some (JNumber n, r')
            | None => None
            end
      end
  end
with parseMembers (fuel : nat) (s : string) {struct fuel}
  : option (list (string * JSON) * string) :=
  match fuel with
  | O => None
  | S fuel =>
      match skipWs s with
      | String q r =>
          if Ascii.eqb q dquote then
            match parseChars r with
            | Some (key, r1) =>
                match skipWs r1 with
                | String ":" r2 =>
                    match parseValue fuel r2 with
                    | Some (v, r3) =>
                        match skipWs r3 with
                        | String "," r4 =>
                            match parseMembers fuel r4 with
                            | Some (m, r5) => Some ((key, v) :: m, r5)
                            | None => None
                            end
                        | String "}" r4 => Some ([(key, v)], r4)
                        | _ => None
                        end
                    | None => None
                    end
                | _ => None
                end
            | None => None
            end
          else None
      | EmptyString => None
      end
  end
with parseElements (fuel : nat) (s : string) {struct fuel}
  : option (list JSON * string) :=
  match fuel with
  | O => None
  | S fuel =>
      match parseValue fuel s with
      | Some (v, r) =>
          match skipWs r with
          | String "," r' =>
              match parseElements fuel r' with
              | Some (l, r'') => Some (v :: l, r'')
              | None => None
              end
          | String "]" r' => Some ([v], r')
          | _ => None
          end
      | None => None
      end
  end.

(** A whole text: one value, with white space around it and nothing
    else.  [None] is the SyntaxError. *)
Definition parse (s : string) : option JSON :=
  match parseValue (S (String.length s)) s with
  | Some (v, rest) => if skipWs rest =? "" then Some v else None
  | None => None
  end.

(** [o[key]] on the members of an object: the last member of that name
    is the one an object keeps. *)
Fixpoint member (key : string) (m : list (string * JSON)) : option JSON :=
  match m with
  | [] => None
  | (k, v) :: m =>
      match member key m with
      | Some v' => Some v'
      | None => if k =? key then Some v else None
      end
  end.

End Json.

(* ================================================================== *)
(** ** useAI.ts: the [useAI] hook *)
(* ================================================================== *)

Module AIHook.

Inductive Role : Type := user | assistant | system.

Record AIMessageMetadata : Type := mkMetadata {
  model : string;
  tokens : Z;
  latency : Z;
  sources : option (list string)
}.

Record AIMessage : Type := mkMessage {
  id : string;
  role : Role;
  content : string;
  timestamp : Date;
  metadata : option AIMessageMetadata
}.

(** [AIStreamChunk], the type the source gives to [JSON.parse(data)].
    The text comes from the network unchecked, so any key may be
    missing. *)
Record AIStreamChunk : Type := mkChunk {
  chunk_content : option string;
  chunk_done : option bool;
  chunk_error : option string
}.

(** What the body of the inner [try] sees of [JSON.parse(data)]:
    [Throws] when the call throws (the text is not JSON) or when
    reading a key of its result throws (the text is [null]). *)
Inductive Parsed : Type :=
| Throws
| Value (chunk : AIStreamChunk).

(** Abort controllers are named by the order of their creation. *)
Definition Controller : Type := nat.

(** Where a running [sendMessage] is suspended: at [await fetch(...)],
    or at [await reader.read()] with its local [fullResponse]. *)
Inductive Phase : Type :=
| Fetching
| Reading (fullResponse : string).

Record Call : Type := mkCall {
  controller : Controller;
  phase : Phase
}.

(** The hook: its five [useState] cells, the [abortControllerRef] ref,
    and what the runtime holds: the controllers that were aborted, the
    suspended calls of [sendMessage] (each known by the controller it
    created) and the next controller to create. *)
Record Hook : Type := mkHook {
  messages : list AIMessage;
  isLoading : bool;
  isStreaming : bool;
  error : option string;
  currentResponse : string;
  abortControllerRef : option Controller;
  aborted : list Controller;
  calls : list Call;
  nextController : Controller
}.

Definition initial : Hook :=
  {| messages := []; isLoading := false; isStreaming := false;
     error := None; currentResponse := "";
     abortControllerRef := None; aborted := []; calls := [];
     nextController := 0 |}.

Definition isAborted (k : Controller) (h : Hook) : bool :=
  existsb (Nat.eqb k) (aborted h).

Definition callOf (k : Controller) (h : Hook) : option Call :=
  find (fun c => Nat.eqb (controller c) k) (calls h).

Definition dropCall (k : Controller) (l : list Call) : list Call :=
  filter (fun c => negb (Nat.eqb (controller c) k)) l.

Definition setPhase (k : Controller) (p : Phase) (l : list Call) : list Call :=
  map (fun c => if Nat.eqb (controller c) k
                then {| controller := k; phase := p |} else c) l.

(** What reaches the outer [catch]: the rejection caused by
    [controller.abort()], whose [name] is ['AbortError'], or any other
    thrown value. *)
Inductive Caught : Type :=
| AbortError
| Other (e : Thrown).

(** The outer [catch] clause. *)
Definition caughtMessage (c : Caught) : string :=
  match c with
  | AbortError => "Request cancelled"
  | Other (ErrorWith m) => m
  | Other NotAnError => "Failed to get AI response"
  end.

(** The [finally] clause, which also ends call [k]. *)
Definition finally (k : Controller) (h : Hook) : Hook :=
  {| messages := messages h;
     isLoading := false;
     isStreaming := false;
     error := error h;
     currentResponse := currentResponse h;
     abortControllerRef := None;
     aborted := aborted h;
     calls := dropCall k (calls h);
     nextController := nextController h |}.

(** [catch] then [finally]. *)
Definition fail (k : Controller) (c : Caught) (h : Hook) : Hook :=
  finally k
    {| messages := messages h; isLoading := isLoading h;
       isStreaming := isStreaming h;
       error := Some (caughtMessage c);
       currentResponse := currentResponse h;
       abortControllerRef := abortControllerRef h;
       aborted := aborted h; calls := calls h;
       nextController := nextController h |}.

Section Hook.

(** [JSON.parse], read at the type [AIStreamChunk]. *)
Variable JSON_parse : string -> Parsed.

(** [config.model] *)
Variable config_model : string.

(** The body of [for (const line of lines)], on the local
    [fullResponse] and the [currentResponse] cell. *)
Definition consumeLine (st : string * string) (line : string)
  : string * string :=
  if startsWith "data: " line then
    let data := slice 6 line in
    if data =? "[DONE]" then st
    else
      match JSON_parse data with
      | Value parsed =>
          let st :=
            if truthy (chunk_content parsed)
            then let full := fst st ++ text (chunk_content parsed) in
                 (full, full)
            else st in
          if truthy (chunk_error parsed)
          then (* [throw new Error(parsed.error)], caught two lines below *)
               let full := fst st ++ data in (full, full)
          else st
      | Throws =>
          let full := fst st ++ data in (full, full)
      end
  else st.

(** [chunk.split('\n').filter((line) => line.trim() !== '')] *)
Definition linesOf (chunk : string) : list string :=
  filter (fun line => negb (trim line =? "")) (split newline chunk).

(** One turn of [while (true)] for a read that is not [done]. *)
Definition consumeChunk (chunk : string) (st : string * string)
  : string * string :=
  fold_left consumeLine (linesOf chunk) st.

(** [sendMessage] up to [await fetch(...)]. *)
Definition sendMessage (content_ newId : string) (now : Date) (h : Hook)
  : Hook :=
  if trim content_ =? "" then h
  else
    {| messages :=
         messages h ++ [ {| id := newId; role := user;
                            content := trim content_;
                            timestamp := now; metadata := None |} ];
       isLoading := true;
       isStreaming := isStreaming h;
       error := None;
       currentResponse := currentResponse h;
       abortControllerRef := Some (nextController h);
       aborted := aborted h;
       calls := calls h ++ [ {| controller := nextController h;
                                phase := Fetching |} ];
       nextController := S (nextController h) |}.

(** A settled [fetch]. *)
Inductive FetchResult : Type :=
| FetchRejected (e : Thrown)
| Response (ok : bool) (statusText : string) (hasBody : bool).

(** [sendMessage] from [await fetch(...)] to the first
    [await reader.read()], or to its end. *)
Definition fetchSettled (k : Controller) (r : FetchResult) (h : Hook)
  : Hook :=
  match r with
  | FetchRejected e => fail k (Other e) h
  | Response false statusText _ =>
      fail k (Other (ErrorWith ("API error: " ++ statusText))) h
  | Response true _ false => finally k h
  | Response true _ true =>
      {| messages := messages h; isLoading := isLoading h;
         isStreaming := true;
         error := error h;
         currentResponse := "";
         abortControllerRef := abortControllerRef h;
         aborted := aborted h;
         calls := setPhase k (Reading "") (calls h);
         nextController := nextController h |}
  end.

(** A read that brought [chunk], already decoded. *)
Definition readChunk (k : Controller) (fullResponse chunk : string)
  (h : Hook) : Hook :=
  let st := consumeChunk chunk (fullResponse, currentResponse h) in
  {| messages := messages h; isLoading := isLoading h;
     isStreaming := isStreaming h; error := error h;
     currentResponse := snd st;
     abortControllerRef := abortControllerRef h;
     aborted := aborted h;
     calls := setPhase k (Reading (fst st)) (calls h);
     nextController := nextController h |}.

(** The read that says [done]: the assistant message is appended. *)
Definition readDone (k : Controller) (fullResponse newId : string)
  (now : Date) (h : Hook) : Hook :=
  finally k
    {| messages :=
         messages h ++ [ {| id := newId; role := assistant;
                            content := fullResponse;
                            timestamp := now;
                            metadata :=
                              Some {| model := config_model; tokens := 0;
                                      latency := 0; sources := None |} |} ];
       isLoading := isLoading h; isStreaming := isStreaming h;
       error := error h;
       currentResponse := "";
       abortControllerRef := abortControllerRef h;
       aborted := aborted h; calls := calls h;
       nextController := nextController h |}.

Definition clearMessages (h : Hook) : Hook :=
  {| messages := []; isLoading := isLoading h;
     isStreaming := isStreaming h;
     error := None;
     currentResponse := "";
     abortControllerRef := abortControllerRef h;
     aborted := aborted h; calls := calls h;
     nextController := nextController h |}.

Definition stopStreaming (h : Hook) : Hook :=
  match abortControllerRef h with
  | Some k =>
      {| messages := messages h; isLoading := isLoading h;
         isStreaming := isStreaming h; error := error h;
         currentResponse := currentResponse h;
         abortControllerRef := None;
         aborted := k :: aborted h;
         calls := calls h;
         nextController := nextController h |}
  | None => h
  end.

Definition isUser (m : AIMessage) : bool :=
  match role m with user => true | _ => false end.

(** [l.findLastIndex(p)], with [None] for -1. *)
Fixpoint findLastIndex {A : Type} (p : A -> bool) (l : list A) : option nat :=
  match l with
  | [] => None
  | x :: l =>
      match findLastIndex p l with
      | Some i => Some (S i)
      | None => if p x then Some 0 else None
      end
  end.

(** [setMessages(ms)] *)
Definition withMessages (ms : list AIMessage) (h : Hook) : Hook :=
  {| messages := ms; isLoading := isLoading h;
     isStreaming := isStreaming h; error := error h;
     currentResponse := currentResponse h;
     abortControllerRef := abortControllerRef h;
     aborted := aborted h; calls := calls h;
     nextController := nextController h |}.

(** [regenerateLastResponse] up to the [await] inside the
    [sendMessage] it calls.  [snapshot] is the [messages] of the
    render the callback was created in: the length test, the index and
    the content are read from it, while [setMessages] cuts the log the
    hook has at that moment. *)
Definition regenerateLastResponse (snapshot : list AIMessage)
  (newId : string) (now : Date) (h : Hook) : Hook :=
  if (length snapshot <? 2)%nat then h
  else
    match findLastIndex isUser snapshot with
    | None => h
    | Some lastUserMessageIndex =>
        match nth_error snapshot lastUserMessageIndex with
        | Some lastUserMessage =>
            sendMessage (content lastUserMessage) newId now
              (withMessages (firstn lastUserMessageIndex (messages h)) h)
        | None => h
        end
    end.

(** *** The event loop *)

(** What the event loop can run next: a call of one of the hook's
    actions, or the continuation of a suspended [sendMessage] whose
    awaited promise has settled.  [newId] and [now] are the values
    [generateId()] and [new Date()] give at that moment, and
    [snapshot] is the log of the render [regenerateLastResponse] was
    taken from. *)
Inductive Event : Type :=
| SendMessage (content_ newId : string) (now : Date)
| ClearMessages
| StopStreaming
| RegenerateLastResponse (snapshot : list AIMessage) (newId : string)
    (now : Date)
| FetchSettled (k : Controller) (r : FetchResult)
| ReadChunk (k : Controller) (chunk : string)
| ReadDone (k : Controller) (newId : string) (now : Date)
| ReadRejected (k : Controller) (e : Thrown)
| Aborted (k : Controller).

(** One event; [None] when it cannot happen in [h].  A promise that
    waits on an aborted signal can only reject with the AbortError;
    one that waits on a live signal settles as the network decides. *)
Definition step (ev : Event) (h : Hook) : option Hook :=
  match ev with
  | SendMessage c i t => Some (sendMessage c i t h)
  | ClearMessages => Some (clearMessages h)
  | StopStreaming => Some (stopStreaming h)
  | RegenerateLastResponse snapshot i t =>
      Some (regenerateLastResponse snapshot i t h)
  | FetchSettled k r =>
      match callOf k h with
      | Some {| phase := Fetching |} =>
          if isAborted k h then None else Some (fetchSettled k r h)
      | _ => None
      end
  | ReadChunk k chunk =>
      match callOf k h with
      | Some {| phase := Reading full |} =>
          if isAborted k h then None else Some (readChunk k full chunk h)
      | _ => None
      end
  | ReadDone k i t =>
      match callOf k h with
      | Some {| phase := Reading full |} =>
          if isAborted k h then None else Some (readDone k full i t h)
      | _ => None
      end
  | ReadRejected k e =>
      match callOf k h with
      | Some {| phase := Reading _ |} =>
          if isAborted k h then None else Some (fail k (Other e) h)
      | _ => None
      end
  | Aborted k =>
      match callOf k h with
      | Some _ => if isAborted k h then Some (fail k AbortError h) else None
      | None => None
      end
  end.

(** A run of the event loop, oldest event first. *)
Fixpoint run (evs : list Event) (h : Hook) : option Hook :=
  match evs with
  | [] => Some h
  | ev :: evs =>
      match step ev h with
      | Some h' => run evs h'
      | None => None
      end
  end.

Definition assistantMessages (h : Hook) : list AIMessage :=
  filter (fun m => match role m with assistant => true | _ => false end)
    (messages h).

(** *** Vocabulary of the properties *)

(** The texts of a list, one after the other. *)
Definition joined (l : list string) : string :=
  fold_right String.append EmptyString l.

(** What one line adds to [fullResponse]: nothing without the marker
    and nothing for the sentinel; the data itself when it is not JSON;
    for a chunk, its content, then the data again when the chunk
    carries an error. *)
Definition payload (line : string) : string :=
  if startsWith "data: " line then
    let data := slice 6 line in
    if data =? "[DONE]" then EmptyString
    else match JSON_parse data with
         | Value parsed =>
             (if truthy (chunk_content parsed)
              then text (chunk_content parsed) else EmptyString)
             ++ (if truthy (chunk_error parsed) then data else EmptyString)
         | Throws => data
         end
  else EmptyString.

(** A line of a well-behaved stream: the marker, then the sentinel or
    a chunk that carries no error. *)
Definition contentLine (line : string) : Prop :=
  exists data, line = "data: " ++ data /\
    (data = "[DONE]" \/
     exists parsed, JSON_parse data = Value parsed /\
                    truthy (chunk_error parsed) = false).

(** The [content] of the chunk on a line. *)
Definition contentOf (line : string) : string :=
  if slice 6 line =? "[DONE]" then EmptyString
  else match JSON_parse (slice 6 line) with
       | Value parsed => text (chunk_content parsed)
       | Throws => EmptyString
       end.

Definition phaseOf (k : Controller) (h : Hook) : option Phase :=
  option_map phase (callOf k h).

(** What a piece of call [k] leaves alone: the aborted controllers,
    the next controller, and the other calls. *)
Definition elsewhere (k : Controller) (h h' : Hook) : Prop :=
  aborted h' = aborted h /\
  nextController h' = nextController h /\
  forall k', k' <> k -> phaseOf k' h' = phaseOf k' h.

(** Every controller the hook knows was created before the next one. *)
Definition wellFormed (h : Hook) : Prop :=
  Forall (fun c => controller c < nextController h) (calls h) /\
  Forall (fun k => k < nextController h) (aborted h) /\
  (forall k, abortControllerRef h = Some k -> k < nextController h).

Definition userMessage (content_ newId : string) (now : Date) : AIMessage :=
  {| id := newId; role := user; content := trim content_;
     timestamp := now; metadata := None |}.

Definition assistantMessage (full newId : string) (now : Date) : AIMessage :=
  {| id := newId; role := assistant; content := full; timestamp := now;
     metadata := Some {| model := config_model; tokens := 0; latency := 0;
                         sources := None |} |}.

End Hook.

(** [Json.parse] read at the type [AIStreamChunk]: a key holds the
    string (the boolean) the declaration announces, or is taken as
    missing; reading a key of [null] throws, and the other values that
    are not objects have none of the three keys. *)
Definition asChunk (v : Json.JSON) : Parsed :=
  match v with
  | Json.JNull => Throws
  | Json.JObject m =>
      Value {| chunk_content :=
                 match Json.member "content" m with
                 | Some (Json.JString s) => Some s
                 | _ => None
                 end;
               chunk_done :=
                 match Json.member "done" m with
                 | Some (Json.JBool b) => Some b
                 | _ => None
                 end;
               chunk_error :=
                 match Json.member "error" m with
                 | Some (Json.JString s) => Some s
                 | _ => None
                 end |}
  | _ => Value {| chunk_content := None; chunk_done := None;
                  chunk_error := None |}
  end.

Definition parseChunk (data : string) : Parsed :=
  match Json.parse data with
  | Some v => asChunk v
  | None => Throws
  end.

(** Text between double quotes. *)
Definition quoted (s : string) : string :=
  String dquote s ++ String dquote EmptyString.

(** *** Worked streams *)

Definition nl : string := String newline EmptyString.

(** The text of the object with one member [key] whose value is the
    string [value]. *)
Definition obj (key value : string) : string :=
  "{" ++ quoted key ++ ":" ++ quoted value ++ "}".

Definition ok : FetchResult := Response true "OK" true.

(** The hook under the default model, reading chunks with
    [parseChunk]. *)
Definition play : list Event -> Hook -> option Hook :=
  run parseChunk "gpt-4".

(** What a finished run shows: the contents of the assistant messages
    and the error cell. *)
Definition answers (r : option Hook) : option (list string * option string) :=
  option_map (fun h => (map content (assistantMessages h), error h)) r.

(** Two messages sent one right after the other, and what follows:
    both requests are answered and both streams are read to their
    end. *)
Definition bothTurns : list Event :=
  [SendMessage "a" "m1" 1%Z; SendMessage "b" "m2" 2%Z;
   FetchSettled 0 ok; FetchSettled 1 ok;
   ReadChunk 0 ("data: " ++ obj "content" "A" ++ nl);
   ReadChunk 1 ("data: " ++ obj "content" "B" ++ nl);
   ReadDone 0 "m3" 3%Z; ReadDone 1 "m4" 4%Z].

(** The hook while the answer to ["a"] is streaming: one read has
    brought the content ["A"]. *)
Definition midStream : Hook :=
  readChunk parseChunk 0 "" ("data: " ++ obj "content" "A" ++ nl)
    (fetchSettled 0 ok (sendMessage "a" "m1" 1%Z initial)).

(** The stream of the scenario, and the same bytes cut in two inside
    the second line. *)
Definition hello : string :=
  "data: " ++ obj "content" "He" ++ nl ++
  "data: " ++ obj "content" "llo" ++ nl ++
  "data: [DONE]" ++ nl.

Definition helloHead : string :=
  "data: " ++ obj "content" "He" ++ nl ++
  "data: {" ++ quoted "content" ++ ":" ++ String dquote "l".

Definition helloTail : string :=
  "lo" ++ String dquote "}" ++ nl ++ "data: [DONE]" ++ nl.

End AIHook.

(** A continuation of call [k] ran: the call was there, in the phase
    the event waits for, and its signal had the state the event needs. *)
Ltac ran k h H :=
  destruct (AIHook.callOf k h) as [[? [|?]]|]; try discriminate H;
  destruct (AIHook.isAborted k h); try discriminate H;
  injection H as <-.

(* ================================================================== *)
(** ** Runs of the user store *)
(* ================================================================== *)

Module UserRuns.

Import UserStore.

(** One synchronous piece of the store's public surface.  The three
    [...Settled] pieces are run by the event loop when the request of
    the matching action settles; [refreshSession] writes nothing
    before its request. *)
Inductive Action : Type :=
| SetUser (u : option User)
| UpdateUser (updates : PartialUser) (now : Date)
| UpdatePreferences (prefs : PartialPreferences) (now : Date)
| SetLoading (b : bool)
| SetError (e : option string)
| Logout
| LoginBegin
| LoginSettled (r : FetchResult (option UserPayload))
| SignupBegin
| SignupSettled (r : FetchResult (option UserPayload))
| RefreshSettled (r : FetchResult (option UserPayload)).

Definition act (a : Action) (s : UserState) : UserState :=
  match a with
  | SetUser u => setUser u s
  | UpdateUser updates now => updateUser updates now s
  | UpdatePreferences prefs now => updatePreferences prefs now s
  | SetLoading b => setLoading b s
  | SetError e => setError e s
  | Logout => logout s
  | LoginBegin => begin s
  | LoginSettled r => fst (loginSettled r s)
  | SignupBegin => begin s
  | SignupSettled r => fst (signupSettled r s)
  | RefreshSettled r => refreshSettled r s
  end.

(** The states a subscriber sees along a run: one per action. *)
Fixpoint observed (l : list Action) (s : UserState) : list UserState :=
  match l with
  | [] => []
  | a :: l => act a s :: observed l (act a s)
  end.

(** [!!user] *)
Definition hasUser (s : UserState) : bool :=
  match user s with Some _ => true | None => false end.

(** [isAuthenticated] says whether there is a user. *)
Definition authenticatedIffUser (s : UserState) : Prop :=
  isAuthenticated s = hasUser s.

(** [{ ...p, ...q }] on partial preferences and partial users. *)
Definition mergePreferences (p q : PartialPreferences) : PartialPreferences :=
  {| theme' := over_opt (theme' p) (theme' q);
     notifications' := over_opt (notifications' p) (notifications' q);
     language' := over_opt (language' p) (language' q);
     newsletter' := over_opt (newsletter' p) (newsletter' q) |}.

Definition mergeUser (p q : PartialUser) : PartialUser :=
  {| id' := over_opt (id' p) (id' q);
     email' := over_opt (email' p) (email' q);
     username' := over_opt (username' p) (username' q);
     walletAddress' := over_opt (walletAddress' p) (walletAddress' q);
     avatar' := over_opt (avatar' p) (avatar' q);
     createdAt' := over_opt (createdAt' p) (createdAt' q);
     updatedAt' := over_opt (updatedAt' p) (updatedAt' q);
     preferences' := over_opt (preferences' p) (preferences' q) |}.

(** A partial user without its [updatedAt] key. *)
Definition withoutUpdatedAt (p : PartialUser) : PartialUser :=
  {| id' := id' p; email' := email' p; username' := username' p;
     walletAddress' := walletAddress' p; avatar' := avatar' p;
     createdAt' := createdAt' p; updatedAt' := None;
     preferences' := preferences' p |}.



Definition sessionRequest : Request :=
  {| url := "/api/auth/session"; method := "GET"; body := [] |}.



End UserRuns.

(* ================================================================== *)
(** ** Runs of the chain store: vocabulary *)
(* ================================================================== *)

Module ChainRuns.

Import ChainStore.

(** [currentChain] is the entry of [wallet.chainId] in the table. *)
Definition chainMatches (s : ChainState) : Prop :=
  currentChain s = option_map SUPPORTED_CHAINS (chainId (wallet s)).

(** The pending list holds pending transactions only, and no more of
    them than the log has entries. *)
Definition pendingSound (s : ChainState) : Prop :=
  Forall (fun tx => isPending tx = true) (pendingTransactions s) /\
  length (pendingTransactions s) <= length (transactions s).

(** Every hash of the pending list is a hash of the log. *)
Definition pendingLogged (s : ChainState) : Prop :=
  incl (map tx_hash (pendingTransactions s)) (map tx_hash (transactions s)).

(** The actions that leave the hashes of the log alone: all but an
    update that carries a [hash] key. *)
Definition keepsHashes (a : Action) : bool :=
  match a with
  | UpdateTransaction _ u =>
      match hash' u with None => true | Some _ => false end
  | _ => true
  end.

(** The actions that write the wallet or [currentChain] and nothing
    else. *)
Definition walletOnly (a : Action) : bool :=
  match a with
  | SetWalletStatus _ | SetWalletAddress _ | SetChainId _ | SetBalance _
  | SetEnsName _ | SetEnsAvatar _ | ConnectWalletBegin _
  | ConnectWalletSettled _ | DisconnectWallet => true
  | _ => false
  end.


End ChainRuns.

(* ================================================================== *)
(** ** useAI.ts: counting along a run, and the page that sends *)
(* ================================================================== *)

Module AIPage.

Import AIHook.

Definition userMessages (h : Hook) : list AIMessage :=
  filter isUser (messages h).

(** *** Counting along a run *)

(** The two actions that take messages off the log. *)
Definition isClear (ev : Event) : bool :=
  match ev with
  | ClearMessages | RegenerateLastResponse _ _ _ => true
  | _ => false
  end.

(** No [clearMessages] and no [regenerateLastResponse] in the run. *)
Definition noClear (evs : list Event) : bool :=
  forallb (fun ev => negb (isClear ev)) evs.

(** The streams that ended with [done]. *)
Definition dones (evs : list Event) : nat :=
  length (filter (fun ev => match ev with ReadDone _ _ _ => true
                                        | _ => false end) evs).

(** The calls of [sendMessage] that had something to send. *)
Definition sends (evs : list Event) : nat :=
  length (filter (fun ev => match ev with
                            | SendMessage c _ _ => negb (trim c =? "")
                            | _ => false
                            end) evs).

(** The call an event ends, if it ends one: the stream is done or
    fails, the signal was aborted, or the answer is anything but a
    success with a body. *)
Definition endsCall (ev : Event) : option Controller :=
  match ev with
  | ReadDone k _ _ | ReadRejected k _ | Aborted k => Some k
  | FetchSettled k (Response true _ true) => None
  | FetchSettled k _ => Some k
  | _ => None
  end.

(** The error a turn ends with when its answer is not a success with a
    body. *)
Definition turnError (r : FetchResult) : option string :=
  match r with
  | FetchRejected (ErrorWith m) => Some m
  | FetchRejected NotAnError => Some "Failed to get AI response"
  | Response false statusText _ => Some ("API error: " ++ statusText)
  | Response true _ _ => None
  end.

Definition endsTurn (r : FetchResult) : bool :=
  match r with Response true _ true => false | _ => true end.

(** *** The AI Labs page (app/ai-labs, in layout.tsx) *)

(** The page: its prompt cell and the hook it uses. *)
Record Page : Type := mkPage {
  prompt : string;
  hook : Hook
}.

Definition initialPage : Page := {| prompt := ""; hook := initial |}.

(** [handleSend], for the render that shows the page as it is:
    [if (!prompt.trim() || isLoading) return;] then the prompt is
    emptied and sent. *)
Definition handleSend (newId : string) (now : Date) (pg : Page) : Page :=
  if (trim (prompt pg) =? "") || isLoading (hook pg) then pg
  else {| prompt := "";
          hook := sendMessage (prompt pg) newId now (hook pg) |}.

Section Page.

Variable JSON_parse : string -> Parsed.
Variable config_model : string.

(** What happens on the page: the user types, the user sends (the
    button or the Enter key), or the continuation of a suspended
    [sendMessage] runs.  The page calls no other action of the hook. *)
Inductive PageEvent : Type :=
| TypePrompt (text : string)
| Send (newId : string) (now : Date)
| Continue (ev : Event).

Definition isContinuation (ev : Event) : bool :=
  match ev with
  | SendMessage _ _ _ | ClearMessages | StopStreaming
  | RegenerateLastResponse _ _ _ => false
  | _ => true
  end.

Definition pageStep (pev : PageEvent) (pg : Page) : option Page :=
  match pev with
  | TypePrompt text => Some {| prompt := text; hook := hook pg |}
  | Send newId now => Some (handleSend newId now pg)
  | Continue ev =>
      if isContinuation ev then
        match step JSON_parse config_model ev (hook pg) with
        | Some h => Some {| prompt := prompt pg; hook := h |}
        | None => None
        end
      else None
  end.

Fixpoint pageRun (pevs : list PageEvent) (pg : Page) : option Page :=
  match pevs with
  | [] => Some pg
  | pev :: pevs =>
      match pageStep pev pg with
      | Some pg' => pageRun pevs pg'
      | None => None
      end
  end.

End Page.

(** At most one call is in flight, and [isLoading] says whether one
    is. *)
Definition gated (h : Hook) : Prop :=
  (calls h = [] /\ isLoading h = false) \/
  (exists c, calls h = [c] /\ isLoading h = true).

(** A log of two turns, the second unanswered. *)
Definition twoTurnsLog : list AIMessage :=
  [userMessage "first" "m1" 1%Z; assistantMessage "gpt-4" "one" "m2" 2%Z;
   userMessage "second" "m3" 3%Z].

End AIPage.

(* ================================================================== *)
(** ** lib/crypto.ts *)
(* ================================================================== *)

Module Crypto.

(** An [ArrayBuffer], seen through a [Uint8Array]. *)
Definition Buffer : Type := list Byte.byte.

(** What a promise settles to, or a call completes with: a thrown
    value or a result. *)
Definition Result (A : Type) : Type := (Thrown + A)%type.

(** *** [timingSafeEqual] *)

(** The loop of [timingSafeEqual]: [result |= a.charCodeAt(i) ^
    b.charCodeAt(i)] over the positions of [a]. *)
Fixpoint accumulate (a b : string) (result : N) : N :=
  match a, b with
  | String x a, String y b =>
      accumulate a b (N.lor result (N.lxor (N_of_ascii x) (N_of_ascii y)))
  | _, _ => result
  end.

Definition timingSafeEqual (a b : string) : bool :=
  if negb (Nat.eqb (String.length a) (String.length b)) then false
  else N.eqb (accumulate a b 0) 0.

(** *** [bufferToHex] *)

Definition hexDigits : list ascii := list_ascii_of_string "0123456789abcdef".

Definition hexDigit (n : N) : ascii := nth (N.to_nat n) hexDigits "0"%char.

(** [b.toString(16)] for a byte *)
Definition toString16 (b : Byte.byte) : string :=
  let n := Byte.to_N b in
  if (n <? 16)%N then String (hexDigit n) EmptyString
  else String (hexDigit (n / 16)) (String (hexDigit (n mod 16)) EmptyString).

(** [s.padStart(2, '0')] *)
Definition padStart2 (s : string) : string :=
  match String.length s with
  | 0 => "00"
  | 1 => String "0" s
  | _ => s
  end.

(** [Array.from(bytes).map(...).join('')] *)
Definition bufferToHex (buffer : Buffer) : string :=
  fold_right String.append EmptyString
    (map (fun b => padStart2 (toString16 b)) buffer).

Definition isHexDigit (c : ascii) : bool :=
  existsb (Ascii.eqb c) hexDigits.

(** The bytes a text of hexadecimal digits stands for, two digits to
    a byte: the way back from [bufferToHex]. *)
Definition hexValue (c : ascii) : N :=
  match find (fun p => Ascii.eqb c (fst p))
          (combine hexDigits
             [0; 1; 2; 3; 4; 5; 6; 7; 8; 9; 10; 11; 12; 13; 14; 15]%N) with
  | Some p => snd p
  | None => 0
  end.

Fixpoint hexToBuffer (s : string) : Buffer :=
  match s with
  | String h (String l rest) =>
      match Byte.of_N (16 * hexValue h + hexValue l) with
      | Some b => b :: hexToBuffer rest
      | None => []
      end
  | _ => []
  end.

(** *** Base64: [btoa] and [atob]

    The two belong to the platform.  [btoa] is RFC 4648 with padding;
    [atob] is the forgiving decoder of the WHATWG Infra standard:
    white space is dropped, the padding of a text whose length is a
    multiple of four is dropped, a length of one more than a multiple
    of four or a character outside the alphabet is an error, and the
    bits left over at the end are discarded. *)

(** Six bits, the most significant first. *)
Inductive Sextet : Type :=
| Six (b5 b4 b3 b2 b1 b0 : bool).

Definition bit (b : bool) : nat := if b then 1 else 0.

Definition sextetValue (s : Sextet) : nat :=
  let 'Six b5 b4 b3 b2 b1 b0 := s in
  32 * bit b5 + 16 * bit b4 + 8 * bit b3 + 4 * bit b2 + 2 * bit b1 + bit b0.

Definition alphabet : list ascii :=
  list_ascii_of_string
    "ABCDEFGHIJKLMNOPQRSTUVWXYZabcdefghijklmnopqrstuvwxyz0123456789+/".

Definition padChar : ascii := "="%char.

Definition sextetChar (s : Sextet) : ascii :=
  nth (sextetValue s) alphabet padChar.

(** The place of a character in a list. *)
Fixpoint position (c : ascii) (l : list ascii) : option nat :=
  match l with
  | [] => None
  | x :: l => if Ascii.eqb c x then Some 0
              else option_map S (position c l)
  end.

Definition sextetOfValue (n : nat) : Sextet :=
  Six (Nat.testbit n 5) (Nat.testbit n 4) (Nat.testbit n 3)
      (Nat.testbit n 2) (Nat.testbit n 1) (Nat.testbit n 0).

Definition charSextet (c : ascii) : option Sextet :=
  option_map sextetOfValue (position c alphabet).

(** The sextets of a binary string, the last one filled with zeros. *)
Fixpoint sextetsOf (s : string) : list Sextet :=
  match s with
  | String (Ascii a0 a1 a2 a3 a4 a5 a6 a7)
      (String (Ascii b0 b1 b2 b3 b4 b5 b6 b7)
         (String (Ascii c0 c1 c2 c3 c4 c5 c6 c7) rest)) =>
      Six a7 a6 a5 a4 a3 a2 :: Six a1 a0 b7 b6 b5 b4
      :: Six b3 b2 b1 b0 c7 c6 :: Six c5 c4 c3 c2 c1 c0 :: sextetsOf rest
  | String (Ascii a0 a1 a2 a3 a4 a5 a6 a7)
      (String (Ascii b0 b1 b2 b3 b4 b5 b6 b7) EmptyString) =>
      [Six a7 a6 a5 a4 a3 a2; Six a1 a0 b7 b6 b5 b4;
       Six b3 b2 b1 b0 false false]
  | String (Ascii a0 a1 a2 a3 a4 a5 a6 a7) EmptyString =>
      [Six a7 a6 a5 a4 a3 a2; Six a1 a0 false false false false]
  | EmptyString => []
  end.

Definition padding (s : string) : list ascii :=
  match String.length s mod 3 with
  | 1 => [padChar; padChar]
  | 2 => [padChar]
  | _ => []
  end.

Definition btoa (s : string) : string :=
  string_of_list_ascii (map sextetChar (sextetsOf s) ++ padding s)%list.

(** The bytes of a list of sextets; the bits of an unfinished group
    that do not fill a byte are discarded. *)
Fixpoint bytesOf (l : list Sextet) : string :=
  match l with
  | Six a7 a6 a5 a4 a3 a2 :: Six a1 a0 b7 b6 b5 b4
    :: Six b3 b2 b1 b0 c7 c6 :: Six c5 c4 c3 c2 c1 c0 :: rest =>
      String (Ascii a0 a1 a2 a3 a4 a5 a6 a7)
        (String (Ascii b0 b1 b2 b3 b4 b5 b6 b7)
           (String (Ascii c0 c1 c2 c3 c4 c5 c6 c7) (bytesOf rest)))
  | [Six a7 a6 a5 a4 a3 a2; Six a1 a0 b7 b6 b5 b4; Six b3 b2 b1 b0 _ _] =>
      String (Ascii a0 a1 a2 a3 a4 a5 a6 a7)
        (String (Ascii b0 b1 b2 b3 b4 b5 b6 b7) EmptyString)
  | [Six a7 a6 a5 a4 a3 a2; Six a1 a0 _ _ _ _] =>
      String (Ascii a0 a1 a2 a3 a4 a5 a6 a7) EmptyString
  | _ => EmptyString
  end.

Definition isBase64Space (c : ascii) : bool :=
  let n := nat_of_ascii c in
  ((n =? 9) || (n =? 10) || (n =? 12) || (n =? 13) || (n =? 32))%nat.

(** One or two padding characters at the end of a text are dropped. *)
Definition stripPadding (l : list ascii) : list ascii :=
  match rev l with
  | p :: q :: r =>
      if Ascii.eqb p padChar then
        if Ascii.eqb q padChar then rev r else rev (q :: r)
      else l
  | [p] => if Ascii.eqb p padChar then [] else l
  | [] => l
  end.

(** The sextets of a text, when every character is of the alphabet. *)
Fixpoint sextetsOfText (l : list ascii) : option (list Sextet) :=
  match l with
  | [] => Some []
  | c :: l =>
      match charSextet c, sextetsOfText l with
      | Some s, Some r => Some (s :: r)
      | _, _ => None
      end
  end.

(** [None] is the InvalidCharacterError. *)
Definition atob (data : string) : option string :=
  let d := filter (fun c => negb (isBase64Space c))
             (list_ascii_of_string data) in
  let d := if (length d mod 4 =? 0)%nat then stripPadding d else d in
  if (length d mod 4 =? 1)%nat then None
  else option_map bytesOf (sextetsOfText d).

(** [bufferToBase64]: one character per byte, then [btoa]. *)
Definition bufferToBase64 (buffer : Buffer) : string :=
  btoa (string_of_list_ascii (map ascii_of_byte buffer)).

(** [base64ToBuffer]: [atob], then one byte per character. *)
Definition base64ToBuffer (base64 : string) : option Buffer :=
  option_map (fun binary => map byte_of_ascii (list_ascii_of_string binary))
    (atob base64).

(** [s.slice(0, n)] for [n >= 0] *)
Fixpoint sliceTo (n : nat) (s : string) : string :=
  match n, s with
  | S n, String c r => String c (sliceTo n r)
  | _, _ => EmptyString
  end.

(** Why [generateRandomString] throws: the length is negative, and
    [new Uint8Array(length)] throws a [RangeError]; or it is above
    65536, and [crypto.getRandomValues] throws a [QuotaExceededError]
    (unless the length is one no array can have, which
    [new Uint8Array] refuses first). *)
Inductive RandomError : Type :=
| NegativeLength
| AboveQuota.

(** [generateRandomString(length)] for a whole number [length], given
    the bytes that [crypto.getRandomValues] put in the array of that
    length. *)
Definition generateRandomString (length_ : Z) (random : Buffer)
  : RandomError + string :=
  if (length_ <? 0)%Z then inl NegativeLength
  else if (65536 <? length_)%Z then inl AboveQuota
  else inr (sliceTo (Z.to_nat length_) (bufferToBase64 random)).

Definition isBase64Char (c : ascii) : bool :=
  match position c alphabet with Some _ => true | None => false end.

(** *** The operations that go through SubtleCrypto *)

Section Subtle.

(** [CryptoKey] *)
Variable Key : Type.

(** [new TextEncoder().encode] and [new TextDecoder().decode] *)
Variable encode : string -> Buffer.
Variable decode : Buffer -> string.

(** [crypto.subtle.encrypt] and [decrypt] under AES-GCM with the given
    initialisation vector; either may reject. *)
Variable aesEncrypt : Key -> Buffer -> Buffer -> Result Buffer.
Variable aesDecrypt : Key -> Buffer -> Buffer -> Result Buffer.

(** [crypto.subtle.importKey] then [sign] under HMAC with SHA-256, from
    the bytes of the secret and of the data; either may reject. *)
Variable hmacSign : Buffer -> Buffer -> Result Buffer.

(** [crypto.subtle.exportKey('raw', _)] and
    [importKey('raw', _, AES-GCM, ...)] *)
Variable exportRaw : Key -> Result Buffer.
Variable importRaw : Buffer -> Result Key.

(** The error [atob] throws. *)
Definition invalidCharacter : Thrown :=
  ErrorWith "The string to be decoded is not correctly encoded.".

(** [encrypt(data, key)], given the 12 bytes that
    [crypto.getRandomValues] put in [iv]. *)
Definition encrypt (data : string) (key : Key) (iv : Buffer)
  : Result string :=
  match aesEncrypt key iv (encode data) with
  | inl e => inl e
  | inr encryptedBuffer => inr (bufferToBase64 (iv ++ encryptedBuffer)%list)
  end.

Definition decrypt (encryptedData : string) (key : Key) : Result string :=
  match base64ToBuffer encryptedData with
  | None => inl invalidCharacter
  | Some combined =>
      match aesDecrypt key (firstn 12 combined) (skipn 12 combined) with
      | inl e => inl e
      | inr decryptedBuffer => inr (decode decryptedBuffer)
      end
  end.

Definition exportKey (key : Key) : Result string :=
  match exportRaw key with
  | inl e => inl e
  | inr exported => inr (bufferToBase64 exported)
  end.

Definition importKey (keyString : string) : Result Key :=
  match base64ToBuffer keyString with
  | None => inl invalidCharacter
  | Some keyBuffer => importRaw keyBuffer
  end.

Definition createHMAC (data secret : string) : Result string :=
  match hmacSign (encode secret) (encode data) with
  | inl e => inl e
  | inr signature => inr (bufferToHex signature)
  end.

Definition verifyHMAC (data signature secret : string) : Result bool :=
  match createHMAC data secret with
  | inl e => inl e
  | inr expectedSignature =>
      inr (timingSafeEqual signature expectedSignature)
  end.

End Subtle.

(** *** Stand-ins for the platform, for the worked examples: text of
    code units below 128, one byte each, and a cipher and a signature
    that only rearrange their input. *)

Definition asciiEncode (s : string) : Buffer :=
  map byte_of_ascii (list_ascii_of_string s).

Definition asciiDecode (b : Buffer) : string :=
  string_of_list_ascii (map ascii_of_byte b).

Definition toyEncrypt (key iv data : Buffer) : Result Buffer :=
  inr (rev data).

Definition toyDecrypt (key iv data : Buffer) : Result Buffer :=
  inr (rev data).

Definition toySign (secret data : Buffer) : Result Buffer :=
  inr (secret ++ data)%list.

Definition sampleIv : Buffer := asciiEncode "0123456789ab".

End Crypto.

(* ================================================================== *)
(** * Block explorer links
      src/frontend/src/services/blockchain-provider.tsx *)
(* ================================================================== *)

Module Explorer.

(** [type: 'tx' | 'address'] *)
Inductive LinkType : Type := tx | address.

Definition typeText (type : LinkType) : string :=
  match type with tx => "tx" | address => "address" end.

(** The table [explorers] of [getBlockExplorerUrl]. *)
Definition explorers : list (Z * string) :=
  [(1, "https://etherscan.io");
   (137, "https://polygonscan.com");
   (42161, "https://arbiscan.io");
   (10, "https://optimistic.etherscan.io");
   (8453, "https://basescan.org")]%Z.

(** [table[key]], [undefined] as [None] *)
Fixpoint member (key : Z) (table : list (Z * string)) : option string :=
  match table with
  | [] => None
  | (k, v) :: rest => if (k =? key)%Z then Some v else member key rest
  end.

(** A value that may be [undefined], inside a template literal. *)
Definition interpolate (o : option string) : string :=
  match o with Some s => s | None => "undefined" end.

(** [getBlockExplorerUrl(chainId, hash, type)], for a whole number
    [chainId]. *)
Definition getBlockExplorerUrl (chainId : Z) (hash : string)
  (type : LinkType) : string :=
  let baseUrl :=
    if truthy (member chainId explorers) then member chainId explorers
    else member 1%Z explorers in
  interpolate baseUrl ++ "/" ++ typeText type ++ "/" ++ hash.

End Explorer.

(* ================================================================== *)
(** * The API client
      src/frontend/src/services/api-client.ts *)
(* ================================================================== *)

Module ApiClient.

(** Header objects: the keys in insertion order, each key once. *)
Definition Headers : Type := list (string * string).

(** [h[key]] *)
Fixpoint get (key : string) (h : Headers) : option string :=
  match h with
  | [] => None
  | (k, v) :: rest => if k =? key then Some v else get key rest
  end.

(** [h[key] = value]: a key that is there keeps its place. *)
Fixpoint assign (key value : string) (h : Headers) : Headers :=
  match h with
  | [] => [(key, value)]
  | (k, v) :: rest =>
      if k =? key then (k, value) :: rest
      else (k, v) :: assign key value rest
  end.

(** [{ ...a, ...b }] *)
Definition spread (a b : Headers) : Headers :=
  fold_left (fun acc kv => assign (fst kv) (snd kv) acc) b a.

(** [const { [key]: _, ...rest } = h] *)
Definition omit (key : string) (h : Headers) : Headers :=
  filter (fun kv => negb (fst kv =? key)) h.

Record Client : Type := mkClient {
  baseUrl : string;
  defaultHeaders : Headers
}.

(** [new ApiClient(baseUrl)] *)
Definition create (baseUrl : string) : Client :=
  {| baseUrl := baseUrl;
     defaultHeaders := [("Content-Type", "application/json")] |}.

(** [setAuthToken(token)]; [null] is [None]. *)
Definition setAuthToken (token : option string) (c : Client) : Client :=
  match token with
  | Some t =>
      if truthy token then
        {| baseUrl := baseUrl c;
           defaultHeaders :=
             assign "Authorization" ("Bearer " ++ t) (defaultHeaders c) |}
      else
        {| baseUrl := baseUrl c;
           defaultHeaders := omit "Authorization" (defaultHeaders c) |}
  | None =>
      {| baseUrl := baseUrl c;
         defaultHeaders := omit "Authorization" (defaultHeaders c) |}
  end.

(** What a [catch] clause of the client tells apart: an error whose
    [name] is [AbortError], and everything else. *)
Inductive Caught : Type :=
| AbortError
| Other (e : Thrown).

(** [`${status}`] *)
Definition decimal (n : N) : string := NilEmpty.string_of_uint (N.to_uint n).

Section Fetch.

(** The payload [T] of a response, the type of [details], the body of
    a request, and the message of the [TypeError] the engine throws
    when a member of [null] is read. *)
Variable T : Type.
Variable Details : Type.
Variable Body : Type.
Variable memberOfNull : string.

(** [RequestInit], as the methods of the client fill it. *)
Record RequestInit : Type := mkInit {
  method : option string;
  headers : option Headers;
  body : option Body
}.

(** The call [fetch(url, init)] of the wrapper. *)
Record Request : Type := mkRequest {
  url : string;
  req_method : option string;
  req_headers : Headers;
  req_body : option Body
}.

(** The keys [...options.headers] spreads: none when there is no
    such member. *)
Definition ownHeaders (options : RequestInit) : Headers :=
  match headers options with Some h => h | None => [] end.

Definition request (c : Client) (endpoint : string) (options : RequestInit)
  : Request :=
  {| url := baseUrl c ++ endpoint;
     req_method := method options;
     req_headers := spread (defaultHeaders c) (ownHeaders options);
     req_body := body options |}.

(** What [response.json()] resolves to: [null], or a value with its
    members [message] (when it is a string) and [details]. *)
Inductive Data : Type :=
| Null
| Value (data : T) (message : option string) (details : option Details).

(** How the request settles: [fetch] rejects (with an [AbortError]
    when the 30 s timer has aborted it), or a response arrives and
    its body is read as JSON. *)
Inductive Outcome : Type :=
| FetchRejects (e : Caught)
| Responds (ok : bool) (status : N) (statusText : string)
    (json : Caught + Data).

Record ApiError : Type := mkApiError {
  code : string;
  message : string;
  details : option Details
}.

Record ApiResponse : Type := mkApiResponse {
  success : bool;
  data : option T;                        (* [null] is [None] *)
  error : option ApiError
}.

Definition failure (code message : string) (details : option Details)
  : ApiResponse :=
  {| success := false;
     data := None;
     error := Some {| code := code; message := message;
                      details := details |} |}.

(** The [catch] clause of the wrapper. *)
Definition caught (e : Caught) : ApiResponse :=
  match e with
  | AbortError => failure "TIMEOUT" "Request timed out" None
  | Other (ErrorWith m) => failure "NETWORK_ERROR" m None
  | Other NotAnError => failure "NETWORK_ERROR" "Network error" None
  end.

(** The wrapper [fetch<T>], from where the request settles. *)
Definition settled (o : Outcome) : ApiResponse :=
  match o with
  | FetchRejects e => caught e
  | Responds _ _ _ (inl e) => caught e
  | Responds false _ _ (inr Null) => caught (Other (ErrorWith memberOfNull))
  | Responds false status statusText (inr (Value _ m d)) =>
      failure ("HTTP_" ++ decimal status) (or_else m statusText) d
  | Responds true _ _ (inr Null) =>
      {| success := true; data := None; error := None |}
  | Responds true _ _ (inr (Value v _ _)) =>
      {| success := true; data := Some v; error := None |}
  end.

(** Vocabulary: the code of a failure, and the rejection of an
    outcome. *)
Definition codeOf (r : ApiResponse) : option string :=
  option_map code (error r).

Definition rejection (o : Outcome) : option Caught :=
  match o with
  | FetchRejects e => Some e
  | Responds _ _ _ (inl e) => Some e
  | Responds _ _ _ (inr _) => None
  end.

End Fetch.

(** Vocabulary: the [Authorization] header a token stands for. *)
Definition bearer (token : option string) : option string :=
  match token with
  | Some t => if truthy token then Some ("Bearer " ++ t) else None
  | None => None
  end.

(** [{ method: 'DELETE' }], the options of [delete] *)
Definition deleteOptions : RequestInit unit :=
  {| method := Some "DELETE"; headers := None; body := None |}.

End ApiClient.

(* ================================================================== *)
(** * The PostgreSQL client
      src/frontend/src/lib/pg.ts *)
(* ================================================================== *)

Module Pg.

Section Pool.

(** Rows and parameters are whatever the driver gives and takes; [Db]
    is what the server holds, and [exec] is the driver's
    [client.query]: it answers with rows or rejects, and the server
    moves on. *)
Variable Row : Type.
Variable Param : Type.
Variable Db : Type.
Variable exec : string -> list Param -> Db -> (Thrown + list Row) * Db.

(** The pool: the server behind it, the number of clients checked
    out, and the statements sent so far, oldest first. *)
Record Pool : Type := mkPool {
  db : Db;
  checkedOut : nat;
  sent : list string
}.

(** [pool.connect()] when it resolves, and [client.release()]. *)
Definition connect (p : Pool) : Pool :=
  {| db := db p; checkedOut := S (checkedOut p); sent := sent p |}.

Definition release (p : Pool) : Pool :=
  {| db := db p; checkedOut := pred (checkedOut p); sent := sent p |}.

(** [client.query(text, params)] *)
Definition clientQuery (text_ : string) (params : list Param) (p : Pool)
  : (Thrown + list Row) * Pool :=
  let (r, d) := exec text_ params (db p) in
  (r, {| db := d; checkedOut := checkedOut p;
         sent := (sent p ++ [text_])%list |}).

(** A callback of [transaction]: it returns, throws, or awaits a
    query on the client it was handed and goes on from its rows or
    its rejection. *)
Inductive Callback (T : Type) : Type :=
| Return (result : T)
| Throw (e : Thrown)
| Query (text_ : string) (params : list Param)
    (next : Thrown + list Row -> Callback T).

Arguments Return {T}.
Arguments Throw {T}.
Arguments Query {T}.

Fixpoint runCallback {T : Type} (c : Callback T) (p : Pool)
  : (Thrown + T) * Pool :=
  match c with
  | Return result => (inr result, p)
  | Throw e => (inl e, p)
  | Query text_ params next =>
      let (r, p') := clientQuery text_ params p in
      runCallback (next r) p'
  end.

(** The [catch] and [finally] clauses of [transaction]. *)
Definition rollback {T : Type} (e : Thrown) (p : Pool)
  : (Thrown + T) * Pool :=
  let (r, p') := clientQuery "ROLLBACK" [] p in
  (match r with inl e' => inl e' | inr _ => inl e end, release p').

Definition notOnServer : Thrown :=
  ErrorWith "Database pool should only be used on the server".

(** [transaction(callback)]; [connects] is how [pool.connect()]
    settles. *)
Definition transaction {T : Type} (isServer : bool)
  (connects : option Thrown) (callback : Callback T) (p : Pool)
  : (Thrown + T) * Pool :=
  if negb isServer then (inl notOnServer, p)
  else
    match connects with
    | Some e => (inl e, p)
    | None =>
        let (b, p1) := clientQuery "BEGIN" [] (connect p) in
        match b with
        | inl e => rollback e p1
        | inr _ =>
            let (r, p2) := runCallback callback p1 in
            match r with
            | inl e => rollback e p2
            | inr result =>
                let (c, p3) := clientQuery "COMMIT" [] p2 in
                match c with
                | inl e => rollback e p3
                | inr _ => (inr result, release p3)
                end
            end
        end
    end.

(** [query(text, params)] and [queryOne(text, params)] on the pool
    itself, and [checkHealth()]. *)
Definition query (isServer : bool) (text_ : string) (params : list Param)
  (p : Pool) : (Thrown + list Row) * Pool :=
  if negb isServer then (inl notOnServer, p)
  else clientQuery text_ params p.

Definition queryOne (isServer : bool) (text_ : string) (params : list Param)
  (p : Pool) : (Thrown + option Row) * Pool :=
  match query isServer text_ params p with
  | (inl e, p') => (inl e, p')
  | (inr rows, p') => (inr (hd_error rows), p')
  end.

Definition checkHealth (isServer : bool) (p : Pool) : bool * Pool :=
  match query isServer "SELECT 1" [] p with
  | (inl _, p') => (false, p')
  | (inr _, p') => (true, p')
  end.

(** Vocabulary.  A callback against the server alone, each of its
    queries answered by [exec]: the statements it sends, the oldest
    first, how it ends, and the server it leaves. *)
Fixpoint script {T : Type} (c : Callback T) (d : Db)
  : list string * (Thrown + T) * Db :=
  match c with
  | Return result => ([], inr result, d)
  | Throw e => ([], inl e, d)
  | Query text_ params next =>
      let (r, d') := exec text_ params d in
      let '(statements, end_, d'') := script (next r) d' in
      (text_ :: statements, end_, d'')
  end.

(** The error that leaves the [catch] clause entered with [e] on the
    server [d]: the one of [ROLLBACK] when that statement fails. *)
Definition afterRollback (e : Thrown) (d : Db) : Thrown :=
  match fst (exec "ROLLBACK" [] d) with
  | inl e' => e'
  | inr _ => e
  end.

End Pool.

Arguments Return {Row Param T}.
Arguments Throw {Row Param T}.
Arguments Query {Row Param T}.

(** A server for the worked runs: it holds the statements it
    accepted, and rejects the statement [boom]. *)
Definition toyExec (text_ : string) (params : list unit) (d : list string)
  : (Thrown + list nat) * list string :=
  if text_ =? "boom" then (inl (ErrorWith "syntax error"), d)
  else (inr [List.length d], (d ++ [text_])%list).

Definition emptyPool : Pool (list string) :=
  {| db := []; checkedOut := 0; sent := [] |}.

(** A callback that sends two statements and gives up on the first
    rejection. *)
Definition twoStatements (first second : string)
  : Callback nat unit nat :=
  Query first [] (fun r =>
    match r with
    | inl e => Throw e
    | inr _ =>
        Query second [] (fun r' =>
          match r' with
          | inl e => Throw e
          | inr rows => Return (List.length rows)
          end)
    end).

End Pg.

(* ================================================================== *)
(** * Properties of the user store *)
(* ================================================================== *)

Section UserStoreFacts.

Import UserStore.

Lemma state_eta (s : UserState) :
  {| user := user s; isAuthenticated := isAuthenticated s;
     isLoading := isLoading s; error := error s |} = s.
Proof. destruct s; reflexivity. Qed.

(** C9.  While nobody is logged in, [updateUser] and
    [updatePreferences] change nothing at all, whatever they are
    given: [user] stays null and the three other cells keep their
    values. *)
Theorem updates_without_user_change_nothing
  (s : UserState) (updates : PartialUser) (prefs : PartialPreferences)
  (now : Date) :
  user s = None ->
  updateUser updates now s = s /\ updatePreferences prefs now s = s.
Proof.
  intros Hnone. unfold updateUser, updatePreferences.
  rewrite Hnone, <- Hnone. split; apply state_eta.
Qed.

Lemma updates_without_user_witness :
  user initial = None /\
  updateUser (mkPartialUser None None (Some "bob") None None None None None)
    1700000000000%Z initial = initial /\
  updatePreferences (mkPartialPreferences (Some dark) None None None)
    1700000000000%Z initial = initial.
Proof.
  split; [reflexivity|].
  apply (updates_without_user_change_nothing initial); reflexivity.
Defined.

Lemma or_else_nonempty (o : option string) (d : string) :
  d <> "" -> or_else o d <> "".
Proof.
  intros Hd. destruct o as [m|]; simpl; [|exact Hd].
  destruct (String.eqb_spec m ""); [exact Hd | assumption].
Qed.

(** The settled half alone: whatever happened to the store while the
    request was under way, the failure branch writes [error] and
    [isLoading] and nothing else. *)
Lemma loginSettled_failure_frame (b : ErrorBody) (s : UserState) :
  let s' := fst (loginSettled (NotOk b) s) in
  user s' = user s /\ isAuthenticated s' = isAuthenticated s /\
  isLoading s' = false /\ error s' = Some (loginFailureText b).
Proof. destruct b as [[m|]|m|t]; repeat split. Qed.

(** The text is empty in two cases only. *)
Lemma loginFailureText_empty (b : ErrorBody) :
  loginFailureText b = "" <->
  b = BodyTruthy "" \/ b = BodyRejects (ErrorWith "").
Proof.
  split.
  - destruct b as [[m|]|m|t]; simpl; intros H.
    + right. rewrite H. reflexivity.
    + discriminate H.
    + destruct (or_else_nonempty m "Login failed"); [discriminate | exact H].
    + left. rewrite H. reflexivity.
  - intros [->| ->]; reflexivity.
Qed.

(** C6, as stated, fails: a 401 whose body is [{"message": []}].  The
    array is truthy, so that the fallback is not taken, and
    [new Error([])] has the empty message: [error] is set, to the
    empty string. *)
Lemma login_failure_with_empty_error :
  let s' := fst (login rejectingWithArray "u@x.com" "badpass" initial) in
  error s' = Some "" /\
  isLoading s' = false /\ user s' = None /\
  ~ (exists m, error s' = Some m /\ m <> "").
Proof.
  repeat split. intros (m & [= <-] & Hm). apply Hm. reflexivity.
Qed.

(** C6.  A [login] answered with a status that is not a success
    leaves [error] set to a text: the [message] of the body when that
    is a string that is not empty, ["Login failed"] when the body has
    no message or a falsy one, the text of the message when it is
    another truthy value, and the text of the failure when the body
    cannot be read.  The text is empty only for a truthy message of
    empty text (the array [[]]) and for a failure of empty message.
    [isLoading] is left at false and [user] as it was; the error goes
    on to the caller. *)
Theorem login_failure_sets_error
  (fetch : Request -> FetchResult (option UserPayload))
  (email_ password_ : string) (s : UserState) (b : ErrorBody) :
  fetch {| url := "/api/auth/login"; method := "POST";
           body := [("email", email_); ("password", password_)] |}
    = NotOk b ->
  let s' := fst (login fetch email_ password_ s) in
  error s' = Some (loginFailureText b) /\
  (loginFailureText b = "" <->
   b = BodyTruthy "" \/ b = BodyRejects (ErrorWith "")) /\
  isLoading s' = false /\
  user s' = user s /\
  isAuthenticated s' = isAuthenticated s /\
  snd (login fetch email_ password_ s)
    = Threw (notOkThrows "Login failed" b).
Proof.
  intros Hfetch. unfold login. rewrite Hfetch.
  destruct (loginSettled_failure_frame b (begin s)) as (Hu & Ha & Hl & He).
  split; [assumption|]. split; [apply loginFailureText_empty|].
  repeat split; assumption.
Qed.

Lemma login_failure_witness :
  let s' := fst (login rejecting "u@x.com" "badpass" initial) in
  error s' = Some "Invalid email or password" /\
  isLoading s' = false /\ user s' = None.
Proof.
  destruct (login_failure_sets_error rejecting "u@x.com" "badpass" initial
              (BodyJson (Some "Invalid email or password")))
    as (He & _ & Hl & Hu & _); [reflexivity |].
  repeat split; assumption.
Defined.

(** What [signup] does with every successful answer. *)
Lemma signup_success
  (fetch : Request -> FetchResult (option UserPayload))
  (email_ password_ username_ : string) (s : UserState) (u : UserPayload) :
  fetch {| url := "/api/auth/signup"; method := "POST";
           body := [("email", email_); ("password", password_);
                    ("username", username_)] |} = Ok (Some u) ->
  signup fetch email_ password_ username_ s
    = ({| user := Some (complete u defaultPreferences);
          isAuthenticated := true; isLoading := false; error := None |},
       Returned).
Proof. intros H. unfold signup. rewrite H. reflexivity. Qed.

(** C4.  [signup] on an answer that carries preferences: the user is
    stored with [isAuthenticated] true and [isLoading] false, but
    under the default preferences; those of the backend are lost,
    where [login] on the same answer keeps them. *)
Theorem signup_overwrites_backend_preferences :
  let s' := fst (signup answeringBob "u@x.com" "Aa1!aaaa" "bob" initial) in
  option_map username (user s') = Some (Some "bob") /\
  isAuthenticated s' = true /\ isLoading s' = false /\
  option_map preferences (user s') = Some defaultPreferences /\
  option_map preferences (user s') <> payload_preferences bob /\
  option_map preferences
    (user (fst (login answeringBob "u@x.com" "Aa1!aaaa" initial)))
    = payload_preferences bob.
Proof. repeat split; discriminate. Qed.

End UserStoreFacts.

(* ================================================================== *)
(** * Properties of the chain store *)
(* ================================================================== *)

Section ChainStoreFacts.

Import ChainStore.

(** C10.  [disconnectWallet] puts the wallet back to
    [initialWalletState] (disconnected, no address, no chain, no ENS
    name or avatar, a balance of zero) and [currentChain] to null;
    the transaction log, its pending view, the two interface flags
    and the list of supported chains are exactly what they were. *)
Theorem disconnectWallet_resets_wallet_only (s : ChainState) :
  let s' := disconnectWallet s in
  wallet s' = initialWalletState /\
  wallet s' = mkWallet disconnected None None 0 None None /\
  currentChain s' = None /\
  transactions s' = transactions s /\
  pendingTransactions s' = pendingTransactions s /\
  isWalletModalOpen s' = isWalletModalOpen s /\
  isChainSwitching s' = isChainSwitching s /\
  supportedChains s' = supportedChains s.
Proof. repeat split. Qed.

Lemma disconnectWallet_idempotent (s : ChainState) :
  disconnectWallet (disconnectWallet s) = disconnectWallet s.
Proof. reflexivity. Qed.

Lemma partialize_nil (s : ChainState) :
  partialize s = [] <-> transactions s = [].
Proof.
  unfold partialize. destruct (transactions s); simpl; split;
    try reflexivity; discriminate.
Qed.

Lemma persisted_logged (setItem : Completion) (s : ChainState) :
  transactions s <> [] ->
  persisted (LocalStorage setItem) s = Threw bigIntError.
Proof.
  intros H. unfold persisted, partialize.
  destruct (transactions s); [contradiction | reflexivity].
Qed.

(** What [switchChain] does when every write of the middleware goes
    through: the flag is raised before the wait; when the switch
    succeeds, [wallet.chainId] and [currentChain] take the new chain
    and the flag is lowered; when it fails, the flag is lowered, the
    error is thrown on to the caller, and the store is otherwise the
    one of before the call. *)
Lemma switchChain_when_writes_return
  (st : Storage) (c : SupportedChainId) (o : Settled) (s : ChainState) :
  persisted st (switchChainBegin c s) = Returned ->
  isChainSwitching (switchChainBegin c s) = true /\
  match o with
  | Fulfilled =>
      let s' := fst (switchChain st c o s) in
      chainId (wallet s') = Some c /\
      currentChain s' = Some (SUPPORTED_CHAINS c) /\
      id (SUPPORTED_CHAINS c) = c /\
      isChainSwitching s' = false /\
      snd (switchChain st c o s) = Returned
  | RejectedWith e =>
      let s' := fst (switchChain st c o s) in
      isChainSwitching s' = false /\
      snd (switchChain st c o s) = Threw e /\
      chainId (wallet s') = chainId (wallet s) /\
      currentChain s' = currentChain s /\
      s' = withChainSwitching false s
  end.
Proof.
  intros H. split; [reflexivity|].
  assert (H1 : forall s1, transactions s1 = transactions s ->
                          persisted st s1 = Returned).
  { intros s1 E. unfold persisted, partialize in *. cbn in H.
    rewrite E. exact H. }
  unfold switchChain. rewrite H. unfold switchChainResumed, thrownAfterSet.
  destruct o as [|e]; cbn [fst snd switchChainSettled];
    rewrite H1 by reflexivity; destruct c; repeat split.
Qed.

(** With a transaction in the log and [localStorage] at hand, the
    first [set] of [switchChain] replaces the state and throws: the
    action ends there, whatever the switch would have done. *)
Lemma switchChain_with_logged_transaction
  (setItem : Completion) (c : SupportedChainId) (o : Settled)
  (s : ChainState) :
  transactions s <> [] ->
  switchChain (LocalStorage setItem) c o s
  = (switchChainBegin c s, Threw bigIntError).
Proof.
  intros H. unfold switchChain.
  rewrite (persisted_logged setItem (switchChainBegin c s) H). reflexivity.
Qed.

(** [connectWallet] has the same shape: with a transaction in the
    log its first [set] throws, and the wallet stays at
    [connecting]. *)
Lemma connectWallet_with_logged_transaction
  (setItem : Completion) (connectorId : string) (o : Settled)
  (s : ChainState) :
  transactions s <> [] ->
  connectWallet (LocalStorage setItem) connectorId o s
  = (connectWalletBegin connectorId s, Threw bigIntError) /\
  status (wallet (fst (connectWallet (LocalStorage setItem) connectorId o s)))
  = connecting.
Proof.
  intros H. unfold connectWallet.
  rewrite (persisted_logged setItem (connectWalletBegin connectorId s) H).
  split; reflexivity.
Qed.

(** C8.  In a browser, on a store whose log holds one transaction,
    [switchChain(137)]: [set({ isChainSwitching: true })] replaces the
    state, the middleware then throws on the bigint of the
    transaction, and this [set] is outside the [try] block.  The call
    rejects with that [TypeError], whether the switch would have
    succeeded or failed: the flag stays raised, and [wallet.chainId]
    and [currentChain] are not updated. *)
Theorem switchChain_leaves_flag_raised :
  let logged := addTransaction tx1 initial in
  let succeeding := switchChain (LocalStorage Returned) chain137 Fulfilled
                      logged in
  let failing := switchChain (LocalStorage Returned) chain137
                   (RejectedWith (ErrorWith "User rejected the request"))
                   logged in
  snd succeeding = Threw bigIntError /\
  isChainSwitching (fst succeeding) = true /\
  chainId (wallet (fst succeeding)) = None /\
  currentChain (fst succeeding) = None /\
  snd failing = Threw bigIntError /\
  isChainSwitching (fst failing) = true /\
  isChainSwitching logged = false.
Proof. repeat split. Qed.

(** The failure branch by itself, for a store that other actions
    touched during the wait: only the flag is written. *)
Lemma switchChainSettled_failure_frame
  (c : SupportedChainId) (e : Thrown) (s : ChainState) :
  let s' := fst (switchChainSettled c (RejectedWith e) s) in
  wallet s' = wallet s /\ currentChain s' = currentChain s /\
  transactions s' = transactions s /\
  pendingTransactions s' = pendingTransactions s /\
  isChainSwitching s' = false.
Proof. repeat split. Qed.

(** *** The pending view *)









(** *** The wallet address *)

(** C5, as stated, fails: one call of the setter [setWalletAddress] on
    the initial store gives a wallet that is disconnected and holds an
    address. *)
Lemma address_without_connection :
  let s := run [SetWalletAddress (Some mockAddress)] initial in
  status (wallet s) = disconnected /\
  address (wallet s) = Some mockAddress /\
  ~ addressOnlyConnected s.
Proof.
  repeat split. intros H. discriminate H. discriminate.
Qed.

(** The failure branch of [connectWallet] breaks it as well, when the
    call was made on a connected wallet. *)
Lemma address_after_failed_reconnect (e : Thrown) :
  let s := run [ConnectWalletBegin "metamask"; ConnectWalletSettled Fulfilled;
                ConnectWalletBegin "metamask";
                ConnectWalletSettled (RejectedWith e)] initial in
  status (wallet s) = error /\ address (wallet s) = Some mockAddress.
Proof. split; reflexivity. Qed.

Lemma isNone_true {A : Type} (o : option A) : isNone o = true -> o = None.
Proof. destruct o; [discriminate | reflexivity]. Qed.

Lemma isConnected_true (st : WalletStatus) :
  isConnected st = true -> st = connected.
Proof. destruct st; try discriminate; reflexivity. Qed.

Lemma act_addressOnlyConnected (a : Action) (s : ChainState) :
  careful a s = true ->
  addressOnlyConnected s -> addressOnlyConnected (act a s).
Proof.
  unfold addressOnlyConnected.
  destruct a as [st|ad|c|b|n|av|k|o| |c|c o|tx|h u| |b]; simpl;
    intros Hc Hs; try exact Hs.
  - apply orb_true_iff in Hc as [Hc|Hc].
    + apply isConnected_true in Hc. intros Hst. contradiction.
    + intros _. apply isNone_true, Hc.
  - apply orb_true_iff in Hc as [Hc|Hc].
    + intros _. apply isNone_true, Hc.
    + apply isConnected_true in Hc. intros Hst. contradiction.
  - intros _. apply isNone_true, Hc.
  - destruct o as [|e]; simpl.
    + intros Hst. exfalso. apply Hst. reflexivity.
    + intros _. apply isNone_true, Hc.
  - intros _. reflexivity.
  - destruct o; exact Hs.
Qed.

(** C5, amended.  Along every run from the initial store in which the
    two setters [setWalletStatus] and [setWalletAddress] and the start
    and the failure of [connectWallet] are used as [careful] says,
    every state a subscriber sees has no address unless its status is
    connected.  [disconnectWallet], [switchChain], the other setters
    and the transaction and modal actions are free. *)
Theorem address_only_when_connected (l : list Action) (s : ChainState) :
  addressOnlyConnected s ->
  carefulRun l s = true ->
  Forall addressOnlyConnected (observed l s).
Proof.
  revert s. induction l as [|a l IH]; intros s Hs Hl; simpl.
  - constructor.
  - simpl in Hl. apply andb_true_iff in Hl as [Ha Hl].
    pose proof (act_addressOnlyConnected a s Ha Hs) as Hs'.
    constructor; [exact Hs' | apply IH; assumption].
Qed.

Lemma initial_addressOnlyConnected : addressOnlyConnected initial.
Proof. intros _. reflexivity. Qed.

Lemma address_only_when_connected_witness :
  Forall addressOnlyConnected
    (observed
       [ConnectWalletBegin "metamask";
        ConnectWalletSettled (RejectedWith (ErrorWith "User rejected"));
        ConnectWalletBegin "metamask"; ConnectWalletSettled Fulfilled;
        SwitchChainBegin chain137; SwitchChainSettled chain137 Fulfilled;
        SetWalletAddress (Some mockAddress); SetWalletStatus connected;
        DisconnectWallet; SetWalletStatus error]
       initial).
Proof.
  apply address_only_when_connected;
    [intros _; reflexivity | reflexivity].
Defined.

End ChainStoreFacts.

(* ================================================================== *)
(** * Properties of the streaming conversation *)
(* ================================================================== *)

Section AIHookFacts.

Import AIHook.

Variable JSON_parse : string -> Parsed.
Variable config_model : string.

Local Abbreviation payload := (AIHook.payload JSON_parse).
Local Abbreviation contentLine := (AIHook.contentLine JSON_parse).
Local Abbreviation contentOf := (AIHook.contentOf JSON_parse).
Local Abbreviation assistantMessage := (AIHook.assistantMessage config_model).

Lemma append_nil_r (s : string) : s ++ "" = s.
Proof. induction s as [|c s IH]; simpl; [|rewrite IH]; reflexivity. Qed.

Lemma append_assoc (a b c : string) : (a ++ b) ++ c = a ++ (b ++ c).
Proof. induction a as [|x a IH]; simpl; [|rewrite IH]; reflexivity. Qed.

Lemma consumeLine_fst (st : string * string) (line : string) :
  fst (consumeLine JSON_parse st line) = fst st ++ payload line.
Proof.
  unfold consumeLine, AIHook.payload.
  destruct (startsWith "data: " line); [|now rewrite append_nil_r].
  destruct (slice 6 line =? "[DONE]"); [now rewrite append_nil_r|].
  destruct (JSON_parse (slice 6 line)) as [|parsed]; [reflexivity|].
  destruct (truthy (chunk_content parsed)), (truthy (chunk_error parsed));
    simpl; rewrite ?append_assoc, ?append_nil_r; reflexivity.
Qed.

Lemma fold_consumeLine_fst (lines : list string) (st : string * string) :
  fst (fold_left (consumeLine JSON_parse) lines st)
  = fst st ++ joined (map payload lines).
Proof.
  revert st. induction lines as [|line lines IH]; intros st; simpl.
  - now rewrite append_nil_r.
  - rewrite IH, consumeLine_fst, append_assoc. reflexivity.
Qed.

(** The loop body is the concatenation of the payloads of its lines. *)
Lemma consumeChunk_fst (chunk : string) (st : string * string) :
  fst (consumeChunk JSON_parse chunk st)
  = fst st ++ joined (map payload (linesOf chunk)).
Proof. apply fold_consumeLine_fst. Qed.

Lemma joined_app (l1 l2 : list string) :
  joined (l1 ++ l2) = joined l1 ++ joined l2.
Proof.
  induction l1 as [|x l1 IH]; simpl; [reflexivity|].
  rewrite IH, append_assoc. reflexivity.
Qed.

(** *** Calls in flight *)

Lemma find_setPhase (k : Controller) (p : Phase) (l : list Call) (c : Call) :
  find (fun c => Nat.eqb (controller c) k) l = Some c ->
  find (fun c => Nat.eqb (controller c) k) (setPhase k p l)
  = Some {| controller := k; phase := p |}.
Proof.
  induction l as [|a l IH]; simpl; [discriminate|].
  destruct (Nat.eqb (controller a) k) eqn:Ha; simpl.
  - intros _. rewrite Nat.eqb_refl. reflexivity.
  - rewrite Ha. exact IH.
Qed.

Lemma find_app_none {A : Type} (f : A -> bool) (l l' : list A) :
  find f l = None -> find f (l ++ l') = find f l'.
Proof.
  induction l as [|a l IH]; simpl; [reflexivity|].
  destruct (f a); [discriminate | exact IH].
Qed.

Lemma find_app_some {A : Type} (f : A -> bool) (l l' : list A) (x : A) :
  find f l = Some x -> find f (l ++ l') = Some x.
Proof.
  induction l as [|a l IH]; simpl; [discriminate|].
  destruct (f a); [trivial | exact IH].
Qed.

Lemma step_ReadChunk (h : Hook) (k : Controller) (full chunk : string) :
  phaseOf k h = Some (Reading full) ->
  isAborted k h = false ->
  step JSON_parse config_model (ReadChunk k chunk) h
  = Some (readChunk JSON_parse k full chunk h).
Proof.
  unfold phaseOf. simpl. destruct (callOf k h) as [[k' p]|]; simpl; [|discriminate].
  intros [= ->] ->. reflexivity.
Qed.

Lemma step_ReadDone (h : Hook) (k : Controller) (full newId : string)
  (now : Date) :
  phaseOf k h = Some (Reading full) ->
  isAborted k h = false ->
  step JSON_parse config_model (ReadDone k newId now) h
  = Some (readDone config_model k full newId now h).
Proof.
  unfold phaseOf. simpl. destruct (callOf k h) as [[k' p]|]; simpl; [|discriminate].
  intros [= ->] ->. reflexivity.
Qed.

Lemma step_FetchSettled (h : Hook) (k : Controller) (r : FetchResult) :
  phaseOf k h = Some Fetching ->
  isAborted k h = false ->
  step JSON_parse config_model (FetchSettled k r) h
  = Some (fetchSettled k r h).
Proof.
  unfold phaseOf. simpl. destruct (callOf k h) as [[k' p]|]; simpl; [|discriminate].
  intros [= ->] ->. reflexivity.
Qed.

Lemma phaseOf_readChunk (h : Hook) (k : Controller) (p : Phase)
  (full chunk : string) :
  phaseOf k h = Some p ->
  phaseOf k (readChunk JSON_parse k full chunk h)
  = Some (Reading (fst (consumeChunk JSON_parse chunk
                          (full, currentResponse h)))).
Proof.
  unfold phaseOf, callOf. simpl.
  destruct (find _ (calls h)) as [c|] eqn:Hc; [|discriminate].
  intros _. rewrite (find_setPhase k _ _ c Hc). reflexivity.
Qed.

Lemma run_app (evs1 evs2 : list Event) (h h1 : Hook) :
  run JSON_parse config_model evs1 h = Some h1 ->
  run JSON_parse config_model (evs1 ++ evs2) h
  = run JSON_parse config_model evs2 h1.
Proof.
  revert h. induction evs1 as [|ev evs1 IH]; simpl; intros h.
  - intros [= ->]. reflexivity.
  - destruct (step JSON_parse config_model ev h); [apply IH | discriminate].
Qed.

Lemma find_setPhase_other (k k' : Controller) (p : Phase) (l : list Call) :
  k' <> k ->
  find (fun c => Nat.eqb (controller c) k') (setPhase k p l)
  = find (fun c => Nat.eqb (controller c) k') l.
Proof.
  intros Hne. induction l as [|a l IH]; simpl; [reflexivity|].
  destruct (Nat.eqb_spec (controller a) k) as [E|E]; simpl.
  - destruct (Nat.eqb_spec k k'); [congruence|].
    destruct (Nat.eqb_spec (controller a) k'); [congruence | exact IH].
  - rewrite IH. reflexivity.
Qed.

Lemma find_dropCall_other (k k' : Controller) (l : list Call) :
  k' <> k ->
  find (fun c => Nat.eqb (controller c) k') (dropCall k l)
  = find (fun c => Nat.eqb (controller c) k') l.
Proof.
  intros Hne. induction l as [|a l IH]; simpl; [reflexivity|].
  destruct (Nat.eqb_spec (controller a) k) as [E|E]; simpl.
  - destruct (Nat.eqb_spec (controller a) k'); [congruence | exact IH].
  - rewrite IH. reflexivity.
Qed.

Lemma elsewhere_refl (k : Controller) (h : Hook) : elsewhere k h h.
Proof. repeat split. Qed.

Lemma elsewhere_trans (k : Controller) (h1 h2 h3 : Hook) :
  elsewhere k h1 h2 -> elsewhere k h2 h3 -> elsewhere k h1 h3.
Proof.
  intros (A1 & N1 & P1) (A2 & N2 & P2). repeat split; try congruence.
  intros k' Hk. rewrite (P2 k' Hk). apply P1, Hk.
Qed.

Lemma elsewhere_setPhase (k : Controller) (p : Phase) (h h' : Hook) :
  aborted h' = aborted h ->
  nextController h' = nextController h ->
  calls h' = setPhase k p (calls h) ->
  elsewhere k h h'.
Proof.
  intros A N C. repeat split; try assumption.
  intros k' Hk. unfold phaseOf, callOf. rewrite C.
  rewrite find_setPhase_other by exact Hk. reflexivity.
Qed.

Lemma elsewhere_finally (k : Controller) (h : Hook) :
  elsewhere k h (finally k h).
Proof.
  repeat split. intros k' Hk. unfold phaseOf, callOf. simpl.
  rewrite find_dropCall_other by exact Hk. reflexivity.
Qed.

Lemma isAborted_elsewhere (k k' : Controller) (h h' : Hook) :
  elsewhere k h h' -> isAborted k' h' = isAborted k' h.
Proof. intros (A & _). unfold isAborted. rewrite A. reflexivity. Qed.

(** The reads of one stream, with nothing else happening between
    them: the call goes on reading, and its [fullResponse] has grown by
    the payloads of the lines of each read, in the order of arrival. *)
Lemma reads_accumulate (chunks : list string) (h : Hook) (k : Controller)
  (full : string) :
  phaseOf k h = Some (Reading full) ->
  isAborted k h = false ->
  exists h',
    run JSON_parse config_model (map (ReadChunk k) chunks) h = Some h' /\
    phaseOf k h'
    = Some (Reading (full ++ joined (map payload (flat_map linesOf chunks)))) /\
    isAborted k h' = false /\
    messages h' = messages h /\ error h' = error h /\
    elsewhere k h h'.
Proof.
  revert h full. induction chunks as [|chunk chunks IH]; intros h full Hp Ha.
  - exists h. simpl. rewrite append_nil_r.
    pose proof (elsewhere_refl k h). auto 10.
  - cbn [map run flat_map]. rewrite (step_ReadChunk h k full chunk Hp Ha).
    destruct (IH (readChunk JSON_parse k full chunk h)
                (fst (consumeChunk JSON_parse chunk (full, currentResponse h))))
      as (h' & Hrun & Hp' & Ha' & Hm & He & Hel).
    + eapply phaseOf_readChunk, Hp.
    + exact Ha.
    + assert (Hel1 : elsewhere k h h').
      { eapply elsewhere_trans; [|exact Hel].
        apply (elsewhere_setPhase k
                 (Reading (fst (consumeChunk JSON_parse chunk
                                  (full, currentResponse h)))));
          reflexivity. }
      exists h'. rewrite Hrun, Hp', consumeChunk_fst, map_app, joined_app.
      simpl. rewrite append_assoc. auto 10.
Qed.

(** A stream from its answer to its end: the log gains one assistant
    message, made of the payloads of all its lines; the error cell,
    the other calls and the aborted controllers are left alone. *)
Lemma stream_completes (h : Hook) (k : Controller) (statusText : string)
  (chunks : list string) (newId : string) (now : Date) :
  phaseOf k h = Some Fetching ->
  isAborted k h = false ->
  exists h',
    run JSON_parse config_model
      (FetchSettled k (Response true statusText true)
       :: (map (ReadChunk k) chunks ++ [ReadDone k newId now])%list) h
    = Some h' /\
    messages h'
    = (messages h
       ++ [assistantMessage
             (joined (map payload (flat_map linesOf chunks))) newId now])%list /\
    error h' = error h /\ currentResponse h' = "" /\
    elsewhere k h h'.
Proof.
  intros Hp Ha.
  set (h2 := fetchSettled k (Response true statusText true) h).
  assert (Hp2 : phaseOf k h2 = Some (Reading "")).
  { unfold phaseOf, callOf in Hp |- *. simpl.
    destruct (find _ (calls h)) as [c|] eqn:F; [|discriminate].
    rewrite (find_setPhase k _ _ c F). reflexivity. }
  assert (Hel2 : elsewhere k h h2)
    by (apply (elsewhere_setPhase k (Reading "")); reflexivity).
  destruct (reads_accumulate chunks h2 k "" Hp2 Ha)
    as (h3 & Hrun & Hp3 & Ha3 & Hm3 & He3 & Hel3).
  exists (readDone config_model k
            (joined (map payload (flat_map linesOf chunks))) newId now h3).
  repeat split.
  - cbn [run]. rewrite (step_FetchSettled h k _ Hp Ha).
    fold h2. rewrite (run_app _ _ _ _ Hrun). cbn [run].
    rewrite (step_ReadDone h3 k _ newId now Hp3 Ha3). reflexivity.
  - simpl. rewrite Hm3. reflexivity.
  - simpl. rewrite He3. reflexivity.
  - destruct Hel2 as (A2 & _), Hel3 as (A3 & _). simpl. congruence.
  - destruct Hel2 as (_ & N2 & _), Hel3 as (_ & N3 & _). simpl. congruence.
  - intros k' Hk. destruct Hel2 as (_ & _ & P2), Hel3 as (_ & _ & P3).
    rewrite <- (P2 k' Hk), <- (P3 k' Hk).
    unfold phaseOf, callOf. simpl.
    rewrite find_dropCall_other by exact Hk. reflexivity.
Qed.

(** *** Controllers are fresh *)

Lemma initial_wellFormed : wellFormed initial.
Proof. repeat split; try constructor. discriminate. Qed.

Lemma Forall_dropCall (P : Call -> Prop) (k : Controller) (l : list Call) :
  Forall P l -> Forall P (dropCall k l).
Proof.
  intros H. apply Forall_forall. intros c Hc.
  apply filter_In in Hc as [Hc _]. revert c Hc. apply Forall_forall, H.
Qed.

Lemma Forall_setPhase (n : nat) (k : Controller) (p : Phase)
  (l : list Call) :
  Forall (fun c => controller c < n) l ->
  Forall (fun c => controller c < n) (setPhase k p l).
Proof.
  intros H. induction H as [|c l Hc _ IH]; simpl; constructor; [|exact IH].
  destruct (Nat.eqb (controller c) k) eqn:E; [|exact Hc].
  apply Nat.eqb_eq in E. simpl. rewrite <- E. exact Hc.
Qed.

Lemma finally_wellFormed (k : Controller) (h : Hook) :
  wellFormed h -> wellFormed (finally k h).
Proof.
  intros (Hc & Ha & _). repeat split; simpl;
    [apply Forall_dropCall, Hc | exact Ha | discriminate].
Qed.

Lemma fail_wellFormed (k : Controller) (c : Caught) (h : Hook) :
  wellFormed h -> wellFormed (fail k c h).
Proof. intros H. apply finally_wellFormed. exact H. Qed.

Lemma sendMessage_wellFormed (content_ newId : string) (now : Date)
  (h : Hook) :
  wellFormed h -> wellFormed (sendMessage content_ newId now h).
Proof.
  intros (Hc & Ha & Hr). unfold sendMessage.
  destruct (trim content_ =? ""); [repeat split; assumption|].
  repeat split; simpl.
  - apply Forall_app. split.
    + eapply Forall_impl; [|exact Hc]. simpl. intros; lia.
    + repeat constructor.
  - eapply Forall_impl; [|exact Ha]. simpl. intros; lia.
  - intros k [= <-]. lia.
Qed.

(** [regenerateLastResponse] returns at once, or cuts the log and
    sends. *)
Lemma regenerate_cases (snapshot : list AIMessage) (newId : string)
  (now : Date) (h : Hook) :
  regenerateLastResponse snapshot newId now h = h \/
  exists content_ n,
    regenerateLastResponse snapshot newId now h
    = sendMessage content_ newId now
        (withMessages (firstn n (messages h)) h).
Proof.
  unfold regenerateLastResponse.
  destruct (length snapshot <? 2)%nat; [left; reflexivity|].
  destruct (findLastIndex isUser snapshot) as [n|]; [|left; reflexivity].
  destruct (nth_error snapshot n) as [m|]; [|left; reflexivity].
  right. exists (content m), n. reflexivity.
Qed.

Lemma regenerate_wellFormed (snapshot : list AIMessage) (newId : string)
  (now : Date) (h : Hook) :
  wellFormed h -> wellFormed (regenerateLastResponse snapshot newId now h).
Proof.
  intros Hw.
  destruct (regenerate_cases snapshot newId now h) as [->|(c & n & ->)];
    [exact Hw|].
  apply sendMessage_wellFormed. exact Hw.
Qed.

Lemma step_wellFormed (ev : Event) (h h' : Hook) :
  wellFormed h ->
  step JSON_parse config_model ev h = Some h' ->
  wellFormed h'.
Proof.
  intros Hw. pose proof Hw as (Hc & Ha & Hr).
  destruct ev as [c i t| | |sn i t|k r|k chunk|k i t|k e|k]; simpl; intros H.
  - injection H as <-. apply sendMessage_wellFormed, Hw.
  - injection H as <-. exact Hw.
  - injection H as <-. unfold stopStreaming.
    destruct (abortControllerRef h) as [k|] eqn:E; [|exact Hw].
    repeat split; simpl; [exact Hc | | discriminate].
    constructor; [apply Hr; reflexivity | exact Ha].
  - injection H as <-. apply regenerate_wellFormed, Hw.
  - ran k h H.
    destruct r as [e|[] st []]; simpl;
      try (apply fail_wellFormed, Hw); try (apply finally_wellFormed, Hw).
    repeat split; simpl; [apply Forall_setPhase, Hc | exact Ha | exact Hr].
  - ran k h H.
    repeat split; simpl; [apply Forall_setPhase, Hc | exact Ha | exact Hr].
  - ran k h H. unfold readDone. apply finally_wellFormed.
    repeat split; simpl; assumption.
  - ran k h H. apply fail_wellFormed, Hw.
  - destruct (callOf k h); [|discriminate].
    destruct (isAborted k h); [|discriminate].
    injection H as <-. apply fail_wellFormed, Hw.
Qed.

(** Every state the event loop reaches from the initial hook is well
    formed. *)
Lemma run_wellFormed (evs : list Event) (h h' : Hook) :
  wellFormed h ->
  run JSON_parse config_model evs h = Some h' ->
  wellFormed h'.
Proof.
  revert h. induction evs as [|ev evs IH]; simpl; intros h Hw.
  - intros [= <-]. exact Hw.
  - destruct (step JSON_parse config_model ev h) as [h1|] eqn:E;
      [|discriminate].
    apply IH. eapply step_wellFormed; eassumption.
Qed.

Lemma wellFormed_fresh (h : Hook) :
  wellFormed h ->
  phaseOf (nextController h) h = None /\
  isAborted (nextController h) h = false.
Proof.
  intros (Hc & Ha & _). unfold phaseOf, callOf, isAborted. split.
  - induction Hc as [|c l Hlt _ IH]; simpl; [reflexivity|].
    destruct (Nat.eqb_spec (controller c) (nextController h)); [lia|exact IH].
  - induction Ha as [|k l Hlt _ IH]; simpl; [reflexivity|].
    destruct (Nat.eqb_spec (nextController h) k); [lia|exact IH].
Qed.

(** *** One turn *)

(** What [sendMessage] does to a well-formed hook when it is given
    something to send. *)
Lemma sendMessage_starts_call (h : Hook) (content_ newId : string)
  (now : Date) :
  wellFormed h ->
  trim content_ <> "" ->
  let h1 := sendMessage content_ newId now h in
  phaseOf (nextController h) h1 = Some Fetching /\
  isAborted (nextController h) h1 = false /\
  messages h1 = (messages h ++ [userMessage content_ newId now])%list /\
  error h1 = None /\
  nextController h1 = S (nextController h) /\
  aborted h1 = aborted h /\
  forall k p, phaseOf k h = Some p -> phaseOf k h1 = Some p.
Proof.
  intros Hw Hc. destruct (wellFormed_fresh h Hw) as [Hnone Hlive].
  assert (E : (trim content_ =? "") = false) by (apply String.eqb_neq, Hc).
  unfold sendMessage. rewrite E. cbv zeta.
  repeat split; try exact Hlive.
  - unfold phaseOf, callOf in *. simpl.
    destruct (find _ (calls h)) eqn:F; [discriminate|].
    rewrite find_app_none by exact F. simpl.
    rewrite Nat.eqb_refl. reflexivity.
  - intros k p. unfold phaseOf, callOf. simpl.
    destruct (find _ (calls h)) as [c|] eqn:F; [|discriminate].
    rewrite (find_app_some _ _ _ c F). trivial.
Qed.

(** A turn that nothing interrupts: the message is sent, the answer
    comes with a body, the reads bring [chunks] and the stream ends.
    The log gains the user message and one assistant message, made of
    the payloads of all the lines in the order of arrival, and no
    error is set. *)
Theorem turn_appends_payloads
  (h : Hook) (content_ id1 : string) (t1 : Date) (statusText : string)
  (chunks : list string) (id2 : string) (t2 : Date) :
  wellFormed h ->
  trim content_ <> "" ->
  exists h',
    run JSON_parse config_model
      (SendMessage content_ id1 t1
       :: FetchSettled (nextController h) (Response true statusText true)
       :: (map (ReadChunk (nextController h)) chunks
           ++ [ReadDone (nextController h) id2 t2])%list) h = Some h' /\
    messages h'
    = (messages h
       ++ [userMessage content_ id1 t1;
           assistantMessage
             (joined (map payload (flat_map linesOf chunks))) id2 t2])%list /\
    error h' = None /\ currentResponse h' = "".
Proof.
  intros Hw Hc.
  destruct (sendMessage_starts_call h content_ id1 t1 Hw Hc)
    as (Hp1 & Ha1 & Hm1 & He1 & _).
  destruct (stream_completes _ _ statusText chunks id2 t2 Hp1 Ha1)
    as (h' & Hrun & Hm & He & Hcur & _).
  exists h'. repeat split.
  - exact Hrun.
  - rewrite Hm, Hm1, <- app_assoc. reflexivity.
  - rewrite He. exact He1.
  - exact Hcur.
Qed.

(** C1, amended.  Two turns at once, the second sent before anything
    has come back for the first: both requests are answered, the first
    stream is read to its end, then the second.  The second
    [sendMessage] cancels nothing: no controller is aborted, and the
    log gains the two user messages and two assistant messages, one
    for each turn. *)
Theorem two_turns_append_two_answers
  (h : Hook) (a b idA idB : string) (tA tB : Date)
  (statusA statusB : string) (chunksA chunksB : list string)
  (idA' idB' : string) (tA' tB' : Date) :
  wellFormed h ->
  trim a <> "" ->
  trim b <> "" ->
  let ka := nextController h in
  let kb := S (nextController h) in
  exists h',
    run JSON_parse config_model
      (SendMessage a idA tA :: SendMessage b idB tB
       :: (FetchSettled ka (Response true statusA true)
           :: map (ReadChunk ka) chunksA ++ [ReadDone ka idA' tA'])
       ++ (FetchSettled kb (Response true statusB true)
           :: map (ReadChunk kb) chunksB ++ [ReadDone kb idB' tB']))%list h
    = Some h' /\
    messages h'
    = (messages h
       ++ [userMessage a idA tA; userMessage b idB tB;
           assistantMessage
             (joined (map payload (flat_map linesOf chunksA))) idA' tA';
           assistantMessage
             (joined (map payload (flat_map linesOf chunksB))) idB' tB'])%list /\
    aborted h' = aborted h.
Proof.
  intros Hw Ha Hb ka kb.
  destruct (sendMessage_starts_call h a idA tA Hw Ha)
    as (Hp1 & Hl1 & Hm1 & _ & Hn1 & Hab1 & _).
  set (h1 := sendMessage a idA tA h) in *.
  assert (Hw1 : wellFormed h1) by (apply sendMessage_wellFormed, Hw).
  destruct (sendMessage_starts_call h1 b idB tB Hw1 Hb)
    as (Hp2 & Hl2 & Hm2 & _ & _ & Hab2 & Hkeep).
  set (h2 := sendMessage b idB tB h1) in *.
  rewrite Hn1 in Hp2, Hl2. fold kb in Hp2, Hl2. fold ka in Hp1, Hl1.
  assert (Hpa : phaseOf ka h2 = Some Fetching) by (apply Hkeep, Hp1).
  assert (Hla : isAborted ka h2 = false)
    by (unfold isAborted in *; rewrite Hab2; exact Hl1).
  destruct (stream_completes h2 ka statusA chunksA idA' tA' Hpa Hla)
    as (h3 & Hrun3 & Hm3 & _ & _ & Hel3).
  assert (Hne : kb <> ka) by (unfold ka, kb; lia).
  assert (Hpb : phaseOf kb h3 = Some Fetching).
  { destruct Hel3 as (_ & _ & P). rewrite (P kb Hne). exact Hp2. }
  assert (Hlb : isAborted kb h3 = false)
    by (rewrite (isAborted_elsewhere ka kb h2 h3 Hel3); exact Hl2).
  destruct (stream_completes h3 kb statusB chunksB idB' tB' Hpb Hlb)
    as (h4 & Hrun4 & Hm4 & _ & _ & Hel4).
  exists h4. repeat split.
  - cbn [run step]. fold h1. fold h2.
    rewrite (run_app _ _ _ _ Hrun3). exact Hrun4.
  - rewrite Hm4, Hm3, Hm2, Hm1, <- !app_assoc. reflexivity.
  - destruct Hel3 as (A3 & _), Hel4 as (A4 & _). congruence.
Qed.

(** The three kinds of line. *)
Lemma payload_without_marker (line : string) :
  startsWith "data: " line = false -> payload line = "".
Proof. unfold AIHook.payload. intros ->. reflexivity. Qed.

Lemma startsWith_marker (data : string) :
  startsWith "data: " ("data: " ++ data) = true.
Proof. unfold startsWith. simpl. destruct data; reflexivity. Qed.

Lemma payload_not_json (data : string) :
  data <> "[DONE]" ->
  JSON_parse data = Throws ->
  payload ("data: " ++ data) = data.
Proof.
  unfold AIHook.payload. rewrite startsWith_marker. cbn [slice append].
  intros Hd ->. apply String.eqb_neq in Hd. rewrite Hd. reflexivity.
Qed.

Lemma payload_sentinel : payload "data: [DONE]" = "".
Proof. reflexivity. Qed.

(** A chunk that carries no error adds its content, and only that. *)
Lemma payload_content (data : string) (parsed : AIStreamChunk) :
  data <> "[DONE]" ->
  JSON_parse data = Value parsed ->
  truthy (chunk_error parsed) = false ->
  payload ("data: " ++ data) = text (chunk_content parsed).
Proof.
  unfold AIHook.payload. rewrite startsWith_marker. cbn [slice append].
  intros Hd -> ->. apply String.eqb_neq in Hd. rewrite Hd.
  rewrite append_nil_r.
  destruct (chunk_content parsed) as [c|]; simpl; [|reflexivity].
  destruct (String.eqb_spec c ""); simpl; [subst|]; reflexivity.
Qed.

(** A chunk that carries an error is not told apart from text that is
    not JSON: its data is added to the answer, after its content, and
    the loop goes on. *)
Lemma payload_error (data : string) (parsed : AIStreamChunk) :
  data <> "[DONE]" ->
  JSON_parse data = Value parsed ->
  truthy (chunk_error parsed) = true ->
  payload ("data: " ++ data) = text (chunk_content parsed) ++ data.
Proof.
  unfold AIHook.payload. rewrite startsWith_marker. cbn [slice append].
  intros Hd -> ->. apply String.eqb_neq in Hd. rewrite Hd.
  destruct (chunk_content parsed) as [c|]; simpl; [|reflexivity].
  destruct (String.eqb_spec c ""); simpl; [subst|]; reflexivity.
Qed.

Lemma payload_contentLine (line : string) :
  contentLine line -> payload line = contentOf line.
Proof.
  intros (data & -> & [->|(parsed & Hp & He)]); [reflexivity|].
  destruct (String.eqb_spec data "[DONE]") as [->|Hd]; [reflexivity|].
  rewrite (payload_content data parsed Hd Hp He).
  unfold AIHook.contentOf. cbn [slice append]. rewrite Hp.
  apply String.eqb_neq in Hd. rewrite Hd. reflexivity.
Qed.

Lemma joined_payload_content (lines : list string) :
  Forall contentLine lines ->
  joined (map payload lines) = joined (map contentOf lines).
Proof.
  induction 1 as [|line l Hline _ IH]; simpl; [reflexivity|].
  rewrite IH, (payload_contentLine line Hline). reflexivity.
Qed.

(** When every line of every read is such a line, the assistant
    message is the contents in the order of arrival. *)
Corollary turn_concatenates_contents
  (h : Hook) (content_ id1 : string) (t1 : Date) (statusText : string)
  (chunks : list string) (id2 : string) (t2 : Date) :
  wellFormed h ->
  trim content_ <> "" ->
  Forall contentLine (flat_map linesOf chunks) ->
  exists h',
    run JSON_parse config_model
      (SendMessage content_ id1 t1
       :: FetchSettled (nextController h) (Response true statusText true)
       :: (map (ReadChunk (nextController h)) chunks
           ++ [ReadDone (nextController h) id2 t2])%list) h = Some h' /\
    messages h'
    = (messages h
       ++ [userMessage content_ id1 t1;
           assistantMessage
             (joined (map contentOf (flat_map linesOf chunks))) id2 t2])%list /\
    error h' = None.
Proof.
  intros Hw Hc Hl.
  destruct (turn_appends_payloads h content_ id1 t1 statusText chunks id2 t2
              Hw Hc) as (h' & Hrun & Hm & He & _).
  exists h'. rewrite <- (joined_payload_content _ Hl).
  repeat split; assumption.
Qed.

(** *** Two calls at once *)

(** Only [stopStreaming] aborts a controller. *)
Lemma only_stopStreaming_aborts (ev : Event) (h h' : Hook) :
  step JSON_parse config_model ev h = Some h' ->
  ev <> StopStreaming ->
  aborted h' = aborted h.
Proof.
  destruct ev as [c i t| | |sn i t|k r|k chunk|k i t|k e|k]; simpl;
    intros H Hne; try congruence.
  - injection H as <-. unfold sendMessage.
    destruct (trim c =? ""); reflexivity.
  - injection H as <-. reflexivity.
  - injection H as <-.
    destruct (regenerate_cases sn i t h) as [->|(c & n & ->)];
      [reflexivity|].
    unfold sendMessage. destruct (trim c =? ""); reflexivity.
  - ran k h H. destruct r as [e|[] st []]; reflexivity.
  - ran k h H. reflexivity.
  - ran k h H. reflexivity.
  - ran k h H. reflexivity.
  - destruct (callOf k h); [|discriminate].
    destruct (isAborted k h); [|discriminate].
    injection H as <-. reflexivity.
Qed.

(** [sendMessage] puts a new controller in the ref and aborts
    nothing: a call that was in flight is in flight after it,
    where it was and with a live signal.  If it was waiting for its
    answer, the answer can still come; if it was reading its stream,
    the end of the stream appends its assistant message after the new
    user message. *)
Theorem sendMessage_keeps_earlier_call
  (h : Hook) (k : Controller) (p : Phase) (content_ id1 : string) (t1 : Date) :
  phaseOf k h = Some p ->
  isAborted k h = false ->
  trim content_ <> "" ->
  let h1 := sendMessage content_ id1 t1 h in
  abortControllerRef h1 = Some (nextController h) /\
  aborted h1 = aborted h /\
  isAborted k h1 = false /\
  phaseOf k h1 = Some p /\
  match p with
  | Fetching =>
      forall r : FetchResult,
        step JSON_parse config_model (FetchSettled k r) h1
        = Some (fetchSettled k r h1)
  | Reading full =>
      forall (id2 : string) (t2 : Date),
      exists h2,
        step JSON_parse config_model (ReadDone k id2 t2) h1 = Some h2 /\
        messages h2
        = (messages h ++ [userMessage content_ id1 t1;
                          assistantMessage full id2 t2])%list
  end.
Proof.
  intros Hp Ha Hc h1.
  assert (E : (trim content_ =? "") = false) by (apply String.eqb_neq, Hc).
  assert (Hp1 : phaseOf k h1 = Some p).
  { unfold h1, sendMessage, phaseOf, callOf in *. rewrite E. simpl.
    destruct (find _ (calls h)) as [c|] eqn:F; [|discriminate].
    rewrite (find_app_some _ _ _ c F). exact Hp. }
  assert (Ha1 : isAborted k h1 = false)
    by (unfold h1, sendMessage; rewrite E; exact Ha).
  split; [unfold h1, sendMessage; rewrite E; reflexivity|].
  split; [unfold h1, sendMessage; rewrite E; reflexivity|].
  split; [exact Ha1|]. split; [exact Hp1|].
  destruct p as [|full].
  - intros r. apply step_FetchSettled; assumption.
  - intros id2 t2.
    exists (readDone config_model k full id2 t2 h1). split.
    + apply step_ReadDone; assumption.
    + unfold h1, sendMessage. rewrite E. simpl.
      rewrite <- app_assoc. reflexivity.
Qed.

End AIHookFacts.

(** *** Worked streams *)

Section Streams.

Import AIHook.

(** C1, as stated, fails.  ["a"] is sent, then ["b"] before anything
    has come back; both requests are answered and both streams end.
    After the two calls both are in flight and nothing was aborted;
    at the end the log holds an assistant message for each of the two
    turns, not one. *)
Lemma two_sends_two_answers :
  option_map (fun h => (aborted h, map controller (calls h),
                        abortControllerRef h))
    (play (firstn 2 bothTurns) initial)
  = Some ([], [0; 1], Some 1)
  /\
  answers (play bothTurns initial) = Some (["A"; "B"], None)
  /\
  option_map (fun h => length (assistantMessages h)) (play bothTurns initial)
  <> Some 1.
Proof. repeat split. discriminate. Qed.

Example sendMessage_keeps_earlier_call_midStream :
  let h1 := sendMessage "b" "m2" 2%Z midStream in
  abortControllerRef h1 = Some 1 /\ aborted h1 = [] /\
  phaseOf 0 h1 = Some (Reading "A") /\
  exists h2,
    step parseChunk "gpt-4" (ReadDone 0 "m3" 3%Z) h1 = Some h2 /\
    map content (messages h2) = ["a"; "b"; "A"].
Proof.
  destruct (sendMessage_keeps_earlier_call parseChunk "gpt-4"
              midStream 0 (Reading "A") "b" "m2" 2%Z)
    as (Hr & Hab & _ & Hp & Hdone);
    [reflexivity | reflexivity | discriminate |].
  destruct (Hdone "m3" 3%Z) as (h2 & Hs & Hm).
  repeat split; try assumption.
  exists h2. split; [exact Hs | rewrite Hm; reflexivity].
Qed.

Lemma two_turns_append_two_answers_witness :
  exists h',
    play [SendMessage "a" "m1" 1%Z; SendMessage "b" "m2" 2%Z;
          FetchSettled 0 ok;
          ReadChunk 0 ("data: " ++ obj "content" "A" ++ nl);
          ReadDone 0 "m3" 3%Z;
          FetchSettled 1 ok;
          ReadChunk 1 ("data: " ++ obj "content" "B" ++ nl);
          ReadDone 1 "m4" 4%Z] initial = Some h' /\
    map content (messages h') = ["a"; "b"; "A"; "B"] /\
    aborted h' = [].
Proof.
  destruct (two_turns_append_two_answers parseChunk "gpt-4" initial
              "a" "b" "m1" "m2" 1%Z 2%Z "OK" "OK"
              ["data: " ++ obj "content" "A" ++ nl]
              ["data: " ++ obj "content" "B" ++ nl]
              "m3" "m4" 3%Z 4%Z)
    as (h' & Hrun & Hm & Hab);
    [exact initial_wellFormed | discriminate | discriminate |].
  exists h'. split; [exact Hrun|]. split; [rewrite Hm; reflexivity|].
  exact Hab.
Defined.

(** C3.  A stream brings some content, then a chunk with an error
    field, then more content.  The loop does not stop at the error:
    the text of the error chunk goes into the answer, the content that
    follows is added too, the assistant message is appended and
    [error] stays null. *)
Theorem error_chunk_is_appended_as_text :
  answers
    (play [SendMessage "hi" "m1" 1%Z; FetchSettled 0 ok;
           ReadChunk 0 ("data: " ++ obj "content" "par" ++ nl ++
                        "data: " ++ obj "error" "boom" ++ nl ++
                        "data: " ++ obj "content" "tial" ++ nl);
           ReadDone 0 "m2" 2%Z] initial)
  = Some (["par" ++ obj "error" "boom" ++ "tial"], None)
  /\
  parseChunk (obj "error" "boom")
  = Value {| chunk_content := None; chunk_done := None;
             chunk_error := Some "boom" |}.
Proof. split; reflexivity. Qed.

(** C7.  Brought by one read, the stream of the scenario gives
    ["Hello"].  Brought by two reads that part inside a line, the same
    bytes give the content of the first chunk followed by the head of
    the second line, taken as text that is not JSON; the tail of the
    line has no marker and is dropped. *)
Theorem split_line_is_not_reassembled :
  helloHead ++ helloTail = hello /\
  answers
    (play [SendMessage "hi" "m1" 1%Z; FetchSettled 0 ok;
           ReadChunk 0 hello; ReadDone 0 "m2" 2%Z] initial)
  = Some (["Hello"], None) /\
  answers
    (play [SendMessage "hi" "m1" 1%Z; FetchSettled 0 ok;
           ReadChunk 0 helloHead; ReadChunk 0 helloTail;
           ReadDone 0 "m2" 2%Z] initial)
  = Some (["He{" ++ quoted "content" ++ ":" ++ String dquote "l"], None).
Proof. repeat split; reflexivity. Qed.

(** The stream of the scenario is well behaved, and the turn theorem
    gives its answer. *)
Example hello_is_well_behaved :
  Forall (contentLine parseChunk) (flat_map linesOf [hello]).
Proof.
  change (flat_map linesOf [hello])
    with ["data: " ++ obj "content" "He"; "data: " ++ obj "content" "llo";
          "data: " ++ "[DONE]"].
  repeat constructor; eexists; (split; [reflexivity|]).
  - right. eexists. split; reflexivity.
  - right. eexists. split; reflexivity.
  - left. reflexivity.
Qed.

Example hello_by_the_turn_theorem :
  exists h',
    play [SendMessage "hi" "m1" 1%Z; FetchSettled 0 ok;
          ReadChunk 0 hello; ReadDone 0 "m2" 2%Z] initial = Some h' /\
    map content (messages h') = ["hi"; "Hello"] /\ error h' = None.
Proof.
  destruct (turn_concatenates_contents parseChunk "gpt-4" initial
              "hi" "m1" 1%Z "OK" [hello] "m2" 2%Z
              initial_wellFormed ltac:(discriminate) hello_is_well_behaved)
    as (h' & Hrun & Hm & He).
  exists h'. split; [exact Hrun|]. split; [rewrite Hm; reflexivity | exact He].
Qed.

End Streams.


(* ================================================================== *)
(** * More properties of the user store *)
(* ================================================================== *)

Section UserRunsFacts.

Import UserStore UserRuns.

Lemma act_authenticatedIffUser (a : Action) (s : UserState) :
  authenticatedIffUser s -> authenticatedIffUser (act a s).
Proof.
  unfold authenticatedIffUser, hasUser.
  destruct a as [u|up t|pr t|b|e| | |r| |r|r]; simpl; intros H;
    try exact H; try reflexivity.
  - destruct (user s); exact H.
  - destruct (user s); exact H.
  - destruct r as [e|b|[u|]]; simpl; try exact H; reflexivity.
  - destruct r as [e|b|[u|]]; simpl; try exact H; reflexivity.
  - destruct r as [e|b|[u|]]; reflexivity.
Qed.

(** X1.  [isAuthenticated] is true exactly when there is a user, in
    every state a subscriber sees along any run of the store's actions
    (setters, updates, logout, and login, signup and session refresh
    with any answer), from a state where that was so. *)
Theorem authenticated_iff_user (l : list Action) (s : UserState) :
  authenticatedIffUser s ->
  Forall authenticatedIffUser (observed l s).
Proof.
  revert s. induction l as [|a l IH]; intros s Hs; simpl; constructor.
  - apply act_authenticatedIffUser, Hs.
  - apply IH, act_authenticatedIffUser, Hs.
Qed.

Lemma authenticated_iff_user_witness :
  Forall authenticatedIffUser
    (observed
       [LoginBegin; LoginSettled (Ok (Some bob)); UpdateUser (withoutUpdatedAt
          (mkPartialUser None None (Some "rob") None None None None None))
          1700000000001%Z;
        SignupBegin; SignupSettled (NotOk (BodyJson None));
        SignupSettled (Ok None); LoginSettled (Ok None);
        RefreshSettled (Ok None); SetUser None]
       initial).
Proof. apply authenticated_iff_user. reflexivity. Defined.

Lemma over_over {A : Type} (a : A) (p q : option A) :
  over (over a p) q = over a (over_opt p q).
Proof. destruct q; reflexivity. Qed.

Lemma over_opt_over_opt {A : Type} (a p q : option A) :
  over_opt (over_opt a p) q = over_opt a (over_opt p q).
Proof. destruct q; reflexivity. Qed.

(** Two calls of [updatePreferences] in a row leave the store as
    one call does that is given the second partial spread over the
    first, at the time of the second: a key of the first survives
    unless the second names it, and the user's other fields are
    untouched but for [updatedAt]. *)
Lemma updatePreferences_twice
  (p q : PartialPreferences) (t1 t2 : Date) (s : UserState) :
  updatePreferences q t2 (updatePreferences p t1 s)
  = updatePreferences (mergePreferences p q) t2 s.
Proof.
  unfold updatePreferences. destruct (user s) as [u|]; simpl; [|reflexivity].
  unfold spreadPreferences, mergePreferences. simpl.
  rewrite !over_over. reflexivity.
Qed.

(** X2.  [updateUser] on a store that has a user: [updatedAt] is the
    time of the call, also when the updates carry an [updatedAt];
    every other key has the value the updates give it, or the one it
    had when they have none; and [isAuthenticated], [isLoading] and
    [error] are untouched.  Two calls in a row leave the store as one
    call does that is given the second partial spread over the first,
    at the time of the second. *)
Theorem updateUser_twice
  (p q : PartialUser) (t1 t2 : Date) (s : UserState) (u : User) :
  user s = Some u ->
  (exists u',
     user (updateUser p t1 s) = Some u' /\
     updatedAt u' = Some t1 /\
     id u' = over_opt (id u) (id' p) /\
     email u' = over_opt (email u) (email' p) /\
     username u' = over_opt (username u) (username' p) /\
     walletAddress u' = over_opt (walletAddress u) (walletAddress' p) /\
     avatar u' = over_opt (avatar u) (avatar' p) /\
     createdAt u' = over_opt (createdAt u) (createdAt' p) /\
     preferences u' = over (preferences u) (preferences' p)) /\
  isAuthenticated (updateUser p t1 s) = isAuthenticated s /\
  isLoading (updateUser p t1 s) = isLoading s /\
  error (updateUser p t1 s) = error s /\
  updateUser q t2 (updateUser p t1 s) = updateUser (mergeUser p q) t2 s.
Proof.
  intros Hu. unfold updateUser. rewrite Hu. cbn [user].
  split; [eexists; repeat split|]. repeat split.
  unfold spreadUser, mergeUser. cbn.
  rewrite !over_over, !over_opt_over_opt. reflexivity.
Qed.

Lemma updateUser_twice_witness :
  exists u',
    user (updateUser
            (mkPartialUser None None (Some "rob") None None None (Some 5%Z)
               None)
            1700000000001%Z
            (fst (login answeringBob "u@x.com" "Aa1!aaaa" initial)))
    = Some u' /\
    updatedAt u' = Some 1700000000001%Z /\
    username u' = Some "rob" /\ email u' = Some "u@x.com".
Proof.
  destruct (updateUser_twice
              (mkPartialUser None None (Some "rob") None None None (Some 5%Z)
                 None)
              (mkPartialUser None None None None None None None None)
              1700000000001%Z 1700000000002%Z
              (fst (login answeringBob "u@x.com" "Aa1!aaaa" initial))
              (complete bob bobPreferences) eq_refl)
    as ((u' & Hu & Ht & _ & He & Hn & _) & _).
  exists u'. repeat split; assumption.
Defined.



(** X4.  After [refreshSession] the store is authenticated exactly
    when the session endpoint answered with a success that carries a
    user; whatever the answer, and whatever the store was,
    [isAuthenticated] then says whether there is a user, and
    [isLoading] is untouched. *)
Theorem refreshSession_outcome
  (fetchSession : Request -> FetchResult (option UserPayload))
  (s : UserState) :
  let s' := refreshSession fetchSession s in
  (isAuthenticated s' = true <->
   exists u, fetchSession sessionRequest = Ok (Some u)) /\
  authenticatedIffUser s' /\
  isLoading s' = isLoading s.
Proof.
  unfold refreshSession, sessionRequest, authenticatedIffUser, hasUser.
  destruct (fetchSession _) as [e|b|[u|]]; simpl; repeat split;
    try discriminate; try (intros (u' & Hu); discriminate Hu).
  - intros _. exists u. reflexivity.
Qed.

End UserRunsFacts.

(* ================================================================== *)
(** * More properties of the chain store *)
(* ================================================================== *)

Section ChainRunsFacts.

Import ChainStore ChainRuns.

Lemma chainState_eta (s : ChainState) :
  withTransactions (transactions s) (pendingTransactions s) s = s.
Proof. destruct s; reflexivity. Qed.

Lemma act_chainMatches (a : Action) (s : ChainState) :
  chainMatches s -> chainMatches (act a s).
Proof.
  unfold chainMatches.
  destruct a as [st|ad|c|b|n|av|k|o| |c|c o|tx|h u| |b]; simpl;
    intros H; try exact H; try reflexivity.
  - destruct o; simpl; [reflexivity | exact H].
  - destruct o; simpl; [reflexivity | exact H].
Qed.

(** X5.  In every state a subscriber sees along any run of the store's
    actions from the initial state, [currentChain] is the entry of
    [wallet.chainId] in [SUPPORTED_CHAINS], and null when there is no
    chain id: the chain shown and the chain id never part. *)
Theorem currentChain_follows_chainId (l : list Action) (s : ChainState) :
  chainMatches s ->
  Forall chainMatches (observed l s) /\
  Forall (fun s' => option_map id (currentChain s') = chainId (wallet s'))
    (observed l s).
Proof.
  revert s. induction l as [|a l IH]; intros s Hs; simpl.
  - split; constructor.
  - pose proof (act_chainMatches a s Hs) as Ha.
    destruct (IH (act a s) Ha) as [IH1 IH2].
    split; constructor; try assumption.
    rewrite Ha. destruct (chainId (wallet (act a s))) as [[]|]; reflexivity.
Qed.

Lemma currentChain_follows_chainId_witness :
  Forall chainMatches
    (observed
       [ConnectWalletBegin "metamask"; ConnectWalletSettled Fulfilled;
        SwitchChainBegin chain137;
        SwitchChainSettled chain137 (RejectedWith (ErrorWith "rejected"));
        SetChainId (Some chain10); DisconnectWallet]
       initial).
Proof.
  apply (currentChain_follows_chainId _ initial). reflexivity.
Defined.

Lemma act_pendingSound (a : Action) (s : ChainState) :
  pendingSound s -> pendingSound (act a s).
Proof.
  unfold pendingSound.
  destruct a as [st|ad|c|b|n|av|k|o| |c|c o|tx|h u| |b]; simpl;
    intros [Hp Hl]; try (split; assumption).
  - destruct o; split; assumption.
  - destruct o; split; assumption.
  - destruct (isPending tx) eqn:E; simpl; split; try lia; try assumption.
    constructor; assumption.
  - rewrite length_map. destruct (terminal u); split; try assumption.
    + apply Forall_forall. intros tx Hin. apply filter_In in Hin as [Hin _].
      revert tx Hin. apply Forall_forall, Hp.
    + pose proof (filter_length_le
                    (fun tx => negb (tx_hash tx =? h)) (pendingTransactions s)).
      lia.
  - split; [constructor | reflexivity].
Qed.

(** X6.  In every state a subscriber sees along any run of the store's
    actions from the initial state, each transaction of
    [pendingTransactions] has the status pending, and the list is no
    longer than [transactions]. *)
Theorem pending_list_is_sound (l : list Action) (s : ChainState) :
  pendingSound s ->
  Forall pendingSound (observed l s).
Proof.
  revert s. induction l as [|a l IH]; intros s Hs; simpl; constructor.
  - apply act_pendingSound, Hs.
  - apply IH, act_pendingSound, Hs.
Qed.

Lemma pending_list_is_sound_witness :
  Forall pendingSound
    (observed
       [AddTransaction tx2; UpdateTransaction "0x2" (gasPriceUpdate 30);
        AddTransaction tx1; UpdateTransaction "0x1" (statusUpdate pending);
        UpdateTransaction "0x2" (statusUpdate failed); ClearTransactions]
       initial).
Proof.
  apply pending_list_is_sound. split; [constructor | reflexivity].
Defined.

Lemma map_hash_update (h : Hash) (u : PartialTransaction)
  (txs : list Transaction) :
  hash' u = None ->
  map tx_hash
    (map (fun tx => if tx_hash tx =? h then spreadTransaction tx u else tx) txs)
  = map tx_hash txs.
Proof.
  intros Hu. rewrite map_map. apply map_ext. intros tx.
  destruct (tx_hash tx =? h); [|reflexivity].
  unfold spreadTransaction. simpl. rewrite Hu. reflexivity.
Qed.

Lemma act_pendingLogged (a : Action) (s : ChainState) :
  keepsHashes a = true -> pendingLogged s -> pendingLogged (act a s).
Proof.
  unfold pendingLogged.
  destruct a as [st|ad|c|b|n|av|k|o| |c|c o|tx|h u| |b]; simpl;
    intros Hk H; try exact H.
  - destruct o; exact H.
  - destruct o; exact H.
  - destruct (isPending tx); simpl.
    + intros x [<-|Hx]; [left; reflexivity | right; apply H, Hx].
    + intros x Hx. right. apply H, Hx.
  - destruct (hash' u) eqn:Hu; [discriminate|].
    rewrite (map_hash_update h u _ Hu).
    destruct (terminal u); [|exact H].
    intros x Hx. apply H. apply in_map_iff in Hx as (tx & <- & Hin).
    apply filter_In in Hin as [Hin _]. apply in_map, Hin.
  - intros x [].
Qed.

(** X7.  Along any run from the initial state in which no update
    carries a [hash] key, every hash of [pendingTransactions] is the
    hash of a transaction of [transactions]. *)
Theorem pending_hashes_are_logged (l : list Action) (s : ChainState) :
  pendingLogged s ->
  forallb keepsHashes l = true ->
  Forall pendingLogged (observed l s).
Proof.
  revert s. induction l as [|a l IH]; intros s Hs Hl; simpl.
  - constructor.
  - simpl in Hl. apply andb_true_iff in Hl as [Ha Hl].
    pose proof (act_pendingLogged a s Ha Hs). constructor; auto.
Qed.

Lemma pending_hashes_are_logged_witness :
  Forall pendingLogged
    (observed
       [AddTransaction tx2; AddTransaction tx1;
        UpdateTransaction "0x2" (gasPriceUpdate 30);
        UpdateTransaction "0x2" (statusUpdate confirmed)]
       initial).
Proof.
  apply pending_hashes_are_logged; [intros x [] | reflexivity].
Defined.

(** X8.  An update that carries a status other than pending, in any
    state: no transaction of that hash is left in
    [pendingTransactions], the pending transactions of other hashes
    all stay, and in [transactions], which keeps its length, each
    transaction that had the hash has the new status while the others
    keep theirs. *)
Theorem terminal_update_settles
  (h : Hash) (u : PartialTransaction) (st : TransactionStatus)
  (s : ChainState) :
  status' u = Some st ->
  st <> pending ->
  let s' := updateTransaction h u s in
  Forall (fun tx => tx_hash tx <> h) (pendingTransactions s') /\
  (forall tx, In tx (pendingTransactions s) -> tx_hash tx <> h ->
              In tx (pendingTransactions s')) /\
  map tx_status (transactions s')
  = map (fun tx => if tx_hash tx =? h then st else tx_status tx)
      (transactions s) /\
  length (transactions s') = length (transactions s).
Proof.
  intros Hu Hst.
  assert (Ht : terminal u = true)
    by (unfold terminal; rewrite Hu; destruct st; congruence).
  simpl. rewrite Ht. repeat split.
  - apply Forall_forall. intros tx Hin. apply filter_In in Hin as [_ Hne].
    apply negb_true_iff, String.eqb_neq in Hne. exact Hne.
  - intros tx Hin Hne. apply filter_In. split; [exact Hin|].
    apply negb_true_iff, String.eqb_neq, Hne.
  - rewrite map_map. apply map_ext. intros tx.
    destruct (tx_hash tx =? h); [|reflexivity].
    unfold spreadTransaction. simpl. rewrite Hu. reflexivity.
  - apply length_map.
Qed.

Lemma terminal_update_settles_witness :
  let s' := updateTransaction "0x2" (statusUpdate confirmed)
              (addTransaction tx2 initial) in
  pendingTransactions s' = [] /\
  map tx_status (transactions s') = [confirmed].
Proof.
  destruct (terminal_update_settles "0x2" (statusUpdate confirmed) confirmed
              (addTransaction tx2 initial))
    as (_ & _ & Hs & _); [reflexivity | discriminate |].
  split; [reflexivity | exact Hs].
Defined.

(** X9.  An update for a hash that neither list holds changes
    nothing, whatever it carries. *)
Theorem update_of_unknown_hash (h : Hash) (u : PartialTransaction)
  (s : ChainState) :
  (forall tx, In tx (transactions s) -> tx_hash tx <> h) ->
  (forall tx, In tx (pendingTransactions s) -> tx_hash tx <> h) ->
  updateTransaction h u s = s.
Proof.
  intros Ht Hp. unfold updateTransaction.
  assert (E1 : map (fun tx => if tx_hash tx =? h then spreadTransaction tx u
                              else tx) (transactions s) = transactions s).
  { rewrite <- (map_id (transactions s)) at 2. apply map_ext_in.
    intros tx Hin. apply Ht, String.eqb_neq in Hin. rewrite Hin. reflexivity. }
  assert (E2 : (if terminal u
                then filter (fun tx => negb (tx_hash tx =? h))
                       (pendingTransactions s)
                else pendingTransactions s) = pendingTransactions s).
  { destruct (terminal u); [|reflexivity].
    apply forallb_filter_id, forallb_forall. intros tx Hin.
    apply negb_true_iff, String.eqb_neq, Hp, Hin. }
  rewrite E1, E2. apply chainState_eta.
Qed.

Lemma update_of_unknown_hash_witness :
  updateTransaction "0x3" (statusUpdate failed)
    (addTransaction tx2 (addTransaction tx1 initial))
  = addTransaction tx2 (addTransaction tx1 initial).
Proof.
  apply update_of_unknown_hash; simpl;
    intros tx H; repeat (destruct H as [<-|H]; [discriminate|]); destruct H.
Defined.





Lemma disconnect_after_act (a : Action) (s : ChainState) :
  walletOnly a = true ->
  disconnectWallet (act a s) = disconnectWallet s.
Proof.
  destruct a as [st|ad|c|b|n|av|k|o| |c|c o|tx|h u| |b]; simpl;
    intros H; try discriminate; try reflexivity.
  destruct o; reflexivity.
Qed.

(** X11.  [disconnectWallet] undoes whatever the wallet setters and
    [connectWallet] did before it: after any run of those, and of
    [disconnectWallet] itself, it leaves the store it would have left
    without them.  In particular it is idempotent. *)
Theorem disconnect_absorbs_wallet_actions (l : list Action) (s : ChainState) :
  forallb walletOnly l = true ->
  disconnectWallet (run l s) = disconnectWallet s.
Proof.
  revert s. induction l as [|a l IH]; intros s Hl; simpl; [reflexivity|].
  simpl in Hl. apply andb_true_iff in Hl as [Ha Hl].
  unfold run in IH. rewrite (IH _ Hl). apply disconnect_after_act, Ha.
Qed.

Lemma disconnect_absorbs_wallet_actions_witness :
  disconnectWallet
    (run [ConnectWalletBegin "metamask"; ConnectWalletSettled Fulfilled;
          SetEnsName (Some "bob.eth"); SetBalance 7; DisconnectWallet]
       (addTransaction tx1 initial))
  = disconnectWallet (addTransaction tx1 initial).
Proof. apply disconnect_absorbs_wallet_actions. reflexivity. Defined.

End ChainRunsFacts.

(* ================================================================== *)
(** * More properties of the streaming conversation *)
(* ================================================================== *)

Section AIPageFacts.

Import AIHook AIPage.

Variable JSON_parse : string -> Parsed.
Variable config_model : string.

Local Abbreviation step := (AIHook.step JSON_parse config_model).
Local Abbreviation run := (AIHook.run JSON_parse config_model).
Local Abbreviation assistantMessage := (AIHook.assistantMessage config_model).

(** What an event appends to the log. *)
Lemma step_appends (ev : Event) (h h' : Hook) :
  step ev h = Some h' ->
  isClear ev = false ->
  exists l, messages h' = (messages h ++ l)%list /\
    length (filter isUser l)
    = sends [ev] /\
    length (filter (fun m => match role m with assistant => true
                                             | _ => false end) l)
    = dones [ev].
Proof.
  destruct ev as [c i t| | |sn i t|k r|k chunk|k i t|k e|k]; simpl;
    intros H Hc; try discriminate Hc.
  - injection H as <-. unfold sendMessage, sends. simpl.
    destruct (trim c =? ""); simpl.
    + exists []. rewrite app_nil_r. auto.
    + eexists. split; [reflexivity|]. auto.
  - injection H as <-. exists []. unfold stopStreaming.
    destruct (abortControllerRef h); simpl; rewrite app_nil_r; auto.
  - ran k h H. exists []. rewrite app_nil_r.
    destruct r as [e|[] st []]; auto.
  - ran k h H. exists []. rewrite app_nil_r. auto.
  - ran k h H. eexists. split; [reflexivity|]. auto.
  - ran k h H. exists []. rewrite app_nil_r. auto.
  - destruct (callOf k h); [|discriminate].
    destruct (isAborted k h); [|discriminate].
    injection H as <-. exists []. rewrite app_nil_r. auto.
Qed.

Lemma counts_cons (ev : Event) (evs : list Event) :
  sends (ev :: evs) = sends [ev] + sends evs /\
  dones (ev :: evs) = dones [ev] + dones evs.
Proof.
  unfold sends, dones. simpl. split.
  - destruct ev; simpl; try reflexivity.
    destruct (negb (trim content_ =? "")); reflexivity.
  - destruct ev; reflexivity.
Qed.

Lemma run_appends (evs : list Event) (h h' : Hook) :
  run evs h = Some h' ->
  noClear evs = true ->
  exists l, messages h' = (messages h ++ l)%list /\
    length (filter isUser l) = sends evs /\
    length (filter (fun m => match role m with assistant => true
                                             | _ => false end) l)
    = dones evs.
Proof.
  revert h. induction evs as [|ev evs IH]; intros h Hr Hc.
  - injection Hr as <-. exists []. rewrite app_nil_r. auto.
  - cbn [AIHook.run] in Hr.
    destruct (step ev h) as [h1|] eqn:E; [|discriminate].
    simpl in Hc. apply andb_true_iff in Hc as [Hc1 Hc2].
    apply negb_true_iff in Hc1.
    destruct (step_appends ev h h1 E Hc1) as (l1 & M1 & U1 & A1).
    destruct (IH h1 Hr Hc2) as (l2 & M2 & U2 & A2).
    exists (l1 ++ l2)%list. destruct (counts_cons ev evs) as [Es Ed].
    rewrite M2, M1, <- app_assoc, !filter_app, !length_app.
    rewrite U1, U2, A1, A2, Es, Ed. auto.
Qed.

(** What [regenerateLastResponse] leaves of the log: a head of it,
    and after that at most the message it sends again. *)
Lemma regenerate_cuts (snapshot : list AIMessage) (newId : string)
  (now : Date) (h : Hook) :
  exists n l,
    messages (regenerateLastResponse snapshot newId now h)
    = (firstn n (messages h) ++ l)%list /\
    length l <= 1.
Proof.
  destruct (regenerate_cases snapshot newId now h) as [->|(c & n & ->)].
  - exists (length (messages h)), []. rewrite firstn_all, app_nil_r. auto.
  - unfold sendMessage. destruct (trim c =? ""); simpl.
    + exists n, []. rewrite app_nil_r. auto.
    + eexists n, _. split; [reflexivity|]. simpl. lia.
Qed.

(** X12.  The log only grows along any run of the event loop that
    has no [clearMessages] and no [regenerateLastResponse]: whatever
    fails or is cancelled, the messages the hook had are all still
    there, in place, at the head of the log.  Those two actions are
    the ones that take messages off: [clearMessages] empties the log,
    and [regenerateLastResponse] leaves a head of it, followed by at
    most the one message it sends again. *)
Theorem log_is_append_only (evs : list Event) (h h' : Hook) :
  run evs h = Some h' ->
  noClear evs = true ->
  (firstn (length (messages h)) (messages h') = messages h /\
   length (messages h) <= length (messages h')) /\
  messages (clearMessages h') = [] /\
  forall snapshot newId now,
    step (RegenerateLastResponse snapshot newId now) h'
    = Some (regenerateLastResponse snapshot newId now h') /\
    exists n l,
      messages (regenerateLastResponse snapshot newId now h')
      = (firstn n (messages h') ++ l)%list /\
      length l <= 1.
Proof.
  intros Hr Hc. destruct (run_appends evs h h' Hr Hc) as (l & M & _).
  split; [|split; [reflexivity|]].
  - rewrite M, length_app, firstn_app, firstn_all, Nat.sub_diag, firstn_O,
      app_nil_r.
    split; [reflexivity | lia].
  - intros snapshot newId now. split; [reflexivity|].
    apply regenerate_cuts.
Qed.

(** X13.  Along any run of the event loop that has no [clearMessages]
    and no [regenerateLastResponse], the log gains one assistant
    message for each stream that ends with [done], and none otherwise
    (not for a failed request, a failed read or an abort), and one
    user message for each [sendMessage] that was given something
    other than blanks. *)
Theorem messages_are_counted (evs : list Event) (h h' : Hook) :
  run evs h = Some h' ->
  noClear evs = true ->
  length (assistantMessages h')
  = length (assistantMessages h) + dones evs /\
  length (userMessages h') = length (userMessages h) + sends evs.
Proof.
  intros Hr Hc. destruct (run_appends evs h h' Hr Hc) as (l & M & U & A).
  unfold assistantMessages, userMessages.
  rewrite M, !filter_app, !length_app, U, A. auto.
Qed.

Lemma find_dropCall_same (k : Controller) (l : list Call) :
  find (fun c => Nat.eqb (controller c) k) (dropCall k l) = None.
Proof.
  induction l as [|a l IH]; simpl; [reflexivity|].
  destruct (Nat.eqb (controller a) k) eqn:E; simpl; [exact IH|].
  rewrite E. exact IH.
Qed.

(** X14.  [stopStreaming] while the ref holds the controller of a call
    in flight: nothing more is read for that call and its answer
    cannot arrive; its continuation is the rejection, after which the
    log is what it was (no assistant message), [error] is
    ["Request cancelled"], [isLoading] and [isStreaming] are false and
    the call is gone.  [currentResponse] is not cleared: it keeps the
    text shown so far. *)
Theorem stop_cancels_current_call (h : Hook) (k : Controller) (p : Phase) :
  abortControllerRef h = Some k ->
  phaseOf k h = Some p ->
  let h1 := stopStreaming h in
  (forall r, step (FetchSettled k r) h1 = None) /\
  (forall chunk, step (ReadChunk k chunk) h1 = None) /\
  (forall i t, step (ReadDone k i t) h1 = None) /\
  exists h2,
    step (Aborted k) h1 = Some h2 /\
    messages h2 = messages h /\
    error h2 = Some "Request cancelled" /\
    isLoading h2 = false /\ isStreaming h2 = false /\
    currentResponse h2 = currentResponse h /\
    phaseOf k h2 = None.
Proof.
  intros Href Hp h1.
  assert (Hc : callOf k h1 = callOf k h)
    by (unfold h1, stopStreaming; rewrite Href; reflexivity).
  assert (Ha : isAborted k h1 = true).
  { unfold h1, stopStreaming, isAborted. rewrite Href. simpl.
    rewrite Nat.eqb_refl. reflexivity. }
  unfold phaseOf in Hp. destruct (callOf k h) as [[k' ph]|] eqn:E;
    [|discriminate].
  repeat split; try (intros; cbn [AIHook.step]; rewrite Hc, Ha;
                     destruct ph; reflexivity).
  exists (fail k AbortError h1). cbn [AIHook.step]. rewrite Hc, Ha.
  unfold h1, stopStreaming. rewrite Href.
  repeat split. unfold phaseOf, callOf. simpl.
  rewrite find_dropCall_same. reflexivity.
Qed.

(** X15.  A turn whose request fails, or is answered with a status
    that is not a success, or with a success that has no body: the
    log gains the user message and nothing else, the call is over and
    [isLoading] is false.  [error] is the message of the failure,
    ["API error: "] followed by the status text, or, for the answer
    without body, null: that turn ends in silence. *)
Theorem turn_without_stream
  (h : Hook) (content_ newId : string) (now : Date) (r : FetchResult) :
  wellFormed h ->
  trim content_ <> "" ->
  endsTurn r = true ->
  exists h',
    run [SendMessage content_ newId now;
         FetchSettled (nextController h) r] h = Some h' /\
    messages h' = (messages h ++ [userMessage content_ newId now])%list /\
    error h' = turnError r /\
    isLoading h' = false /\ isStreaming h' = false /\
    phaseOf (nextController h) h' = None.
Proof.
  intros Hw Hc Hr.
  destruct (sendMessage_starts_call h content_ newId now Hw Hc)
    as (Hp1 & Ha1 & Hm1 & He1 & _).
  exists (fetchSettled (nextController h) r (sendMessage content_ newId now h)).
  split.
  - cbn [AIHook.run].
    change (step (SendMessage content_ newId now) h)
      with (Some (sendMessage content_ newId now h)).
    cbn iota.
    rewrite (step_FetchSettled JSON_parse config_model _ _ r Hp1 Ha1).
    reflexivity.
  - destruct r as [[m|]|[] st []]; try discriminate Hr; simpl;
      rewrite ?Hm1, ?He1; repeat split;
      unfold phaseOf, callOf; simpl; rewrite find_dropCall_same; reflexivity.
Qed.

(** What every ending event leaves. *)
Lemma ending_is_finally (ev : Event) (h h' : Hook) (k : Controller) :
  step ev h = Some h' ->
  endsCall ev = Some k ->
  exists y, h' = finally k y /\ calls y = calls h /\ aborted y = aborted h.
Proof.
  destruct ev as [c i t| | |sn i t|k0 r|k0 chunk|k0 i t|k0 e|k0]; simpl;
    intros H Hk; try discriminate Hk.
  - ran k0 h H. destruct r as [e|[] st []]; try discriminate Hk;
      injection Hk as <-; eexists; (split; [reflexivity|]); split; reflexivity.
  - ran k0 h H. injection Hk as <-.
    eexists; (split; [reflexivity|]); split; reflexivity.
  - ran k0 h H. injection Hk as <-.
    eexists; (split; [reflexivity|]); split; reflexivity.
  - destruct (callOf k0 h); [|discriminate].
    destruct (isAborted k0 h); [|discriminate].
    injection H as <-. injection Hk as <-.
    eexists; (split; [reflexivity|]); split; reflexivity.
Qed.

(** X16.  When a call ends, however it ends, the hook reports
    [isLoading] and [isStreaming] false and empties the ref, also
    while another call is in flight: that other call goes on as it
    was, and [stopStreaming] now does nothing, so it can no longer be
    cancelled. *)
Theorem call_end_resets_flags (ev : Event) (h h' : Hook) (k : Controller) :
  step ev h = Some h' ->
  endsCall ev = Some k ->
  isLoading h' = false /\ isStreaming h' = false /\
  abortControllerRef h' = None /\
  stopStreaming h' = h' /\
  phaseOf k h' = None /\
  forall k', k' <> k ->
    phaseOf k' h' = phaseOf k' h /\ isAborted k' h' = isAborted k' h.
Proof.
  intros Hs Hk.
  destruct (ending_is_finally ev h h' k Hs Hk) as (y & -> & Hc & Ha).
  repeat split.
  - unfold phaseOf, callOf. simpl. rewrite find_dropCall_same. reflexivity.
  - unfold phaseOf, callOf. simpl. rewrite find_dropCall_other by assumption.
    rewrite Hc. reflexivity.
  - unfold isAborted. simpl. rewrite Ha. reflexivity.
Qed.

(** X17.  [clearMessages] does not stop a stream: when the stream then
    ends, its assistant message is appended to the emptied log, where
    it stands alone, without the user message it answers. *)
Theorem clear_does_not_stop_stream
  (h : Hook) (k : Controller) (full newId : string) (now : Date) :
  phaseOf k h = Some (Reading full) ->
  isAborted k h = false ->
  aborted (clearMessages h) = aborted h /\
  calls (clearMessages h) = calls h /\
  exists h',
    run [ClearMessages; ReadDone k newId now] h = Some h' /\
    messages h' = [assistantMessage full newId now].
Proof.
  intros Hp Ha. repeat split.
  exists (readDone config_model k full newId now (clearMessages h)). split.
  - cbn [AIHook.run]. change (step ClearMessages h) with (Some (clearMessages h)).
    cbn iota. rewrite (step_ReadDone JSON_parse config_model
                         (clearMessages h) k full newId now Hp Ha).
    reflexivity.
  - reflexivity.
Qed.

Lemma findLastIndex_none {A : Type} (p : A -> bool) (l : list A) :
  forallb (fun x => negb (p x)) l = true -> findLastIndex p l = None.
Proof.
  induction l as [|x l IH]; simpl; [reflexivity|].
  intros H. apply andb_true_iff in H as [Hx Hl].
  rewrite (IH Hl). apply negb_true_iff in Hx. rewrite Hx. reflexivity.
Qed.

Lemma findLastIndex_last {A : Type} (p : A -> bool) (before after : list A)
  (x : A) :
  p x = true ->
  forallb (fun y => negb (p y)) after = true ->
  findLastIndex p (before ++ x :: after) = Some (length before).
Proof.
  intros Hx Ha. induction before as [|b before IH]; simpl.
  - rewrite (findLastIndex_none p after Ha), Hx. reflexivity.
  - rewrite IH. reflexivity.
Qed.

Lemma trimEnd_trimEnd (s : string) : trimEnd (trimEnd s) = trimEnd s.
Proof.
  induction s as [|c s IH]; simpl; [reflexivity|].
  destruct (isSpace c && (trimEnd s =? "")) eqn:E; [reflexivity|].
  simpl. rewrite IH, E. reflexivity.
Qed.

Lemma trimStart_trimEnd (s : string) :
  trimStart (trimEnd (trimStart s)) = trimEnd (trimStart s).
Proof.
  induction s as [|c s IH]; simpl; [reflexivity|].
  destruct (isSpace c) eqn:E; [exact IH|].
  simpl. rewrite E. simpl. rewrite E. reflexivity.
Qed.

(** What [sendMessage] stores is trimmed already. *)
Lemma trim_trim (s : string) : trim (trim s) = trim s.
Proof. unfold trim. rewrite trimStart_trimEnd. apply trimEnd_trimEnd. Qed.

(** X18.  [regenerateLastResponse] does nothing when the log it sees
    has fewer than two messages, even if one of them is a question
    that failed, and nothing when it holds no user message. *)
Theorem regenerate_needs_two_messages
  (snapshot : list AIMessage) (newId : string) (now : Date) (h : Hook) :
  length snapshot < 2 \/
  forallb (fun m => negb (isUser m)) snapshot = true ->
  regenerateLastResponse snapshot newId now h = h.
Proof.
  unfold regenerateLastResponse. intros [Hl|Hn].
  - apply Nat.ltb_lt in Hl. rewrite Hl. reflexivity.
  - rewrite (findLastIndex_none isUser snapshot Hn).
    destruct (length snapshot <? 2)%nat; reflexivity.
Qed.

(** X19.  [regenerateLastResponse], called from a render that shows
    the log as it is: the log is cut before its last user message,
    that message is sent again under a new id, and a new call is in
    flight.  What came before the message is kept; what came after it
    is dropped; nothing is aborted, so a stream that was running goes
    on. *)
Theorem regenerate_resends_last_question
  (h : Hook) (before after : list AIMessage) (m : AIMessage)
  (newId : string) (now : Date) :
  messages h = (before ++ m :: after)%list ->
  isUser m = true ->
  forallb (fun x => negb (isUser x)) after = true ->
  2 <= length (messages h) ->
  trim (content m) <> "" ->
  let h' := regenerateLastResponse (messages h) newId now h in
  messages h' = (before ++ [userMessage (content m) newId now])%list /\
  calls h' = (calls h ++ [ {| controller := nextController h;
                              phase := Fetching |} ])%list /\
  abortControllerRef h' = Some (nextController h) /\
  aborted h' = aborted h /\
  isLoading h' = true /\ error h' = None.
Proof.
  intros Hm Hu Ha Hl Hc. unfold regenerateLastResponse.
  assert (E2 : (length (messages h) <? 2)%nat = false)
    by (apply Nat.ltb_ge, Hl).
  rewrite E2, Hm, (findLastIndex_last isUser before after m Hu Ha).
  rewrite nth_error_app2, Nat.sub_diag by lia. simpl.
  rewrite firstn_app, firstn_all, Nat.sub_diag, firstn_O, app_nil_r.
  unfold sendMessage.
  assert (E : (trim (content m) =? "") = false) by (apply String.eqb_neq, Hc).
  rewrite E. repeat split.
Qed.

(** *** The page *)

Lemma handleSend_gated (newId : string) (now : Date) (pg : Page) :
  gated (hook pg) -> gated (hook (handleSend newId now pg)).
Proof.
  unfold handleSend. intros H.
  destruct (trim (prompt pg) =? "") eqn:E; simpl; [exact H|].
  destruct (isLoading (hook pg)) eqn:L; simpl; [exact H|].
  destruct H as [[Hc _]|(c & _ & Hl)]; [|congruence].
  right. unfold sendMessage. rewrite E. simpl. rewrite Hc.
  eexists. split; reflexivity.
Qed.

Lemma step_gated (ev : Event) (h h' : Hook) :
  isContinuation ev = true ->
  step ev h = Some h' ->
  gated h -> gated h'.
Proof.
  intros Hk Hs [[Hc Hl]|(c & Hc & Hl)].
  - exfalso.
    destruct ev; try discriminate Hk; simpl in Hs; unfold callOf in Hs;
      rewrite Hc in Hs; discriminate Hs.
  - destruct ev as [c0 i t| | |sn i t|k r|k chunk|k i t|k e|k];
      try discriminate Hk; simpl in Hs; unfold callOf in Hs;
      rewrite Hc in Hs; simpl in Hs;
      destruct (Nat.eqb (controller c) k) eqn:E; try discriminate Hs;
      destruct c as [kc [|full]]; simpl in *;
      destruct (isAborted k h); try discriminate Hs; injection Hs as <-;
      unfold gated, fail, readDone, readChunk, finally; simpl;
      rewrite ?Hc; simpl; rewrite ?E; simpl; auto.
    + destruct r as [e|[] st []]; simpl; rewrite ?Hc; simpl; rewrite ?E;
        simpl; auto.
      right. eexists. split; [reflexivity | exact Hl].
    + right. eexists. split; [reflexivity | exact Hl].
Qed.

Lemma pageStep_gated (pev : PageEvent) (pg pg' : Page) :
  pageStep JSON_parse config_model pev pg = Some pg' ->
  gated (hook pg) -> gated (hook pg').
Proof.
  destruct pev as [text|i t|ev]; simpl.
  - intros [= <-]. trivial.
  - intros [= <-]. apply handleSend_gated.
  - destruct (isContinuation ev) eqn:Hk; [|discriminate].
    destruct (AIHook.step JSON_parse config_model ev (hook pg)) as [h1|] eqn:E;
      [|discriminate].
    intros [= <-]. simpl. eapply step_gated; eassumption.
Qed.

(** X20.  On the page, where messages are sent through [handleSend]
    only, at most one call is ever in flight, and [isLoading] is true
    exactly while one is: the page's test of [isLoading] is what keeps
    the conversation single-flight. *)
Theorem page_is_single_flight (pevs : list PageEvent) (pg pg' : Page) :
  gated (hook pg) ->
  pageRun JSON_parse config_model pevs pg = Some pg' ->
  length (calls (hook pg')) <= 1 /\
  (isLoading (hook pg') = true <-> calls (hook pg') <> []).
Proof.
  intros Hg Hr.
  assert (Hg' : gated (hook pg')).
  { revert pg Hg Hr. induction pevs as [|pev pevs IH]; simpl; intros pg Hg.
    - intros [= <-]. exact Hg.
    - destruct (pageStep JSON_parse config_model pev pg) as [pg1|] eqn:E;
        [|discriminate].
      apply IH. eapply pageStep_gated; eassumption. }
  destruct Hg' as [[Hc Hl]|(c & Hc & Hl)]; rewrite Hc, Hl; simpl.
  - split; [lia|]. split; [discriminate | intros H; contradiction].
  - split; [lia|]. split; [discriminate | reflexivity].
Qed.

End AIPageFacts.

(** *** Worked runs *)

Section MoreStreams.

Import AIHook AIPage.

Lemma log_is_append_only_witness :
  exists h',
    play (skipn 2 bothTurns) (sendMessage "b" "m2" 2%Z
                                (sendMessage "a" "m1" 1%Z initial))
    = Some h' /\
    firstn 2 (map content (messages h')) = ["a"; "b"] /\
    map content (messages h') = ["a"; "b"; "A"; "B"] /\
    map content
      (messages (regenerateLastResponse (messages h') "m5" 5%Z h'))
    = ["a"; "b"].
Proof.
  destruct (play (skipn 2 bothTurns)
              (sendMessage "b" "m2" 2%Z (sendMessage "a" "m1" 1%Z initial)))
    as [h'|] eqn:E; [|discriminate E].
  exists h'. split; [reflexivity|].
  destruct (log_is_append_only parseChunk "gpt-4" _ _ h' E eq_refl)
    as [[Hf _] _].
  split; [rewrite firstn_map; exact (f_equal (map content) Hf)|].
  clear Hf. vm_compute in E. injection E as <-. split; reflexivity.
Defined.

Lemma messages_are_counted_witness :
  (exists h',
     play bothTurns initial = Some h' /\
     length (assistantMessages h') = 2 /\ length (userMessages h') = 2) /\
  option_map (fun h => length (assistantMessages h))
    (play (bothTurns ++ [RegenerateLastResponse twoTurnsLog "m5" 5%Z])%list
       initial)
  = Some 0.
Proof.
  split; [|reflexivity].
  destruct (play bothTurns initial) as [h'|] eqn:E; [|discriminate E].
  exists h'. split; [reflexivity|].
  exact (messages_are_counted parseChunk "gpt-4" bothTurns initial h' E
           eq_refl).
Defined.

Lemma stop_cancels_current_call_witness :
  exists h2,
    play [StopStreaming; Aborted 0] midStream = Some h2 /\
    map content (messages h2) = ["a"] /\
    error h2 = Some "Request cancelled" /\
    currentResponse h2 = "A".
Proof.
  destruct (stop_cancels_current_call parseChunk "gpt-4" midStream 0
              (Reading "A") eq_refl eq_refl)
    as (_ & _ & _ & h2 & Hs & Hm & He & _ & _ & Hc & _).
  exists h2. split; [|split; [|split]].
  - unfold play. cbn [AIHook.run].
    change (step parseChunk "gpt-4" StopStreaming midStream)
      with (Some (stopStreaming midStream)).
    cbn iota. rewrite Hs. reflexivity.
  - rewrite Hm. reflexivity.
  - exact He.
  - rewrite Hc. reflexivity.
Defined.

Lemma turn_without_stream_witness :
  exists h',
    play [SendMessage "hi" "m1" 1%Z;
          FetchSettled 0 (Response false "Too Many Requests" false)] initial
    = Some h' /\
    map content (messages h') = ["hi"] /\
    error h' = Some "API error: Too Many Requests".
Proof.
  destruct (turn_without_stream parseChunk "gpt-4" initial "hi" "m1" 1%Z
              (Response false "Too Many Requests" false))
    as (h' & Hr & Hm & He & _);
    [exact initial_wellFormed | discriminate | reflexivity |].
  exists h'. split; [exact Hr|]. split; [rewrite Hm; reflexivity | exact He].
Defined.

(** Both turns in flight and both streaming. *)
Lemma call_end_resets_flags_witness :
  exists h h',
    play (firstn 6 bothTurns) initial = Some h /\
    step parseChunk "gpt-4" (ReadDone 0 "m3" 3%Z) h = Some h' /\
    isLoading h' = false /\ stopStreaming h' = h' /\
    phaseOf 1 h' = Some (Reading "B").
Proof.
  destruct (play (firstn 6 bothTurns) initial) as [h|] eqn:E;
    [|discriminate E].
  destruct (step parseChunk "gpt-4" (ReadDone 0 "m3" 3%Z) h) as [h'|] eqn:S;
    [|vm_compute in E; injection E as <-; discriminate S].
  exists h, h'. split; [reflexivity|]. split; [exact S|].
  destruct (call_end_resets_flags parseChunk "gpt-4" _ h h' 0 S eq_refl)
    as (Hl & _ & _ & Hs & _ & Ho).
  split; [exact Hl|]. split; [exact Hs|].
  destruct (Ho 1 ltac:(discriminate)) as [Hp _]. rewrite Hp.
  vm_compute in E. injection E as <-. reflexivity.
Defined.

Lemma clear_does_not_stop_stream_witness :
  exists h',
    play [ClearMessages; ReadDone 0 "m2" 2%Z] midStream = Some h' /\
    map content (messages h') = ["A"] /\ map role (messages h') = [assistant].
Proof.
  destruct (clear_does_not_stop_stream parseChunk "gpt-4" midStream 0 "A"
              "m2" 2%Z eq_refl eq_refl)
    as (_ & _ & h' & Hr & Hm).
  exists h'. split; [exact Hr|]. rewrite Hm. split; reflexivity.
Defined.

Lemma regenerate_needs_two_messages_witness :
  let h := withMessages [userMessage "first" "m1" 1%Z] initial in
  regenerateLastResponse (messages h) "m2" 2%Z h = h.
Proof.
  apply regenerate_needs_two_messages. left. simpl. lia.
Defined.

Lemma regenerate_resends_last_question_witness :
  let h := withMessages twoTurnsLog initial in
  map content (messages (regenerateLastResponse (messages h) "m4" 4%Z h))
  = ["first"; "one"; "second"].
Proof.
  destruct (regenerate_resends_last_question
              (withMessages twoTurnsLog initial)
              (firstn 2 twoTurnsLog) [] (userMessage "second" "m3" 3%Z)
              "m4" 4%Z)
    as (Hm & _);
    [reflexivity | reflexivity | reflexivity | simpl; lia | discriminate |].
  exact (f_equal (map content) Hm).
Defined.

Lemma page_is_single_flight_witness :
  exists pg',
    pageRun parseChunk "gpt-4"
      [TypePrompt "a"; Send "m1" 1%Z; Send "m2" 2%Z;
       TypePrompt "b"; Send "m3" 3%Z;
       Continue (FetchSettled 0 ok)] initialPage = Some pg' /\
    length (calls (hook pg')) <= 1 /\
    map controller (calls (hook pg')) = [0] /\
    map content (messages (hook pg')) = ["a"] /\
    prompt pg' = "b".
Proof.
  destruct (pageRun parseChunk "gpt-4"
              [TypePrompt "a"; Send "m1" 1%Z; Send "m2" 2%Z;
               TypePrompt "b"; Send "m3" 3%Z;
               Continue (FetchSettled 0 ok)] initialPage) as [pg'|] eqn:E;
    [|discriminate E].
  exists pg'. split; [reflexivity|].
  pose proof (page_is_single_flight parseChunk "gpt-4" _ initialPage pg'
                (or_introl (conj eq_refl eq_refl)) E) as [Hlen _].
  split; [exact Hlen|].
  vm_compute in E. injection E as <-. repeat split.
Defined.

End MoreStreams.

(* ================================================================== *)
(** * Properties of the cryptographic helpers *)
(* ================================================================== *)

Section CryptoFacts.

Import Crypto.

Lemma N_of_ascii_inj (x y : ascii) : N_of_ascii x = N_of_ascii y -> x = y.
Proof.
  intros H. rewrite <- (ascii_N_embedding x), <- (ascii_N_embedding y), H.
  reflexivity.
Qed.

Lemma accumulate_zero (a b : string) (r : N) :
  String.length a = String.length b ->
  accumulate a b r = 0%N <-> r = 0%N /\ a = b.
Proof.
  revert b r. induction a as [|x a IH]; intros [|y b] r Hl;
    try discriminate Hl; simpl.
  - split; [intros ->; auto | intros [-> _]; reflexivity].
  - injection Hl as Hl. rewrite (IH b _ Hl), N.lor_eq_0_iff. split.
    + intros [[Hr Hx] ->]. apply N.lxor_eq, N_of_ascii_inj in Hx.
      subst. auto.
    + intros [Hr E]. injection E as -> ->.
      rewrite N.lxor_nilpotent. auto.
Qed.

Lemma timingSafeEqual_true (a b : string) :
  timingSafeEqual a b = true <-> a = b.
Proof.
  unfold timingSafeEqual.
  destruct (Nat.eqb_spec (String.length a) (String.length b)) as [Hl|Hl];
    simpl.
  - rewrite N.eqb_eq, (accumulate_zero a b 0 Hl). split; [intros [_ E]|]; auto.
  - split; [discriminate | intros ->; contradiction].
Qed.

(** X21.  [timingSafeEqual] answers true exactly when the two strings
    are the same, and false exactly when they differ: the accumulated
    differences are zero for equal strings only, and strings of
    different lengths are told apart before the loop.  The order of
    the arguments does not matter. *)
Theorem timingSafeEqual_iff (a b : string) :
  (timingSafeEqual a b = true <-> a = b) /\
  (timingSafeEqual a b = false <-> a <> b) /\
  timingSafeEqual a b = timingSafeEqual b a.
Proof.
  pose proof (timingSafeEqual_true a b) as Hab.
  pose proof (timingSafeEqual_true b a) as Hba.
  repeat split.
  - apply Hab.
  - apply Hab.
  - intros Hf E. apply Hab in E. congruence.
  - intros N. destruct (timingSafeEqual a b); [|reflexivity].
    destruct N. apply Hab. reflexivity.
  - destruct (timingSafeEqual a b), (timingSafeEqual b a); try reflexivity.
    + destruct Hab as [Hab _]. rewrite (Hab eq_refl) in Hba.
      destruct Hba as [_ Hba]. symmetry. apply Hba. reflexivity.
    + destruct Hba as [Hba _]. rewrite (Hba eq_refl) in Hab.
      destruct Hab as [_ Hab]. apply Hab. reflexivity.
Qed.

Lemma byte_hex (b : Byte.byte) :
  exists h l,
    padStart2 (toString16 b) = String h (String l EmptyString) /\
    isHexDigit h = true /\ isHexDigit l = true /\
    Byte.of_N (16 * hexValue h + hexValue l) = Some b.
Proof.
  destruct b; do 2 eexists; (split; [reflexivity|]); repeat split.
Qed.

Lemma hexToBuffer_bufferToHex (buffer : Buffer) :
  hexToBuffer (bufferToHex buffer) = buffer.
Proof.
  induction buffer as [|b buffer IH]; [reflexivity|].
  unfold bufferToHex in *. cbn [map fold_right].
  destruct (byte_hex b) as (h & l & -> & _ & _ & Hb).
  cbn [String.append hexToBuffer]. rewrite Hb, IH. reflexivity.
Qed.

Lemma bufferToHex_digits (a : Buffer) :
  forallb isHexDigit (list_ascii_of_string (bufferToHex a)) = true.
Proof.
  induction a as [|x a IH]; [reflexivity|].
  unfold bufferToHex in *. cbn [map fold_right].
  destruct (byte_hex x) as (h & l & -> & Hh & Hl & _).
  cbn [String.append list_ascii_of_string forallb].
  rewrite Hh, Hl, IH. reflexivity.
Qed.

(** X22.  [bufferToHex] writes two lowercase hexadecimal digits for
    each byte, so that the text is twice as long as the buffer, and
    the buffer can be read back from the text: two buffers with the
    same text are the same. *)
Theorem bufferToHex_is_faithful (a b : Buffer) :
  String.length (bufferToHex a) = 2 * length a /\
  forallb isHexDigit (list_ascii_of_string (bufferToHex a)) = true /\
  hexToBuffer (bufferToHex a) = a /\
  (bufferToHex a = bufferToHex b -> a = b).
Proof.
  repeat split.
  - induction a as [|x a IH]; [reflexivity|].
    unfold bufferToHex in *. cbn [map fold_right].
    destruct (byte_hex x) as (h & l & -> & _).
    cbn [String.append String.length]. rewrite IH. simpl. lia.
  - apply bufferToHex_digits.
  - apply hexToBuffer_bufferToHex.
  - intros H. rewrite <- (hexToBuffer_bufferToHex a), H.
    apply hexToBuffer_bufferToHex.
Qed.

(** *** Base64 *)

Lemma string_ind3 (P : string -> Prop) :
  P EmptyString ->
  (forall a, P (String a EmptyString)) ->
  (forall a b, P (String a (String b EmptyString))) ->
  (forall a b c r, P r -> P (String a (String b (String c r)))) ->
  forall s, P s.
Proof.
  intros H0 H1 H2 H3.
  assert (H : forall s, P s /\ (forall a, P (String a s)) /\
                        (forall a b, P (String a (String b s)))).
  { induction s as [|c r (IH0 & IH1 & IH2)]; repeat split; auto. }
  intros s. apply H.
Qed.

Lemma sextetChar_facts (s : Sextet) :
  charSextet (sextetChar s) = Some s /\
  isBase64Space (sextetChar s) = false /\
  Ascii.eqb (sextetChar s) padChar = false /\
  isBase64Char (sextetChar s) = true.
Proof. destruct s as [[] [] [] [] [] []]; repeat split. Qed.

Lemma sextetsOfText_chars (l : list Sextet) :
  sextetsOfText (map sextetChar l) = Some l.
Proof.
  induction l as [|s l IH]; simpl; [reflexivity|].
  destruct (sextetChar_facts s) as (-> & _). rewrite IH. reflexivity.
Qed.

Lemma bytesOf_sextetsOf (s : string) : bytesOf (sextetsOf s) = s.
Proof.
  induction s as [|a|a b|a b c r IH] using string_ind3.
  - reflexivity.
  - destruct a. reflexivity.
  - destruct a, b. reflexivity.
  - destruct a, b, c. cbn [sextetsOf bytesOf]. rewrite IH. reflexivity.
Qed.

Lemma padding_step (a b c : ascii) (r : string) :
  padding (String a (String b (String c r))) = padding r.
Proof.
  unfold padding. cbn [String.length].
  replace (S (S (S (String.length r)))) with (String.length r + 1 * 3) by lia.
  rewrite Nat.Div0.mod_add. reflexivity.
Qed.

Lemma sextetsOf_step (a b c : ascii) (r : string) :
  length (sextetsOf (String a (String b (String c r))))
  = 4 + length (sextetsOf r).
Proof. destruct a, b, c. reflexivity. Qed.

Lemma sextetsOf_lengths (s : string) :
  length (sextetsOf s) mod 4 <> 1 /\
  (length (sextetsOf s) + length (padding s)) mod 4 = 0 /\
  String.length s <= length (sextetsOf s).
Proof.
  induction s as [|a|a b|a b c r (IH1 & IH2 & IH3)] using string_ind3.
  - repeat split; [discriminate | simpl; lia].
  - destruct a. repeat split; [discriminate | simpl; lia].
  - destruct a, b. repeat split; [discriminate | simpl; lia].
  - rewrite padding_step, sextetsOf_step. cbn [String.length].
    replace (4 + length (sextetsOf r)) with (length (sextetsOf r) + 1 * 4)
      by lia.
    replace (length (sextetsOf r) + 1 * 4 + length (padding r))
      with (length (sextetsOf r) + length (padding r) + 1 * 4) by lia.
    rewrite !Nat.Div0.mod_add. repeat split; try assumption. lia.
Qed.

Lemma filter_chars (l : list Sextet) (pad : list ascii) :
  Forall (fun c => c = padChar) pad ->
  filter (fun c => negb (isBase64Space c)) (map sextetChar l ++ pad)
  = (map sextetChar l ++ pad)%list.
Proof.
  intros Hp. apply forallb_filter_id, forallb_forall. intros c Hc.
  apply in_app_or in Hc as [Hc|Hc].
  - apply in_map_iff in Hc as (s & <- & _).
    destruct (sextetChar_facts s) as (_ & -> & _). reflexivity.
  - rewrite (proj1 (Forall_forall _ _) Hp c Hc). reflexivity.
Qed.

Lemma padding_cases (s : string) :
  padding s = [] \/ padding s = [padChar] \/ padding s = [padChar; padChar].
Proof.
  unfold padding. destruct (String.length s mod 3) as [|[|[|n]]]; auto.
Qed.

Lemma stripPadding_chars (l : list Sextet) (pad : list ascii) :
  pad = [] \/ pad = [padChar] \/ pad = [padChar; padChar] ->
  stripPadding (map sextetChar l ++ pad) = map sextetChar l.
Proof.
  unfold stripPadding. rewrite rev_app_distr, <- map_rev.
  intros [->|[->| ->]]; simpl.
  - rewrite app_nil_r.
    destruct (rev l) as [|x [|y r]] eqn:E; simpl.
    + apply (f_equal (@rev _)) in E. rewrite rev_involutive in E.
      rewrite E. reflexivity.
    + destruct (sextetChar_facts x) as (_ & _ & -> & _). reflexivity.
    + destruct (sextetChar_facts x) as (_ & _ & -> & _). reflexivity.
  - destruct (rev l) as [|x r] eqn:E; simpl.
    + apply (f_equal (@rev _)) in E. rewrite rev_involutive in E.
      rewrite E. reflexivity.
    + destruct (sextetChar_facts x) as (_ & _ & -> & _).
      change (rev (map sextetChar r) ++ [sextetChar x])%list
        with (rev (map sextetChar (x :: r))).
      rewrite <- E, map_rev, rev_involutive. reflexivity.
  - rewrite map_rev, rev_involutive. reflexivity.
Qed.

Lemma atob_btoa (s : string) : atob (btoa s) = Some s.
Proof.
  unfold atob, btoa. rewrite list_ascii_of_string_of_list_ascii.
  destruct (sextetsOf_lengths s) as (H1 & H0 & _). cbv zeta.
  rewrite filter_chars.
  2: { destruct (padding_cases s) as [->|[->| ->]]; repeat constructor. }
  rewrite length_app, length_map, H0, Nat.eqb_refl.
  rewrite (stripPadding_chars _ _ (padding_cases s)), length_map.
  apply Nat.eqb_neq in H1. rewrite H1.
  rewrite sextetsOfText_chars. cbn [option_map].
  rewrite bytesOf_sextetsOf. reflexivity.
Qed.

Lemma base64ToBuffer_bufferToBase64 (buffer : Buffer) :
  base64ToBuffer (bufferToBase64 buffer) = Some buffer.
Proof.
  unfold base64ToBuffer, bufferToBase64. rewrite atob_btoa. simpl.
  rewrite list_ascii_of_string_of_list_ascii, map_map.
  rewrite <- (map_id buffer) at 2. apply f_equal, map_ext.
  intros b. apply byte_of_ascii_of_byte.
Qed.

Lemma length_string_of_list_ascii (l : list ascii) :
  String.length (string_of_list_ascii l) = length l.
Proof. induction l as [|c l IH]; simpl; [|rewrite IH]; reflexivity. Qed.

Lemma btoa_length (s : string) :
  String.length (btoa s) = 4 * ((String.length s + 2) / 3).
Proof.
  unfold btoa. rewrite length_string_of_list_ascii, length_app, length_map.
  induction s as [|a|a b|a b c r IH] using string_ind3.
  - reflexivity.
  - destruct a. reflexivity.
  - destruct a, b. reflexivity.
  - rewrite padding_step, sextetsOf_step. cbn [String.length].
    replace (S (S (S (String.length r))) + 2)
      with (String.length r + 2 + 1 * 3) by lia.
    rewrite Nat.div_add by discriminate. lia.
Qed.

(** X23.  What [bufferToBase64] writes, [base64ToBuffer] reads back:
    the round trip through base64 gives the buffer it started from,
    whatever its length, so that two buffers with the same text are
    the same.  The text has four characters for every three bytes,
    the last group padded. *)
Theorem base64_round_trip (a b : Buffer) :
  base64ToBuffer (bufferToBase64 a) = Some a /\
  String.length (bufferToBase64 a) = 4 * ((length a + 2) / 3) /\
  (bufferToBase64 a = bufferToBase64 b -> a = b).
Proof.
  repeat split.
  - apply base64ToBuffer_bufferToBase64.
  - unfold bufferToBase64.
    rewrite btoa_length, length_string_of_list_ascii, length_map.
    reflexivity.
  - intros H. apply (f_equal base64ToBuffer) in H.
    rewrite !base64ToBuffer_bufferToBase64 in H. congruence.
Qed.

Lemma sliceTo_chars (n : nat) (l : list ascii) :
  sliceTo n (string_of_list_ascii l) = string_of_list_ascii (firstn n l).
Proof.
  revert n. induction l as [|c l IH]; intros [|n]; simpl; try reflexivity.
  rewrite IH. reflexivity.
Qed.

Lemma in_firstn {A} (n : nat) (l : list A) (x : A) :
  In x (firstn n l) -> In x l.
Proof.
  revert n. induction l as [|y l IH]; intros [|n]; simpl; try tauto.
  intros [H|H]; [left; exact H | right; exact (IH n H)].
Qed.

Lemma sliceTo_bufferToBase64 (n : nat) (random : Buffer) :
  length random = n ->
  String.length (sliceTo n (bufferToBase64 random)) = n /\
  forallb isBase64Char
    (list_ascii_of_string (sliceTo n (bufferToBase64 random))) = true.
Proof.
  intros Hn. unfold bufferToBase64, btoa.
  rewrite sliceTo_chars.
  set (s := string_of_list_ascii (map ascii_of_byte random)).
  assert (Hs : String.length s = n)
    by (unfold s; rewrite length_string_of_list_ascii, length_map; exact Hn).
  destruct (sextetsOf_lengths s) as (_ & _ & Hle).
  rewrite firstn_app, length_map.
  replace (n - length (sextetsOf s)) with 0 by lia.
  rewrite firstn_O, app_nil_r, <- (map_id (firstn n _)).
  rewrite length_string_of_list_ascii, list_ascii_of_string_of_list_ascii.
  rewrite map_id, length_firstn, length_map. split; [lia|].
  apply forallb_forall. intros c Hc. apply in_firstn in Hc.
  apply in_map_iff in Hc as (x & <- & _).
  apply (sextetChar_facts x).
Qed.

(** X24.  [generateRandomString(n)] throws for a negative [n] and
    for an [n] above 65536, the most [crypto.getRandomValues] fills
    in one call.  For the others it returns exactly [n] characters,
    all of the base64 alphabet: the padding [=] of the encoding never
    gets into the string. *)
Theorem generateRandomString_length (n : Z) (random : Buffer) :
  length random = Z.to_nat n ->
  match generateRandomString n random with
  | inl NegativeLength => (n < 0)%Z
  | inl AboveQuota => (65536 < n)%Z
  | inr s =>
      (0 <= n <= 65536)%Z /\
      String.length s = Z.to_nat n /\
      forallb isBase64Char (list_ascii_of_string s) = true
  end.
Proof.
  intros Hn. unfold generateRandomString.
  destruct (Z.ltb_spec n 0) as [Hneg|Hpos]; [exact Hneg|].
  destruct (Z.ltb_spec 65536 n) as [Hbig|Hsmall]; [exact Hbig|].
  split; [lia|]. apply sliceTo_bufferToBase64, Hn.
Qed.

Lemma generateRandomString_length_witness :
  generateRandomString 5 (asciiEncode "hello") = inr "aGVsb" /\
  generateRandomString 65537 (repeat Byte.x00 (Z.to_nat 65537))
  = inl AboveQuota /\
  generateRandomString (-1) [] = inl NegativeLength.
Proof.
  pose proof (generateRandomString_length 5 (asciiEncode "hello") eq_refl)
    as H5.
  pose proof (generateRandomString_length 65537
                (repeat Byte.x00 (Z.to_nat 65537)) (repeat_length _ _))
    as Hbig.
  split; [reflexivity|]. split; [|reflexivity].
  destruct (generateRandomString 65537 (repeat Byte.x00 (Z.to_nat 65537)))
    as [[]|s]; [lia | reflexivity | lia].
Defined.

(** *** Through SubtleCrypto *)

Lemma firstn_length_app {A} (l r : list A) : firstn (length l) (l ++ r) = l.
Proof. induction l as [|x l IH]; simpl; [|rewrite IH]; reflexivity. Qed.

Lemma skipn_length_app {A} (l r : list A) : skipn (length l) (l ++ r) = r.
Proof. induction l as [|x l IH]; simpl; [reflexivity | exact IH]. Qed.

Section SubtleFacts.

Variable Key : Type.
Variable encode : string -> Buffer.
Variable decode : Buffer -> string.
Variable aesEncrypt : Key -> Buffer -> Buffer -> Result Buffer.
Variable aesDecrypt : Key -> Buffer -> Buffer -> Result Buffer.
Variable hmacSign : Buffer -> Buffer -> Result Buffer.
Variable exportRaw : Key -> Result Buffer.
Variable importRaw : Buffer -> Result Key.

(** X25.  [decrypt] undoes [encrypt]: when the decoder reads back what
    the encoder writes and AES-GCM decrypts what it encrypted under
    the same key and vector, the text [encrypt] returns for a 12-byte
    vector is decrypted to the data it was given.  The vector travels
    in the first 12 bytes of the text. *)
Theorem decrypt_encrypt (data : string) (key : Key) (iv : Buffer)
  (encrypted : string) :
  (forall s, decode (encode s) = s) ->
  (forall k v plain cipher,
      aesEncrypt k v plain = inr cipher -> aesDecrypt k v cipher = inr plain) ->
  length iv = 12 ->
  encrypt Key encode aesEncrypt data key iv = inr encrypted ->
  decrypt Key decode aesDecrypt encrypted key = inr data /\
  option_map (firstn 12) (base64ToBuffer encrypted) = Some iv.
Proof.
  intros Hcodec Haes Hiv. unfold encrypt, decrypt.
  destruct (aesEncrypt key iv (encode data)) as [e|cipher] eqn:E;
    [discriminate|].
  intros [= <-]. rewrite base64ToBuffer_bufferToBase64. cbn [option_map].
  rewrite <- Hiv, firstn_length_app, skipn_length_app.
  rewrite (Haes _ _ _ _ E), Hcodec. auto.
Qed.

(** A key that was exported is imported from the very bytes the
    platform exported: [importKey] on the text [exportKey] returns
    hands those bytes to [crypto.subtle.importKey]. *)
Lemma importKey_exportKey (key : Key) (raw : Buffer) (text_ : string) :
  exportRaw key = inr raw ->
  exportKey Key exportRaw key = inr text_ ->
  importKey Key importRaw text_ = importRaw raw.
Proof.
  unfold exportKey, importKey. intros ->. intros [= <-].
  rewrite base64ToBuffer_bufferToBase64. reflexivity.
Qed.

(** X26.  [verifyHMAC] accepts one signature only, the text
    [createHMAC] gives for the same data and secret; it is sensitive
    to the case of the hexadecimal digits.  When the signature cannot
    be computed, [verifyHMAC] fails as [createHMAC] does. *)
Theorem verifyHMAC_accepts_createHMAC (data signature secret : string) :
  match createHMAC encode hmacSign data secret with
  | inr expected =>
      (verifyHMAC encode hmacSign data signature secret = inr true
       <-> signature = expected) /\
      verifyHMAC encode hmacSign data expected secret = inr true /\
      forallb isHexDigit (list_ascii_of_string expected) = true
  | inl e => verifyHMAC encode hmacSign data signature secret = inl e
  end.
Proof.
  unfold verifyHMAC.
  destruct (createHMAC encode hmacSign data secret) as [e|expected] eqn:E;
    [reflexivity|].
  repeat split.
  - intros [= H]. apply timingSafeEqual_true, H.
  - intros ->. f_equal. apply timingSafeEqual_true. reflexivity.
  - f_equal. apply timingSafeEqual_true. reflexivity.
  - unfold createHMAC in E.
    destruct (hmacSign (encode secret) (encode data)) as [e|sig];
      [discriminate|].
    injection E as <-. apply bufferToHex_digits.
Qed.

End SubtleFacts.

Lemma decrypt_encrypt_witness :
  exists encrypted,
    encrypt Buffer asciiEncode toyEncrypt "hello" [] sampleIv = inr encrypted /\
    decrypt Buffer asciiDecode toyDecrypt encrypted [] = inr "hello".
Proof.
  eexists. split; [reflexivity|].
  refine (proj1 (decrypt_encrypt Buffer asciiEncode asciiDecode
                   toyEncrypt toyDecrypt "hello" [] sampleIv _ _ _ eq_refl
                   eq_refl)).
  - intros s. unfold asciiDecode, asciiEncode. rewrite map_map.
    rewrite (map_ext _ (fun x => x)) by (intros; apply ascii_of_byte_of_ascii).
    rewrite map_id. apply string_of_list_ascii_of_string.
  - intros k v plain cipher [= <-]. unfold toyDecrypt.
    rewrite rev_involutive. reflexivity.
Defined.

Lemma verifyHMAC_accepts_createHMAC_witness :
  createHMAC asciiEncode toySign "hi" "k" = inr "6b6869" /\
  verifyHMAC asciiEncode toySign "hi" "6b6869" "k" = inr true /\
  verifyHMAC asciiEncode toySign "hi" "6B6869" "k" = inr false.
Proof.
  split; [reflexivity|]. split; [|reflexivity].
  exact (proj1 (proj2 (verifyHMAC_accepts_createHMAC asciiEncode toySign
                         "hi" "6b6869" "k"))).
Defined.

Lemma importKey_exportKey_witness :
  exists text_,
    exportKey Buffer (fun k => inr k) (asciiEncode "0123456789abcdef")
    = inr text_ /\
    importKey Buffer (fun raw => inr raw) text_
    = inr (asciiEncode "0123456789abcdef").
Proof.
  eexists. split; [reflexivity|].
  apply (importKey_exportKey Buffer (fun k => inr k) (fun raw => inr raw)
           (asciiEncode "0123456789abcdef") (asciiEncode "0123456789abcdef"));
    reflexivity.
Defined.

End CryptoFacts.

(* ================================================================== *)
(** * Properties of the block explorer links *)
(* ================================================================== *)

Section ExplorerFacts.

Import ChainStore Explorer.

(** X27.  [getBlockExplorerUrl] and the chain store agree: for each
    supported chain the link starts with the explorer the chain
    store lists for it.  For a chain number that no supported chain
    has, the link is the one of chain 1, Etherscan. *)
Theorem explorer_follows_chain_table (c : SupportedChainId) (n : Z)
  (hash : string) (type : LinkType) :
  getBlockExplorerUrl (chainNumber c) hash type
  = interpolate (hd_error (blockExplorerUrls (SUPPORTED_CHAINS c)))
    ++ "/" ++ typeText type ++ "/" ++ hash /\
  ((forall c', chainNumber c' <> n) ->
   getBlockExplorerUrl n hash type
   = "https://etherscan.io/" ++ typeText type ++ "/" ++ hash).
Proof.
  split; [destruct c; reflexivity|].
  intros H. unfold getBlockExplorerUrl.
  assert (E : member n explorers = None).
  { unfold explorers. cbn [member].
    destruct (Z.eqb_spec 1 n) as [E|_]; [destruct (H chain1 E)|].
    destruct (Z.eqb_spec 137 n) as [E|_]; [destruct (H chain137 E)|].
    destruct (Z.eqb_spec 42161 n) as [E|_]; [destruct (H chain42161 E)|].
    destruct (Z.eqb_spec 10 n) as [E|_]; [destruct (H chain10 E)|].
    destruct (Z.eqb_spec 8453 n) as [E|_]; [destruct (H chain8453 E)|].
    reflexivity. }
  rewrite E. reflexivity.
Qed.

Lemma explorer_follows_chain_table_witness :
  getBlockExplorerUrl 137 "0xabc" Explorer.tx
  = "https://polygonscan.com/tx/0xabc" /\
  getBlockExplorerUrl 5 "0xabc" Explorer.address
  = "https://etherscan.io/address/0xabc".
Proof.
  split.
  - exact (proj1 (explorer_follows_chain_table chain137 5 "0xabc"
                    Explorer.tx)).
  - refine (proj2 (explorer_follows_chain_table chain1 5 "0xabc"
                     Explorer.address) _).
    intros c'. destruct c'; discriminate.
Defined.

End ExplorerFacts.

(* ================================================================== *)
(** * Properties of the API client *)
(* ================================================================== *)

Section ApiClientFacts.

Import ApiClient.

Lemma get_assign_same (k v : string) (h : Headers) :
  get k (assign k v h) = Some v.
Proof.
  induction h as [|[k' v'] h IH]; simpl.
  - rewrite String.eqb_refl. reflexivity.
  - destruct (String.eqb_spec k' k) as [->|N]; simpl.
    + rewrite String.eqb_refl. reflexivity.
    + apply String.eqb_neq in N. rewrite N. exact IH.
Qed.

Lemma get_assign_other (k k' v : string) (h : Headers) :
  k' <> k -> get k' (assign k v h) = get k' h.
Proof.
  intros N. induction h as [|[k0 v0] h IH]; simpl.
  - destruct (String.eqb_spec k k'); [congruence | reflexivity].
  - destruct (String.eqb_spec k0 k) as [->|N0]; simpl.
    + destruct (String.eqb_spec k k'); [congruence | reflexivity].
    + rewrite IH. reflexivity.
Qed.

Lemma get_omit_same (k : string) (h : Headers) : get k (omit k h) = None.
Proof.
  induction h as [|[k0 v0] h IH]; simpl; [reflexivity|].
  destruct (String.eqb_spec k0 k) as [->|N]; simpl; [exact IH|].
  apply String.eqb_neq in N. rewrite N. exact IH.
Qed.

Lemma get_omit_other (k k' : string) (h : Headers) :
  k' <> k -> get k' (omit k h) = get k' h.
Proof.
  intros N. induction h as [|[k0 v0] h IH]; simpl; [reflexivity|].
  destruct (String.eqb_spec k0 k) as [->|N0]; simpl.
  - destruct (String.eqb_spec k k'); [congruence | exact IH].
  - rewrite IH. reflexivity.
Qed.

Lemma get_absent (k : string) (h : Headers) :
  ~ In k (map fst h) -> get k h = None.
Proof.
  induction h as [|[k0 v0] h IH]; simpl; [reflexivity|].
  intros N. destruct (String.eqb_spec k0 k) as [E|_]; [tauto|].
  apply IH. tauto.
Qed.

Lemma get_spread (k : string) (a b : Headers) :
  NoDup (map fst b) ->
  get k (spread a b) = over_opt (get k a) (get k b).
Proof.
  unfold spread. revert a. induction b as [|[k0 v0] b IH]; intros a Hb.
  - reflexivity.
  - inversion Hb as [|? ? Hn Hb']; subst. cbn [fold_left fst snd].
    rewrite (IH _ Hb'). cbn [get].
    destruct (String.eqb_spec k0 k) as [->|N].
    + rewrite get_assign_same, (get_absent _ _ Hn). reflexivity.
    + rewrite get_assign_other by congruence. reflexivity.
Qed.

Lemma get_setAuthToken (token : option string) (c : Client) (k : string) :
  get k (defaultHeaders (setAuthToken token c))
  = if k =? "Authorization" then bearer token
    else get k (defaultHeaders c).
Proof.
  destruct (String.eqb_spec k "Authorization") as [->|N].
  - unfold setAuthToken, bearer.
    destruct token as [t|]; [destruct (truthy (Some t))|]; simpl;
      auto using get_assign_same, get_omit_same.
  - unfold setAuthToken.
    destruct token as [t|]; [destruct (truthy (Some t))|]; simpl;
      auto using get_assign_other, get_omit_other.
Qed.

(** X28.  After [setAuthToken(token)], every request of the client
    carries [Authorization: Bearer token], unless the call's own
    headers name another value; a token that is [null] or the empty
    string takes the header away instead.  No other header and no
    URL changes with the token. *)
Theorem token_reaches_requests (Body : Type) (token : option string)
  (c : Client) (endpoint : string) (options : RequestInit Body) :
  NoDup (map fst (ownHeaders Body options)) ->
  let before := request Body c endpoint options in
  let after := request Body (setAuthToken token c) endpoint options in
  get "Authorization" (req_headers Body after)
  = over_opt (bearer token) (get "Authorization" (ownHeaders Body options)) /\
  (forall k, k <> "Authorization" ->
     get k (req_headers Body after) = get k (req_headers Body before)) /\
  url Body after = url Body before.
Proof.
  intros Hn. cbn zeta. unfold request. cbn [req_headers url].
  repeat split.
  - rewrite (get_spread _ _ _ Hn), get_setAuthToken. reflexivity.
  - intros k Hk. rewrite !(get_spread _ _ _ Hn), get_setAuthToken.
    apply String.eqb_neq in Hk. rewrite Hk. reflexivity.
  - destruct token as [t|]; [unfold setAuthToken; destruct (truthy (Some t))|];
      reflexivity.
Qed.

Lemma token_reaches_requests_witness :
  get "Authorization"
    (req_headers unit
       (request unit (setAuthToken (Some "abc") (create "http://localhost:8080"))
          "/robots/7" deleteOptions))
  = Some "Bearer abc" /\
  get "Authorization"
    (req_headers unit
       (request unit
          (setAuthToken (Some "")
             (setAuthToken (Some "abc") (create "http://localhost:8080")))
          "/robots/7" deleteOptions))
  = None.
Proof.
  split.
  - exact (proj1 (token_reaches_requests unit (Some "abc")
                    (create "http://localhost:8080") "/robots/7"
                    deleteOptions (NoDup_nil _))).
  - exact (proj1 (token_reaches_requests unit (Some "")
                    (setAuthToken (Some "abc") (create "http://localhost:8080"))
                    "/robots/7" deleteOptions (NoDup_nil _))).
Defined.

Lemma decimal_inj (a b : N) : decimal a = decimal b -> a = b.
Proof.
  unfold decimal. intros H.
  apply (f_equal NilEmpty.uint_of_string) in H.
  rewrite !NilEmpty.usu in H. injection H as H.
  rewrite <- (DecimalN.Unsigned.of_to a), <- (DecimalN.Unsigned.of_to b), H.
  reflexivity.
Qed.

Section FetchFacts.

Variable T : Type.
Variable Details : Type.
Variable memberOfNull : string.

Local Abbreviation settled := (ApiClient.settled T Details memberOfNull).

(** X29.  How the wrapper [fetch] reports a request.  It succeeds
    exactly when the response is [ok] and its body reads as JSON, and
    then alone it has no [error]; a failure has no data.  The code is
    [TIMEOUT] exactly when a rejection is an [AbortError], and
    [HTTP_<status>] exactly when the response is not [ok] and its body
    is JSON other than [null].  So a response whose body cannot be
    read as JSON is never a success and never an [HTTP_<status>]
    failure, whatever its status. *)
Theorem fetch_outcomes (o : Outcome T Details) :
  (success T Details (settled o) = true <->
   exists status statusText d, o = Responds T Details true status statusText (inr d)) /\
  (error T Details (settled o) = None <->
   success T Details (settled o) = true) /\
  (success T Details (settled o) = false ->
   data T Details (settled o) = None) /\
  (codeOf T Details (settled o) = Some "TIMEOUT" <->
   rejection T Details o = Some AbortError) /\
  (forall status,
     codeOf T Details (settled o) = Some ("HTTP_" ++ decimal status) <->
     exists statusText v m d,
       o = Responds T Details false status statusText
             (inr (Value T Details v m d))) /\
  (rejection T Details o <> None ->
   success T Details (settled o) = false /\
   forall status,
     codeOf T Details (settled o) <> Some ("HTTP_" ++ decimal status)).
Proof.
  destruct o as [[|[m|]]|[|] status statusText [[|[m|]]|[|v m d]]];
    cbn; repeat split;
    try discriminate; try reflexivity; try congruence;
    try (intros (? & ? & ? & [=])); try (intros (? & ? & ? & ? & [=]));
    try (intros [=]); eauto.
  - match goal with
    | H : decimal _ = decimal _ |- _ => apply decimal_inj in H; subst; eauto
    end.
  - congruence.
Qed.

End FetchFacts.

End ApiClientFacts.

(* ================================================================== *)
(** * Properties of the PostgreSQL client *)
(* ================================================================== *)

Section PgFacts.

Import Pg.

Variable Row : Type.
Variable Param : Type.
Variable Db : Type.
Variable exec : string -> list Param -> Db -> (Thrown + list Row) * Db.

Local Abbreviation clientQuery := (Pg.clientQuery Row Param Db exec).
Local Abbreviation runCallback := (Pg.runCallback Row Param Db exec).
Local Abbreviation rollback := (Pg.rollback Row Param Db exec).
Local Abbreviation transaction := (Pg.transaction Row Param Db exec).

Lemma runCallback_script (T : Type) (c : Callback Row Param T)
  (p : Pool Db) :
  runCallback c p
  = (snd (fst (script Row Param Db exec c (db Db p))),
     {| db := snd (script Row Param Db exec c (db Db p));
        checkedOut := checkedOut Db p;
        sent := (sent Db p
                 ++ fst (fst (script Row Param Db exec c (db Db p))))%list |}).
Proof.
  revert p. induction c as [result|e|text_ params next IH]; intros p.
  - cbn. rewrite app_nil_r. destruct p; reflexivity.
  - cbn. rewrite app_nil_r. destruct p; reflexivity.
  - cbn [Pg.runCallback Pg.script]. unfold Pg.clientQuery.
    destruct (exec text_ params (db Db p)) as [r d1]. rewrite IH.
    cbn [db checkedOut sent].
    destruct (script Row Param Db exec (next r) d1) as [[l end_] d2].
    cbn [fst snd]. rewrite <- app_assoc. reflexivity.
Qed.

Lemma rollback_script (T : Type) (e : Thrown) (p : Pool Db) :
  @Pg.rollback Row Param Db exec T e p
  = (inl (afterRollback Row Param Db exec e (db Db p)),
     {| db := snd (exec "ROLLBACK" [] (db Db p));
        checkedOut := pred (checkedOut Db p);
        sent := (sent Db p ++ ["ROLLBACK"])%list |}).
Proof.
  unfold Pg.rollback, Pg.clientQuery, afterRollback.
  destruct (exec "ROLLBACK" [] (db Db p)) as [[e'|rows] d]; reflexivity.
Qed.

(** X30.  What [transaction] does on the server, in full.  On a
    client taken from the pool it sends [BEGIN]; if that fails the
    callback is not run.  Otherwise the callback runs, and the
    statements sent in between are exactly its own.  If it returns,
    [COMMIT] is sent, and when [COMMIT] succeeds the result of
    [transaction] is the result of the callback.  If [BEGIN], the
    callback or [COMMIT] fails, [ROLLBACK] is sent last and
    [transaction] throws the error of that failure, or the one of
    [ROLLBACK] when [ROLLBACK] fails too.  In every case the client is
    back in the pool afterwards. *)
Theorem transaction_is_bracketed (T : Type) (callback : Callback Row Param T)
  (p : Pool Db) :
  let out := transaction true None callback p in
  let begun := exec "BEGIN" [] (db Db p) in
  let ran := script Row Param Db exec callback (snd begun) in
  let statements := fst (fst ran) in
  let committed := exec "COMMIT" [] (snd ran) in
  checkedOut Db (snd out) = checkedOut Db p /\
  match fst begun, snd (fst ran), fst committed with
  | inl e, _, _ =>
      fst out = inl (afterRollback Row Param Db exec e (snd begun)) /\
      sent Db (snd out) = (sent Db p ++ ["BEGIN"; "ROLLBACK"])%list /\
      db Db (snd out) = snd (exec "ROLLBACK" [] (snd begun))
  | inr _, inl e, _ =>
      fst out = inl (afterRollback Row Param Db exec e (snd ran)) /\
      sent Db (snd out)
      = (sent Db p ++ "BEGIN" :: statements ++ ["ROLLBACK"])%list /\
      db Db (snd out) = snd (exec "ROLLBACK" [] (snd ran))
  | inr _, inr result, inl e =>
      fst out = inl (afterRollback Row Param Db exec e (snd committed)) /\
      sent Db (snd out)
      = (sent Db p ++ "BEGIN" :: statements ++ ["COMMIT"; "ROLLBACK"])%list /\
      db Db (snd out) = snd (exec "ROLLBACK" [] (snd committed))
  | inr _, inr result, inr _ =>
      fst out = inr result /\
      sent Db (snd out)
      = (sent Db p ++ "BEGIN" :: statements ++ ["COMMIT"])%list /\
      db Db (snd out) = snd committed
  end.
Proof.
  assert (Q : forall text_ q,
             clientQuery text_ [] q
             = (fst (exec text_ [] (db Db q)),
                {| db := snd (exec text_ [] (db Db q));
                   checkedOut := checkedOut Db q;
                   sent := (sent Db q ++ [text_])%list |})).
  { intros text_ q. unfold Pg.clientQuery.
    destruct (exec text_ [] (db Db q)); reflexivity. }
  cbv zeta. unfold Pg.transaction. cbn [negb]. rewrite Q.
  cbn [connect db checkedOut sent].
  destruct (exec "BEGIN" [] (db Db p)) as [[e|rows] d1]; cbn [fst snd].
  { rewrite rollback_script. cbn [fst snd db checkedOut sent].
    rewrite <- app_assoc. repeat split. }
  rewrite runCallback_script. cbn [db checkedOut sent].
  destruct (script Row Param Db exec callback d1) as [[l [e|result]] d2];
    cbn [fst snd].
  { rewrite rollback_script. cbn [fst snd db checkedOut sent].
    rewrite <- !app_assoc. repeat split. }
  rewrite Q. cbn [db checkedOut sent].
  destruct (exec "COMMIT" [] d2) as [[e|rows'] d3]; cbn [fst snd].
  { rewrite rollback_script. cbn [fst snd db checkedOut sent].
    rewrite <- !app_assoc. repeat split. }
  cbn [release fst snd db checkedOut sent].
  rewrite <- !app_assoc. repeat split.
Qed.

End PgFacts.

Section PgRuns.

Import Pg.

Lemma transaction_is_bracketed_witness :
  transaction nat unit (list string) toyExec true None
    (twoStatements "insert" "boom") emptyPool
  = (inl (ErrorWith "syntax error"),
     {| db := ["BEGIN"; "insert"; "ROLLBACK"];
        checkedOut := 0;
        sent := ["BEGIN"; "insert"; "boom"; "ROLLBACK"] |}) /\
  fst (transaction nat unit (list string) toyExec true None
         (twoStatements "insert" "update") emptyPool) = inr 1 /\
  sent (list string)
    (snd (transaction nat unit (list string) toyExec true None
            (twoStatements "insert" "update") emptyPool))
  = ["BEGIN"; "insert"; "update"; "COMMIT"].
Proof.
  split; [reflexivity|].
  destruct (transaction_is_bracketed nat unit (list string) toyExec nat
              (twoStatements "insert" "update") emptyPool)
    as (_ & Hr & Hs & _).
  split; [exact Hr | exact Hs].
Defined.

End PgRuns.
